(** * Sovereign Instrument Endorsement & Discharging Engine

    A shallow embedding of the React components of the front-end and the
    verification of their event handlers:

    - [InstrumentProcessor]       (src/components/Header.tsx)
    - [VehicleFinancingAnalysis]  (src/components/VehicleFinancingAnalysis.tsx)
    - [DebtCollectorLog]          (the debt-collector log screen)
    - [LegalResources]            (the resource catalogue)
    - [EndorsementModal]          (the citation modal with "Explain with AI")

    Component state ([useState] slots) is a record; a synchronous handler
    is a function on that record; an [async] handler is a computation in
    the monad [Handler], which threads the component state, raises and
    catches exceptions, and records every suspension point (file read,
    outbound request) together with the state at that moment.

    A string is held as the UTF-8 bytes of its code points ([string]).
    The helpers of module [JS] follow the ECMAScript built-ins on such
    strings.  [toLowerCase] and [localeCompare], whose results depend on
    the Unicode tables of the engine, are parameters of the components
    that call them. *)

From Stdlib Require Import String Ascii List ZArith NArith Lia Bool Arith.
From Stdlib Require Import Sorted Permutation.
From Equations Require Import Equations.
Import ListNotations.

Local Open Scope string_scope.
Local Open Scope list_scope.

(* ===================================================================== *)
(** ** ECMAScript string built-ins used by the components *)
(* ===================================================================== *)

Module JS.

(** Truthiness of a string: only the empty string is falsy. *)
Definition truthy (s : string) : bool :=
  match s with EmptyString => false | String _ _ => true end.

(** [a || b] on strings. *)
Definition orElse (a b : string) : string := if truthy a then a else b.

(** [Array.prototype.includes] on an array of strings (strict equality). *)
Fixpoint arrayIncludes (xs : list string) (x : string) : bool :=
  match xs with
  | [] => false
  | y :: ys => String.eqb y x || arrayIncludes ys x
  end.

(** [String.prototype.includes]: [q] occurs in [s] at some position. *)
Fixpoint includes (s q : string) : bool :=
  String.prefix q s ||
  match s with
  | EmptyString => false
  | String _ r => includes r q
  end.

(** The UTF-8 encoding of a code point. *)
Definition utf8 (cp : N) : string :=
  let byte (n : N) := ascii_of_N n in
  let continuation (n : N) := byte (128 + n mod 64)%N in
  if (cp <? 128)%N then
    String (byte cp) EmptyString
  else if (cp <? 2048)%N then
    String (byte (192 + cp / 64)%N) (String (continuation cp) EmptyString)
  else if (cp <? 65536)%N then
    String (byte (224 + cp / 4096)%N)
      (String (continuation (cp / 64)%N)
         (String (continuation cp) EmptyString))
  else
    String (byte (240 + cp / 262144)%N)
      (String (continuation (cp / 4096)%N)
         (String (continuation (cp / 64)%N)
            (String (continuation cp) EmptyString))).

(** The code points of the production WhiteSpace: TAB, VT, FF, ZWNBSP and
    the general category Zs (SP, NBSP, U+1680, U+2000 to U+200A, U+202F,
    U+205F, U+3000). *)
Definition whiteSpaceCodePoints : list N :=
  [9; 11; 12; 65279;
   32; 160; 5760;
   8192; 8193; 8194; 8195; 8196; 8197; 8198; 8199; 8200; 8201; 8202;
   8239; 8287; 12288]%N.

(** The code points of the production LineTerminator: LF, CR, U+2028 and
    U+2029. *)
Definition lineTerminatorCodePoints : list N := [10; 13; 8232; 8233]%N.

Definition lineTerminators : list string := map utf8 lineTerminatorCodePoints.

(** What [trim] strips: white space and line terminators. *)
Definition whiteSpace : list string :=
  map utf8 (whiteSpaceCodePoints ++ lineTerminatorCodePoints).

(** [s] without its prefix [w], if it starts with [w]. *)
Fixpoint stripPrefix (w s : string) : option string :=
  match w, s with
  | EmptyString, _ => Some s
  | String a w', String b s' =>
      if Ascii.eqb a b then stripPrefix w' s' else None
  | String _ _, EmptyString => None
  end.

(** [s] without the first of [ws] it starts with. *)
Fixpoint stripOne (ws : list string) (s : string) : option string :=
  match ws with
  | [] => None
  | w :: rest =>
      match stripPrefix w s with
      | Some r => Some r
      | None => stripOne rest s
      end
  end.

(** [s] without the [ws] it starts with, one after the other; every
    step takes at least one byte, so [fuel] need not exceed the length of
    [s]. *)
Fixpoint stripAll (fuel : nat) (ws : list string) (s : string) : string :=
  match fuel with
  | O => s
  | S fuel' =>
      match stripOne ws s with
      | Some r => stripAll fuel' ws r
      | None => s
      end
  end.

(** [String.prototype.trimStart]. *)
Definition trimStart (s : string) : string :=
  stripAll (String.length s) whiteSpace s.

(** [String.prototype.trimEnd]: nothing is left of a string made of white
    space only; any other string keeps its first byte. *)
Fixpoint trimEnd (s : string) : string :=
  match s with
  | EmptyString => EmptyString
  | String c r =>
      if truthy (trimStart s) then String c (trimEnd r) else EmptyString
  end.

(** [String.prototype.trim]. *)
Definition trim (s : string) : string := trimEnd (trimStart s).

(** [s.split(sep)] for a one-character separator. *)
Fixpoint splitChar (sep : ascii) (s : string) : list string :=
  match s with
  | EmptyString => [EmptyString]
  | String c r =>
      if Ascii.eqb c sep then EmptyString :: splitChar sep r
      else match splitChar sep r with
           | [] => [String c EmptyString]
           | h :: t => String c h :: t
           end
  end.

(** [xs.join(sep)]. *)
Fixpoint join (sep : string) (xs : list string) : string :=
  match xs with
  | [] => EmptyString
  | [x] => x
  | x :: rest => x ++ sep ++ join sep rest
  end.

Definition isDigit (c : ascii) : bool :=
  let n := nat_of_ascii c in (48 <=? n)%nat && (n <=? 57)%nat.

(** The character [.] of a regular expression matches anything but a line
    terminator: whether one starts [s]. *)
Definition startsWithLineTerminator (s : string) : bool :=
  existsb (fun t => String.prefix t s) lineTerminators.

Definition dquote : string := String (ascii_of_nat 34) EmptyString.

(** U+00A7 SECTION SIGN, UTF-8 encoded. *)
Definition sectionSign : string :=
  String (ascii_of_nat 194) (String (ascii_of_nat 167) EmptyString).

End JS.

(* ===================================================================== *)
(** ** The generative-language service and the handler monad *)
(* ===================================================================== *)

(** A [File] picked in the browser: its name and its declared MIME type. *)
Record File := mkFile { fileName : string; fileType : string }.

(** One part of the [contents] of a request. *)
Inductive Part :=
| Text (text : string)
| InlineData (mimeType data : string).

(** The argument of [ai.models.generateContent]. *)
Record Request := mkRequest { model : string; contents : list Part }.

(** How the promise returned by [generateContent] settles. *)
Inductive Outcome :=
| Resolved (text : string)
| Rejected.

(** How [FileReader.readAsDataURL] ends: [onerror], or [onload] with the
    data URL in [e.target.result]. *)
Inductive ReadResult :=
| ReadError
| Loaded (dataUrl : string).

Section HandlerMonad.

(** The state record of the component the handler belongs to. *)
Variable St : Type.

(** What lies outside the handler: the service, the file reader, and
    the state changes other event handlers make while the handler is
    suspended at an [await]. *)
Record Env := mkEnv {
  generate : Request -> Outcome;
  readFile : File -> ReadResult;
  meanwhile : St -> St
}.

(** A suspension point, with the component state when it was reached. *)
Inductive Event :=
| FileRead (before : St) (f : File)
| Sent (before : St) (req : Request).

(** Result of a computation: a value, or a thrown exception. *)
Inductive Res (A : Type) :=
| Ok (a : A)
| Thrown.

Definition Handler (A : Type) : Type :=
  Env -> St -> list Event -> Res A * St * list Event.

Definition ret {A} (a : A) : Handler A :=
  fun _ s tr => (Ok A a, s, tr).

Definition bind {A B} (m : Handler A) (k : A -> Handler B) : Handler B :=
  fun env s tr =>
    match m env s tr with
    | (Ok _ a, s', tr') => k a env s' tr'
    | (Thrown _, s', tr') => (Thrown B, s', tr')
    end.

(** [throw new Error(...)]. *)
Definition throw {A} : Handler A :=
  fun _ s tr => (Thrown A, s, tr).

(** A state setter call, e.g. [setIsLoading(true)]. *)
Definition set (f : St -> St) : Handler unit :=
  fun _ s tr => (Ok unit tt, f s, tr).

(** [await ai.models.generateContent(req)]: the request is sent, other
    handlers may run, then the promise settles. *)
Definition generateContent (req : Request) : Handler string :=
  fun env s tr =>
    let tr' := tr ++ [Sent s req] in
    let s' := meanwhile env s in
    match generate env req with
    | Resolved text => (Ok string text, s', tr')
    | Rejected => (Thrown string, s', tr')
    end.

(** [reader.readAsDataURL(file)] up to the [onload]/[onerror] callback. *)
Definition readAsDataURL (f : File) : Handler ReadResult :=
  fun env s tr =>
    (Ok ReadResult (readFile env f), meanwhile env s, tr ++ [FileRead s f]).

(** [try { body } catch (err) { handler } finally { final }]. *)
Definition tryCatchFinally (body handler final : Handler unit)
  : Handler unit :=
  fun env s tr =>
    match body env s tr with
    | (Ok _ _, s1, tr1) => final env s1 tr1
    | (Thrown _, s1, tr1) =>
        match handler env s1 tr1 with
        | (Ok _ _, s2, tr2) => final env s2 tr2
        | (Thrown _, s2, tr2) =>
            match final env s2 tr2 with
            | (_, s3, tr3) => (Thrown unit, s3, tr3)
            end
        end
    end.

(** [try { body } catch (err) { handler }]. *)
Definition tryCatch (body handler : Handler unit) : Handler unit :=
  fun env s tr =>
    match body env s tr with
    | (Ok _ a, s1, tr1) => (Ok unit a, s1, tr1)
    | (Thrown _, s1, tr1) => handler env s1 tr1
    end.

(** Run a handler invoked in state [s]. *)
Definition run {A} (h : Handler A) (env : Env) (s : St)
  : Res A * St * list Event := h env s [].

Definition finalState {A} (r : Res A * St * list Event) : St :=
  snd (fst r).

Definition events {A} (r : Res A * St * list Event) : list Event :=
  snd r.

(** The requests sent during a run, in order. *)
Fixpoint requests (tr : list Event) : list Request :=
  match tr with
  | [] => []
  | Sent _ req :: rest => req :: requests rest
  | FileRead _ _ :: rest => requests rest
  end.

(** No other handler touches the state during an [await]. *)
Definition quiet (env : Env) : Prop := forall s, meanwhile env s = s.

End HandlerMonad.

Arguments mkEnv {St}.
Arguments generate {St}.
Arguments readFile {St}.
Arguments meanwhile {St}.
Arguments FileRead {St}.
Arguments Sent {St}.
Arguments Ok {A}.
Arguments Thrown {A}.
Arguments ret {St A}.
Arguments bind {St A B}.
Arguments throw {St A}.
Arguments set {St}.
Arguments generateContent {St}.
Arguments readAsDataURL {St}.
Arguments tryCatchFinally {St}.
Arguments tryCatch {St}.
Arguments run {St A}.
Arguments finalState {St A}.
Arguments events {St A}.
Arguments requests {St}.
Arguments quiet {St}.

Declare Scope handler_scope.
Delimit Scope handler_scope with handler.
Notation "x <- m ;; k" := (bind m (fun x => k))
  (at level 61, m at next level, right associativity) : handler_scope.
Notation "m ;; k" := (bind m (fun _ => k))
  (at level 61, right associativity) : handler_scope.

(* ===================================================================== *)
(** ** Reading an uploaded file into an inline-data part *)
(* ===================================================================== *)

Module DataUrl.

(** [.*?;] : the shortest run of non-line-terminators up to a [;]. *)
Fixpoint lazyUntilSemicolon (s : string) : option string :=
  match s with
  | EmptyString => None
  | String c r =>
      if Ascii.eqb c ";" then Some EmptyString
      else if JS.startsWithLineTerminator s then None
      else option_map (String c) (lazyUntilSemicolon r)
  end.

(** [header.match(/:(.*?);/)?.[1]] : the first capture of the leftmost
    match, if any. *)
Fixpoint matchMimeType (header : string) : option string :=
  match header with
  | EmptyString => None
  | String c r =>
      if Ascii.eqb c ":" then
        match lazyUntilSemicolon r with
        | Some m => Some m
        | None => matchMimeType r
        end
      else matchMimeType r
  end.

(** The body shared by [reader.onload] in Header.tsx and
    [fileToGenerativePart]: [None] where the source throws or rejects. *)
Definition parse (dataUrl : string) : option (string * string) :=
  if negb (JS.truthy dataUrl) then None
  else
    let parts := JS.splitChar "," dataUrl in
    let header := nth 0 parts EmptyString in
    match matchMimeType header, nth_error parts 1 with
    | Some mimeType, Some base64Data =>
        if negb (JS.truthy mimeType) || negb (JS.truthy base64Data)
        then None
        else Some (mimeType, base64Data)
    | _, _ => None
    end.

End DataUrl.

(* ===================================================================== *)
(** ** InstrumentProcessor (src/components/Header.tsx) *)
(* ===================================================================== *)

Module InstrumentProcessor.

Record State := mkState {
  file : option File;
  analysis : string;
  isLoading : bool;
  error : option string
}.

Definition setFile (v : option File) (s : State) : State :=
  mkState v (analysis s) (isLoading s) (error s).
Definition setAnalysis (v : string) (s : State) : State :=
  mkState (file s) v (isLoading s) (error s).
Definition setIsLoading (v : bool) (s : State) : State :=
  mkState (file s) (analysis s) v (error s).
Definition setError (v : option string) (s : State) : State :=
  mkState (file s) (analysis s) (isLoading s) v.

(** [useState] initial values. *)
Definition initialState : State := mkState None "" false None.

Definition allowedTypes : list string :=
  ["image/jpeg"; "image/png"; "application/pdf"].

Definition unsupportedMessage : string :=
  "Unsupported file type. Please upload a .jpg, .png, or .pdf file.".

(** [files] is [event.target.files]: [null] or a [FileList]. *)
Definition handleFileChange (files : option (list File)) (s : State)
  : State :=
  match files with
  | Some (selectedFile :: _) =>
      if negb (JS.arrayIncludes allowedTypes (fileType selectedFile)) then
        setAnalysis "" (setFile None (setError (Some unsupportedMessage) s))
      else
        setError None (setAnalysis "" (setFile (Some selectedFile) s))
  | _ => s
  end.

Definition prompt : string :=
  "You are an expert in sovereign law and the Uniform Commercial Code (UCC). Analyze the following image or document of a negotiable instrument. Identify the following details and format your response in clear, actionable markdown:
1.  **Instrument Type:** Is it a promissory note, bill of exchange, check, etc.? Is it an order or bearer instrument?
2.  **Parties Involved:** Identify the Drawer, Drawee, Payee, and any Endorsers.
3.  **Key Information:** Extract the amount, date of issue, and any due dates.
4.  **Endorsements:** Describe any endorsements present on the instrument (front or back). Classify them (Blank, Special, Restrictive, Qualified) according to the UCC.
5.  **Negotiability:** Briefly assess its negotiability under UCC Article 3.
6.  **Suggested Action:** Based on the analysis, what is the next logical step for the holder of this instrument?".

Definition analyzeFailedMessage : string :=
  "Failed to analyze the instrument. The file may be in an unsupported format or there was an issue with the AI service. Please try again.".

Definition readFailedMessage : string :=
  "Failed to read the file. Please ensure it is a valid file.".

(** [s] is the state the handler closes over when it is invoked. *)
Definition handleAnalyze (s : State) : Handler State unit :=
  (match file s with
   | None => ret tt
   | Some f =>
       set (setIsLoading true) ;;
       set (setError None) ;;
       set (setAnalysis "") ;;
       r <- readAsDataURL f ;;
       match r with
       | Loaded dataUrl =>
           tryCatchFinally
             (match DataUrl.parse dataUrl with
              | None => throw
              | Some (mimeType, base64Data) =>
                  let filePart := InlineData mimeType base64Data in
                  response <- generateContent
                    (mkRequest "gemini-2.5-pro" [Text prompt; filePart]) ;;
                  set (setAnalysis response)
              end)
             (set (setError (Some analyzeFailedMessage)))
             (set (setIsLoading false))
       | ReadError =>
           set (setError (Some readFailedMessage)) ;;
           set (setIsLoading false)
       end
   end)%handler.

(** The [disabled] attribute of the "Parse Instrument" button. *)
Definition analyzeDisabled (s : State) : bool :=
  negb (match file s with Some _ => true | None => false end)
  || isLoading s.

(** A click on the button: a disabled button dispatches no event. *)
Definition clickAnalyze (s : State) : Handler State unit :=
  if analyzeDisabled s then ret tt else handleAnalyze s.

End InstrumentProcessor.

(* ===================================================================== *)
(** ** VehicleFinancingAnalysis *)
(* ===================================================================== *)

Module VehicleFinancingAnalysis.

Record State := mkState {
  file : option File;
  analysis : string;
  isLoading : bool;
  error : option string;
  remedyLetter : string;
  isGenerating : bool
}.

Definition setFile (v : option File) (s : State) : State :=
  mkState v (analysis s) (isLoading s) (error s) (remedyLetter s)
          (isGenerating s).
Definition setAnalysis (v : string) (s : State) : State :=
  mkState (file s) v (isLoading s) (error s) (remedyLetter s)
          (isGenerating s).
Definition setIsLoading (v : bool) (s : State) : State :=
  mkState (file s) (analysis s) v (error s) (remedyLetter s)
          (isGenerating s).
Definition setError (v : option string) (s : State) : State :=
  mkState (file s) (analysis s) (isLoading s) v (remedyLetter s)
          (isGenerating s).
Definition setRemedyLetter (v : string) (s : State) : State :=
  mkState (file s) (analysis s) (isLoading s) (error s) v
          (isGenerating s).
Definition setIsGenerating (v : bool) (s : State) : State :=
  mkState (file s) (analysis s) (isLoading s) (error s) (remedyLetter s)
          v.

Definition initialState : State := mkState None "" false None "" false.

Definition allowedTypes : list string :=
  ["application/pdf"; "image/jpeg"; "image/png"].

Definition unsupportedMessage : string :=
  "Unsupported file type. Please upload a PDF, JPG, or PNG file.".

Definition handleFileChange (files : option (list File)) (s : State)
  : State :=
  match files with
  | Some (selectedFile :: _) =>
      if negb (JS.arrayIncludes allowedTypes (fileType selectedFile)) then
        setRemedyLetter ""
          (setAnalysis ""
             (setFile None (setError (Some unsupportedMessage) s)))
      else
        setError None
          (setRemedyLetter ""
             (setAnalysis "" (setFile (Some selectedFile) s)))
  | _ => s
  end.

(** The promise of [fileToGenerativePart]: resolves with the inline-data
    part or rejects. *)
Definition fileToGenerativePart (f : File) : Handler State Part :=
  (r <- readAsDataURL f ;;
   match r with
   | ReadError => throw
   | Loaded dataUrl =>
       match DataUrl.parse dataUrl with
       | None => throw
       | Some (mimeType, base64Data) => ret (InlineData mimeType base64Data)
       end
   end)%handler.

Definition analyzePrompt : string :=
  "You are an expert in consumer protection law, specializing in the Truth in Lending Act (TILA) and vehicle financing contracts. Analyze the following document.
1.  **TILA Disclosure Validation:** Check for clear, conspicuous disclosures of the APR, finance charge, amount financed, and total of payments. Note any discrepancies or missing information.
2.  **Hidden Fees:** Identify any clauses that may represent hidden fees, such as excessive documentation fees, GAP insurance markups, or undisclosed add-ons.
3.  **Misrepresentation:** Look for signs of misrepresentation regarding the vehicle's condition, history, or financing terms.
4.  **Arbitration Clauses:** Note the presence and terms of any mandatory arbitration clauses.
5.  **Summary and Recommended Action:** Provide a clear, actionable summary in markdown format, outlining potential violations and suggesting a course of action.".

Definition analyzeFailedMessage : string :=
  "Failed to analyze the contract. Please try again.".

Definition handleAnalyze (s : State) : Handler State unit :=
  (match file s with
   | None => ret tt
   | Some f =>
       set (setIsLoading true) ;;
       set (setError None) ;;
       set (setAnalysis "") ;;
       set (setRemedyLetter "") ;;
       tryCatchFinally
         (filePart <- fileToGenerativePart f ;;
          response <- generateContent
            (mkRequest "gemini-2.5-pro" [Text analyzePrompt; filePart]) ;;
          set (setAnalysis response))
         (set (setError (Some analyzeFailedMessage)))
         (set (setIsLoading false))
   end)%handler.

Definition remedyPrompt : string :=
  "Based on the following contract analysis, draft a formal "
  ++ JS.dquote ++ "Notice and Opportunity to Cure" ++ JS.dquote ++
  " letter to the financing company. The letter should be structured professionally and legally, referencing the potential TILA violations and other issues identified. It must clearly state the desired remedy (e.g., contract rescission, fee removal, correction of disclosures). Use placeholders like [Your Name] and [Date], but draft a complete, ready-to-use letter.".

Definition newline : string := String (ascii_of_nat 10) EmptyString.

Definition remedyFailedMessage : string :=
  "Failed to generate the remedy letter. Please try again.".

Definition handleGenerateRemedy (s : State) : Handler State unit :=
  (if negb (JS.truthy (analysis s)) then ret tt
   else
     set (setIsGenerating true) ;;
     set (setError None) ;;
     tryCatchFinally
       (let analysisPart :=
          Text ("CONTRACT ANALYSIS:" ++ newline ++ "---" ++ newline
                ++ analysis s) in
        response <- generateContent
          (mkRequest "gemini-2.5-pro" [Text remedyPrompt; analysisPart]) ;;
        set (setRemedyLetter response))
       (set (setError (Some remedyFailedMessage)))
       (set (setIsGenerating false)))%handler.

(** [disabled={!file || isLoading}] on "Analyze Contract". *)
Definition analyzeDisabled (s : State) : bool :=
  negb (match file s with Some _ => true | None => false end)
  || isLoading s.

Definition clickAnalyze (s : State) : Handler State unit :=
  if analyzeDisabled s then ret tt else handleAnalyze s.

(** "Generate Remedy Letter" is rendered inside [{analysis && ...}] with
    [disabled={isGenerating}]. *)
Definition remedyRendered (s : State) : bool := JS.truthy (analysis s).
Definition remedyDisabled (s : State) : bool := isGenerating s.

Definition clickGenerateRemedy (s : State) : Handler State unit :=
  if negb (remedyRendered s) || remedyDisabled s then ret tt
  else handleGenerateRemedy s.

End VehicleFinancingAnalysis.

(* ===================================================================== *)
(** ** DebtCollectorLog *)
(* ===================================================================== *)

Module DebtCollectorLog.

Record LogEntry := mkLogEntry {
  id : Z;
  date : string;
  collectorName : string;
  company : string;
  description : string;
  violationSuggestion : string
}.

(** The draft held in [newLog]. *)
Record Draft := mkDraft {
  draftDate : string;
  draftCollectorName : string;
  draftCompany : string;
  draftDescription : string
}.

Definition emptyDraft : Draft := mkDraft "" "" "" "".

Record State := mkState {
  logs : list LogEntry;
  newLog : Draft;
  suggestion : string;          (* the slot [violationSuggestion] *)
  isSuggesting : bool;
  ceaseAndDesist : string;
  isGenerating : bool;
  error : option string
}.

Definition setLogs (f : list LogEntry -> list LogEntry) (s : State) :=
  mkState (f (logs s)) (newLog s) (suggestion s) (isSuggesting s)
          (ceaseAndDesist s) (isGenerating s) (error s).
Definition setNewLog (f : Draft -> Draft) (s : State) :=
  mkState (logs s) (f (newLog s)) (suggestion s) (isSuggesting s)
          (ceaseAndDesist s) (isGenerating s) (error s).
Definition setViolationSuggestion (v : string) (s : State) :=
  mkState (logs s) (newLog s) v (isSuggesting s)
          (ceaseAndDesist s) (isGenerating s) (error s).
Definition setIsSuggesting (v : bool) (s : State) :=
  mkState (logs s) (newLog s) (suggestion s) v
          (ceaseAndDesist s) (isGenerating s) (error s).
Definition setCeaseAndDesist (v : string) (s : State) :=
  mkState (logs s) (newLog s) (suggestion s) (isSuggesting s)
          v (isGenerating s) (error s).
Definition setIsGenerating (v : bool) (s : State) :=
  mkState (logs s) (newLog s) (suggestion s) (isSuggesting s)
          (ceaseAndDesist s) v (error s).
Definition setError (v : option string) (s : State) :=
  mkState (logs s) (newLog s) (suggestion s) (isSuggesting s)
          (ceaseAndDesist s) (isGenerating s) v.

Definition initialState : State :=
  mkState [] emptyDraft "" false "" false None.

(** [setNewLog(prev => ({ ...prev, [name]: value }))], [name] being the
    [name] attribute of one of the four inputs. *)
Definition handleInputChange (name value : string) (s : State) : State :=
  setNewLog
    (fun prev =>
       if String.eqb name "date" then
         mkDraft value (draftCollectorName prev) (draftCompany prev)
                 (draftDescription prev)
       else if String.eqb name "collectorName" then
         mkDraft (draftDate prev) value (draftCompany prev)
                 (draftDescription prev)
       else if String.eqb name "company" then
         mkDraft (draftDate prev) (draftCollectorName prev) value
                 (draftDescription prev)
       else if String.eqb name "description" then
         mkDraft (draftDate prev) (draftCollectorName prev)
                 (draftCompany prev) value
       else prev)
    s.

Definition newline : string := String (ascii_of_nat 10) EmptyString.

Definition suggestPrompt (description : string) : string :=
  "Based on the following description of an interaction with a debt collector, identify potential violations of the Fair Debt Collection Practices Act (FDCPA). List the specific violations and briefly explain why they might apply."
  ++ newline ++ "Description: " ++ JS.dquote ++ description ++ JS.dquote.

Definition suggestFailedMessage : string :=
  "Could not get AI suggestion. Please try again.".

Definition handleSuggestViolation (s : State) : Handler State unit :=
  (if negb (JS.truthy (draftDescription (newLog s))) then ret tt
   else
     set (setIsSuggesting true) ;;
     set (setError None) ;;
     set (setViolationSuggestion "") ;;
     tryCatchFinally
       (response <- generateContent
          (mkRequest "gemini-2.5-flash"
             [Text (suggestPrompt (draftDescription (newLog s)))]) ;;
        set (setViolationSuggestion response))
       (set (setError (Some suggestFailedMessage)))
       (set (setIsSuggesting false)))%handler.

(** [now] is the value of [Date.now()]. *)
Definition handleAddLog (now : Z) (s : State) : State :=
  let newEntry :=
    mkLogEntry now (draftDate (newLog s)) (draftCollectorName (newLog s))
               (draftCompany (newLog s)) (draftDescription (newLog s))
               (suggestion s) in
  setViolationSuggestion ""
    (setNewLog (fun _ => emptyDraft)
       (setLogs (fun prev => prev ++ [newEntry]) s)).

Definition logLine (log : LogEntry) : string :=
  "On " ++ date log ++ ", an agent named " ++ collectorName log
  ++ " from " ++ company log ++ " did the following: " ++ description log
  ++ ". Potential FDCPA violations noted: "
  ++ JS.orElse (violationSuggestion log) "N/A".

Definition ceaseAndDesistPrompt (ls : list LogEntry) : string :=
  let logSummary := JS.join (newline ++ newline) (map logLine ls) in
  "Based on the following log of interactions, draft a formal, firm, and legally sound "
  ++ JS.dquote ++ "Cease and Desist" ++ JS.dquote ++
  " letter. The letter must demand that the collection agency immediately cease all communications. It should reference the pattern of behavior documented in the logs as the basis for the demand. Use placeholders like [Your Name] and [Your Address], but draft a complete, ready-to-use letter."
  ++ newline ++ "Log Summary:" ++ newline ++ "---" ++ newline
  ++ logSummary.

Definition ceaseAndDesistFailedMessage : string :=
  "Failed to generate Cease & Desist letter.".

Definition handleGenerateCeaseAndDesist (s : State) : Handler State unit :=
  (if (List.length (logs s) =? 0)%nat then ret tt
   else
     set (setIsGenerating true) ;;
     set (setError None) ;;
     tryCatchFinally
       (response <- generateContent
          (mkRequest "gemini-2.5-pro"
             [Text (ceaseAndDesistPrompt (logs s))]) ;;
        set (setCeaseAndDesist response))
       (set (setError (Some ceaseAndDesistFailedMessage)))
       (set (setIsGenerating false)))%handler.

(** *** The rendered page *)

(** Constraint validation of the log form: its four controls carry the
    [required] attribute, and a form that is not valid fires no
    [submit] event. *)
Definition formValid (d : Draft) : bool :=
  JS.truthy (draftDate d) && JS.truthy (draftCollectorName d)
  && JS.truthy (draftCompany d) && JS.truthy (draftDescription d).

(** The user presses "Add to Log" at time [now]. *)
Definition submitLogForm (now : Z) (s : State) : State :=
  if formValid (newLog s) then handleAddLog now s else s.

(** One card of "Interaction History". *)
Record Card := mkCard {
  key : Z;
  heading : string;
  body : string;
  aiSuggestion : option string
}.

Definition renderLog (log : LogEntry) : Card :=
  mkCard (id log)
         (date log ++ " - " ++ company log ++ " (" ++ collectorName log
          ++ ")")
         (description log)
         (if JS.truthy (violationSuggestion log)
          then Some (violationSuggestion log) else None).

(** "Interaction History": [logs.map(...).reverse()], or a placeholder. *)
Inductive History :=
| NoInteractions
| Cards (cards : list Card).

Definition renderHistory (s : State) : History :=
  if (0 <? List.length (logs s))%nat
  then Cards (rev (map renderLog (logs s)))
  else NoInteractions.

(** [disabled={isSuggesting || !newLog.description}]. *)
Definition suggestDisabled (s : State) : bool :=
  isSuggesting s || negb (JS.truthy (draftDescription (newLog s))).

Definition clickSuggestViolation (s : State) : Handler State unit :=
  if suggestDisabled s then ret tt else handleSuggestViolation s.

(** The letter button is rendered inside [{logs.length > 0 && ...}] with
    [disabled={isGenerating}]. *)
Definition letterRendered (s : State) : bool :=
  (0 <? List.length (logs s))%nat.
Definition letterDisabled (s : State) : bool := isGenerating s.

Definition clickGenerateCeaseAndDesist (s : State) : Handler State unit :=
  if negb (letterRendered s) || letterDisabled s then ret tt
  else handleGenerateCeaseAndDesist s.

End DebtCollectorLog.

(* ===================================================================== *)
(** ** LegalResources *)
(* ===================================================================== *)

Module LegalResources.

Record Resource := mkResource {
  name : string;
  url : string;
  category : string
}.

Definition initialResources : list Resource :=
  [ mkResource "UCC Article 3 - Negotiable Instruments"
               "https://www.law.cornell.edu/ucc/3" "UCC";
    mkResource "UCC Article 9 - Secured Transactions"
               "https://www.law.cornell.edu/ucc/9" "UCC";
    mkResource "Fair Credit Reporting Act (FCRA) - FTC"
               "https://www.ftc.gov/legal-library/browse/statutes/fair-credit-reporting-act"
               "Statutes";
    mkResource "Fair Debt Collection Practices Act (FDCPA) - FTC"
               "https://www.ftc.gov/legal-library/browse/statutes/fair-debt-collection-practices-act"
               "Statutes";
    mkResource "Truth in Lending Act (TILA) - CFPB"
               "https://www.consumerfinance.gov/rules-policy/regulations/1026/"
               "Statutes";
    mkResource "Black's Law Dictionary 4th Edition"
               "https://archive.org/details/blackslawdiction00blac"
               "Reference" ].

Record State := mkState {
  resources : list Resource;
  searchTerm : string;
  newResource : Resource
}.

Definition emptyResource : Resource := mkResource "" "" "".

Definition initialState : State :=
  mkState initialResources "" emptyResource.

Definition handleAddResource (s : State) : State :=
  let r := newResource s in
  if JS.truthy (name r) && JS.truthy (url r) && JS.truthy (category r)
  then mkState (resources s ++ [r]) (searchTerm s) emptyResource
  else s.

Definition handleNewResourceChange (field value : string) (s : State)
  : State :=
  let prev := newResource s in
  mkState (resources s) (searchTerm s)
    (if String.eqb field "name" then
       mkResource value (url prev) (category prev)
     else if String.eqb field "url" then
       mkResource (name prev) value (category prev)
     else if String.eqb field "category" then
       mkResource (name prev) (url prev) value
     else prev).

Definition setSearchTerm (v : string) (s : State) : State :=
  mkState (resources s) v (newResource s).

Section Search.
(** [String.prototype.toLowerCase], as the engine computes it. *)
Variable toLowerCase : string -> string.

(** The predicate of [resources.filter(...)]. *)
Definition matchesSearch (searchTerm : string) (resource : Resource)
  : bool :=
  JS.includes (toLowerCase (name resource)) (toLowerCase searchTerm)
  || JS.includes (toLowerCase (url resource)) (toLowerCase searchTerm)
  || JS.includes (toLowerCase (category resource)) (toLowerCase searchTerm).

Definition filteredResources (rs : list Resource) (searchTerm : string)
  : list Resource :=
  filter (matchesSearch searchTerm) rs.
End Search.

(** *** The accumulator object of [reduce]

    [acc] starts as [{}]: an ordinary object.  Its own properties are
    kept in creation order; a property it does not own is looked up on
    [Object.prototype]. *)

Definition Obj := list (string * list Resource).

(** The property names of [Object.prototype]. *)
Definition objectPrototypeKeys : list string :=
  [ "constructor"; "__defineGetter__"; "__defineSetter__";
    "hasOwnProperty"; "__lookupGetter__"; "__lookupSetter__";
    "isPrototypeOf"; "propertyIsEnumerable"; "toString"; "valueOf";
    "__proto__"; "toLocaleString" ].

Fixpoint hasOwn (k : string) (o : Obj) : bool :=
  match o with
  | [] => false
  | (k', _) :: rest => String.eqb k' k || hasOwn k rest
  end.

(** [o[k].push(r)] for an own property [k] holding an array. *)
Fixpoint pushOwn (k : string) (r : Resource) (o : Obj) : Obj :=
  match o with
  | [] => []
  | (k', items) :: rest =>
      if String.eqb k' k then (k', items ++ [r]) :: rest
      else (k', items) :: pushOwn k r rest
  end.

(** The heading a resource is filed under. *)
Definition categoryLabel (resource : Resource) : string :=
  JS.orElse (JS.trim (category resource)) "Uncategorized".

(** [(acc[category] = acc[category] || []).push(resource)].
    An own property is an array, and the resource is pushed onto it.
    Otherwise [acc[category]] is read from [Object.prototype]: for one of
    its property names the value is a function or an object, truthy and
    without [push], so the call throws a [TypeError]; for any other name
    it is [undefined] and a fresh array is stored. *)
Definition groupStep (acc : Obj) (resource : Resource) : Res Obj :=
  let category := categoryLabel resource in
  if hasOwn category acc then Ok (pushOwn category resource acc)
  else if JS.arrayIncludes objectPrototypeKeys category then Thrown
  else Ok (acc ++ [(category, [resource])]).

Fixpoint reduce (rs : list Resource) (acc : Obj) : Res Obj :=
  match rs with
  | [] => Ok acc
  | r :: rest =>
      match groupStep acc r with
      | Ok acc' => reduce rest acc'
      | Thrown => Thrown
      end
  end.

Definition groupedResources (filtered : list Resource) : Res Obj :=
  reduce filtered [].

(** *** [Object.entries] and [Array.prototype.sort] *)

Fixpoint digitsValue (acc : N) (s : string) : option N :=
  match s with
  | EmptyString => Some acc
  | String c r =>
      if JS.isDigit c
      then digitsValue (10 * acc + (N_of_ascii c - 48))%N r
      else None
  end.

(** A property name that is an array index: the canonical decimal form
    of an integer below 2^32 - 1. *)
Definition arrayIndex (k : string) : option N :=
  match k with
  | EmptyString => None
  | String c r =>
      if Ascii.eqb c "0" && JS.truthy r then None
      else match digitsValue 0 k with
           | Some n => if (n <=? 4294967294)%N then Some n else None
           | None => None
           end
  end.

Section Sorting.
Variable A : Type.
Variable le : A -> A -> bool.

Fixpoint insert (x : A) (l : list A) : list A :=
  match l with
  | [] => [x]
  | y :: l' => if le x y then x :: l else y :: insert x l'
  end.

(** A stable sort, as [Array.prototype.sort] is. *)
Definition stableSort (l : list A) : list A := fold_right insert [] l.
End Sorting.
Arguments insert {A}.
Arguments stableSort {A}.

Definition isIndexKey (e : string * list Resource) : bool :=
  match arrayIndex (fst e) with Some _ => true | None => false end.

Definition indexLe (a b : string * list Resource) : bool :=
  match arrayIndex (fst a), arrayIndex (fst b) with
  | Some m, Some n => (m <=? n)%N
  | _, _ => true
  end.

(** [Object.entries(o)]: array-index keys in ascending numeric order,
    then the other keys in creation order. *)
Definition entries (o : Obj) : list (string * list Resource) :=
  stableSort indexLe (filter isIndexKey o)
  ++ filter (fun e => negb (isIndexKey e)) o.

(** What the list area shows. *)
Inductive View :=
| EmptyState                  (* "No resources found matching your search." *)
| Groups (sections : list (string * list Resource)).

Section Render.
Variable toLowerCase : string -> string.
(** [catA.localeCompare(catB)]: negative, zero or positive. *)
Variable localeCompare : string -> string -> Z.

Definition compareEntries (a b : string * list Resource) : bool :=
  (localeCompare (fst a) (fst b) <=? 0)%Z.

Definition renderGroups (grouped : Obj) : View :=
  if (0 <? List.length (map fst (entries grouped)))%nat
  then Groups (stableSort compareEntries (entries grouped))
  else EmptyState.

(** The list area for a resource list and a search term; [Thrown] when
    rendering throws. *)
Definition render (rs : list Resource) (searchTerm : string)
  : Res View :=
  match groupedResources (filteredResources toLowerCase rs searchTerm) with
  | Ok grouped => Ok (renderGroups grouped)
  | Thrown => Thrown
  end.
End Render.

End LegalResources.

(* ===================================================================== *)
(** ** EndorsementModal (the citation modal) *)
(* ===================================================================== *)

Module EndorsementModal.

Record ExplanationState := mkExplanation {
  section : string;
  text : string;
  isLoading : bool
}.

(** The slot [explanation]: [null] or an [ExplanationState]. *)
Definition State := option ExplanationState.

Definition setExplanation (v : State) (_ : State) : State := v.

Definition explainPrompt (section : string) : string :=
  "In simple, clear terms for a layperson, explain the key points and implications of UCC "
  ++ JS.sectionSign ++ section ++
  ". Focus on its relevance to an individual managing their own financial instruments.".

Definition explainFailedText : string := "Failed to load explanation.".

(** [explanation?.section === section && explanation.text]. *)
Definition sameSectionWithText (explanation : State) (sec : string)
  : bool :=
  match explanation with
  | Some e => String.eqb (section e) sec && JS.truthy (text e)
  | None => false
  end.

Definition handleExplainSection (explanation : State) (sec : string)
  : Handler State unit :=
  (if sameSectionWithText explanation sec then
     set (setExplanation None)
   else
     set (setExplanation (Some (mkExplanation sec "" true))) ;;
     tryCatch
       (response <- generateContent
          (mkRequest "gemini-2.5-flash" [Text (explainPrompt sec)]) ;;
        set (setExplanation (Some (mkExplanation sec response false))))
       (set (setExplanation
               (Some (mkExplanation sec explainFailedText false)))))%handler.

(** *** The citation pattern *)

(** One position of the pattern: a literal character or [\d]. *)
Inductive Atom :=
| Lit (c : ascii)
| Digit.

Definition atomMatches (a : Atom) (c : ascii) : bool :=
  match a with
  | Lit l => Ascii.eqb l c
  | Digit => JS.isDigit c
  end.

(** Match the atoms at the start of [s]: the matched text and the rest. *)
Fixpoint matchAtoms (p : list Atom) (s : string)
  : option (string * string) :=
  match p with
  | [] => Some (EmptyString, s)
  | a :: p' =>
      match s with
      | EmptyString => None
      | String c r =>
          if atomMatches a c then
            match matchAtoms p' r with
            | Some (m, rest) => Some (String c m, rest)
            | None => None
            end
          else None
      end
  end.

Definition literal (s : string) : list Atom :=
  map Lit (list_ascii_of_string s).

(** [\[UCC §] *)
Definition openPattern : list Atom := literal ("[UCC " ++ JS.sectionSign).
(** [\d-\d{3}] *)
Definition sectionPattern : list Atom :=
  [Digit; Lit "-"; Digit; Digit; Digit].
(** [\]] *)
Definition closePattern : list Atom := [Lit "]"].

Definition citationPattern : list Atom :=
  openPattern ++ sectionPattern ++ closePattern.

(** [/(\[UCC §\d-\d{3}\])/] tried at the start of [s]: the token (the
    capture) and what follows it. *)
Definition matchCitation (s : string) : option (string * string) :=
  matchAtoms citationPattern s.

Definition inspect {A} (a : A) : {b : A | a = b} := exist _ a eq_refl.

(** [text.split(regex)] from a position on: [seg] is the text since the
    last match, [s] the text still to scan. *)
Equations? splitFrom (seg : string) (s : string) : list string
  by wf (String.length s) lt :=
  splitFrom seg EmptyString := [seg];
  splitFrom seg (String c r)
    with inspect (matchCitation (String c r)) := {
    | exist _ (Some (token, rest)) _ => seg :: token :: splitFrom "" rest
    | exist _ None _ => splitFrom (seg ++ String c EmptyString) r }.
Proof.
  assert (G : forall p s m t, matchAtoms p s = Some (m, t) ->
                String.length s = (List.length p + String.length t)%nat).
    { induction p as [|a p IH]; intros s m t H; simpl in H.
      - inversion H; reflexivity.
      - destruct s as [|c' s']; [discriminate|].
        destruct (atomMatches a c'); [|discriminate].
        destruct (matchAtoms p s') as [[m' t']|] eqn:E; [|discriminate].
        inversion H; subst. simpl. f_equal. apply (IH _ _ _ E). }
    unfold matchCitation in e. apply G in e. simpl in e. simpl. lia.
Defined.

(** [text.split(/(\[UCC §\d-\d{3}\])/g)]. *)
Definition split (text : string) : list string := splitFrom "" text.

(** [/\[UCC §(\d-\d{3})\]/] tried at the start of [s]: the capture. *)
Definition matchSectionAt (s : string) : option string :=
  match matchAtoms openPattern s with
  | Some (_, r1) =>
      match matchAtoms sectionPattern r1 with
      | Some (sec, r2) =>
          match matchAtoms closePattern r2 with
          | Some _ => Some sec
          | None => None
          end
      | None => None
      end
  | None => None
  end.

(** [part.match(/\[UCC §(\d-\d{3})\]/)]: the capture of the leftmost
    match. *)
Fixpoint matchSection (part : string) : option string :=
  match matchSectionAt part with
  | Some sec => Some sec
  | None =>
      match part with
      | EmptyString => None
      | String _ r => matchSection r
      end
  end.

(** *** Rendering *)

Inductive ExplanationBox :=
| SmallLoadingSpinner
| ExplanationText (t : string).

Inductive Node :=
| Span (part : string)
| CitationLink (href linkText sec : string) (box : option ExplanationBox).

Definition explanationBox (explanation : State) (sec : string)
  : option ExplanationBox :=
  match explanation with
  | Some e =>
      if String.eqb (section e) sec then
        Some (if isLoading e then SmallLoadingSpinner
              else ExplanationText (text e))
      else None
  | None => None
  end.

Definition renderPart (explanation : State) (part : string) : Node :=
  match matchSection part with
  | Some sec =>
      let article := nth 0 (JS.splitChar "-" sec) EmptyString in
      let url :=
        ("https://www.law.cornell.edu/ucc/" ++ article ++ "/" ++ sec)%string
      in
      CitationLink url ("UCC " ++ JS.sectionSign ++ sec) sec
                   (explanationBox explanation sec)
  | None => Span part
  end.

(** [None] is the [null] returned for an empty text. *)
Definition renderContentWithLinks (explanation : State) (text : string)
  : option (list Node) :=
  if negb (JS.truthy text) then None
  else Some (map (renderPart explanation) (split text)).

End EndorsementModal.

(* ===================================================================== *)
(** ** FinanceCockpit (the tab container) *)
(* ===================================================================== *)

Module FinanceCockpit.

(** The union type [Tab]. *)
Inductive Tab :=
| InstrumentAnalysis
| CreditDispute
| VehicleFinancing
| DebtCollectorLog
| LegalResources.

(** The string literal of each member of the union. *)
Definition label (tab : Tab) : string :=
  match tab with
  | InstrumentAnalysis => "Instrument Analysis"
  | CreditDispute => "Credit Dispute"
  | VehicleFinancing => "Vehicle Financing"
  | DebtCollectorLog => "Debt Collector Log"
  | LegalResources => "Legal Resources"
  end.

Definition tabs : list Tab :=
  [InstrumentAnalysis; CreditDispute; VehicleFinancing; DebtCollectorLog;
   LegalResources].

(** [useState<Tab>('Instrument Analysis')]. *)
Definition initialTab : Tab := InstrumentAnalysis.

(** [activeTab === tab]: comparison of the two string literals. *)
Definition isActive (activeTab tab : Tab) : bool :=
  String.eqb (label activeTab) (label tab).

(** The screens the container can mount. *)
Inductive Screen :=
| InstrumentProcessorScreen
| CreditDisputeScreen
| VehicleFinancingAnalysisScreen
| DebtCollectorLogScreen
| LegalResourcesScreen.

(** [renderContent]: [None] is the [null] of the [default] branch. *)
Definition renderContent (activeTab : Tab) : option Screen :=
  match activeTab with
  | InstrumentAnalysis => Some InstrumentProcessorScreen
  | CreditDispute => Some CreditDisputeScreen
  | VehicleFinancing => Some VehicleFinancingAnalysisScreen
  | DebtCollectorLog => Some DebtCollectorLogScreen
  | LegalResources => Some LegalResourcesScreen
  end.

(** One button of the tab bar: its [key] and text, whether it carries
    [aria-current="page"], and the tab its [onClick] makes active. *)
Record TabButton := mkTabButton {
  key : string;
  ariaCurrent : bool;
  onClick : Tab
}.

Definition renderTabs (activeTab : Tab) : list TabButton :=
  map (fun tab => mkTabButton (label tab) (isActive activeTab tab) tab) tabs.

End FinanceCockpit.

(* ===================================================================== *)
(** ** The two versions of the modal *)
(* ===================================================================== *)

Module ModalView.

Inductive Body :=
| LoadingSpinner
| Paragraph (content : string)
| Linked (nodes : option (list EndorsementModal.Node)).

Record Dialog := mkDialog {
  title : string;
  body : Body
}.

(** src/components/EndorsementModal.tsx: the content as one paragraph. *)
Definition renderPlain (isOpen : bool) (title content : string)
           (isLoading : bool) : option Dialog :=
  if negb isOpen then None
  else Some (mkDialog title
               (if isLoading then LoadingSpinner else Paragraph content)).

(** The modal with citation links: the content through
    [renderContentWithLinks]. *)
Definition renderLinked (explanation : EndorsementModal.State)
           (isOpen : bool) (title content : string) (isLoading : bool)
  : option Dialog :=
  if negb isOpen then None
  else Some (mkDialog title
               (if isLoading then LoadingSpinner
                else Linked (EndorsementModal.renderContentWithLinks
                               explanation content))).

End ModalView.

(* ===================================================================== *)
(** * Vocabulary of the specification *)
(* ===================================================================== *)

(** ** Text *)

(** Every byte of [s] passes the test [p]. *)
Fixpoint allChars (p : ascii -> bool) (s : string) : bool :=
  match s with
  | EmptyString => true
  | String c r => p c && allChars p r
  end.

(** Text in the ASCII range: every code point is below 128, so every
    byte is. *)
Definition isAscii (s : string) : bool :=
  allChars (fun c => (nat_of_ascii c <? 128)%nat) s.

Definition asciiLowerChar (c : ascii) : ascii :=
  let n := nat_of_ascii c in
  if (65 <=? n)%nat && (n <=? 90)%nat then ascii_of_nat (n + 32) else c.

(** The letters A to Z replaced by a to z, every other byte kept. *)
Fixpoint asciiLowerCase (s : string) : string :=
  match s with
  | EmptyString => EmptyString
  | String c r => String (asciiLowerChar c) (asciiLowerCase r)
  end.

(** What every engine's [toLowerCase] does to text in the ASCII range.
    Nothing is assumed of it on other text, where the result depends on
    the Unicode tables and on the context of a letter. *)
Definition LowerCasesAscii (toLowerCase : string -> string) : Prop :=
  forall s, isAscii s = true -> toLowerCase s = asciiLowerCase s.

(** Text made of white space and line terminators only. *)
Inductive WhiteSpaceOnly : string -> Prop :=
| blank_none : WhiteSpaceOnly ""
| blank_more w s :
    In w JS.whiteSpace -> WhiteSpaceOnly s -> WhiteSpaceOnly (w ++ s).

(** The non-empty strings left of [s] when one to all but one of its
    first bytes are taken off. *)
Fixpoint properTails (s : string) : list string :=
  match s with
  | EmptyString => []
  | String _ r => if JS.truthy r then r :: properTails r else []
  end.

(** Neither string starts with the other. *)
Definition apart (z w : string) : bool :=
  match JS.stripPrefix z w, JS.stripPrefix w z with
  | None, None => true
  | _, _ => false
  end.

(** No line terminator occurs in [s]. *)
Definition noLineTerminator (s : string) : bool :=
  forallb (fun t => negb (JS.includes s t)) JS.lineTerminators.

(** ** File ingestion *)

(** The MIME types an upload control accepts. *)
Definition mimeAllowList : list string :=
  ["application/pdf"; "image/jpeg"; "image/png"].

(** ** The request/response lifecycle of an action slot *)

Section Lifecycle.

Context {St : Type}.

(** The state bucket of one action: loading flag, error, result. *)
Record ActionSlot := mkSlot {
  loadingFlag : St -> bool;
  errorSlot : St -> option string;
  resultSlot : St -> string
}.

Definition before (e : Event St) : St :=
  match e with
  | FileRead b _ => b
  | Sent b _ => b
  end.

(** When the handler first suspends -- no later than the moment the
    request leaves -- the loading flag is up, the error is cleared and the
    result slot holds [result]. *)
Definition prepared (slot : ActionSlot) (result : string)
           (r : Res unit * St * list (Event St)) : Prop :=
  exists e rest,
    events r = e :: rest
    /\ loadingFlag slot (before e) = true
    /\ errorSlot slot (before e) = None
    /\ resultSlot slot (before e) = result.

(** The request was rejected or could not be sent: one of [messages] is
    in the error slot, and the handler has not written the result slot.
    What the handler has not written is as the other handlers left it; in
    an environment where they do nothing it is still [result]. *)
Definition failed (slot : ActionSlot) (result : string)
           (messages : list string)
           (env : Env St) (r : Res unit * St * list (Event St)) : Prop :=
  (exists m, In m messages /\ errorSlot slot (finalState r) = Some m)
  /\ (quiet env -> resultSlot slot (finalState r) = result).

(** When the handler has completed the loading flag is down and at most
    one request was sent.  If it resolved, its text is in the result slot
    and the handler has set no error.  Otherwise the handler has [failed]:
    the result slot keeps [result], the value it had when the handler
    first suspended. *)
Definition settled (slot : ActionSlot) (result : string)
           (messages : list string)
           (env : Env St) (r : Res unit * St * list (Event St)) : Prop :=
  loadingFlag slot (finalState r) = false
  /\ match requests (events r) with
     | [] => failed slot result messages env r
     | [req] =>
         match generate env req with
         | Resolved text =>
             resultSlot slot (finalState r) = text
             /\ (quiet env -> errorSlot slot (finalState r) = None)
         | Rejected => failed slot result messages env r
         end
     | _ => False
     end.

Definition lifecycle (slot : ActionSlot) (result : string)
           (messages : list string) (h : Handler St unit)
           (env : Env St) (s : St) : Prop :=
  prepared slot result (run h env s)
  /\ settled slot result messages env (run h env s).

End Lifecycle.

Arguments ActionSlot : clear implicits.

Definition instrumentSlot : ActionSlot InstrumentProcessor.State :=
  mkSlot InstrumentProcessor.isLoading InstrumentProcessor.error
         InstrumentProcessor.analysis.

Definition contractSlot : ActionSlot VehicleFinancingAnalysis.State :=
  mkSlot VehicleFinancingAnalysis.isLoading VehicleFinancingAnalysis.error
         VehicleFinancingAnalysis.analysis.

Definition remedySlot : ActionSlot VehicleFinancingAnalysis.State :=
  mkSlot VehicleFinancingAnalysis.isGenerating VehicleFinancingAnalysis.error
         VehicleFinancingAnalysis.remedyLetter.

Definition suggestSlot : ActionSlot DebtCollectorLog.State :=
  mkSlot DebtCollectorLog.isSuggesting DebtCollectorLog.error
         DebtCollectorLog.suggestion.

Definition letterSlot : ActionSlot DebtCollectorLog.State :=
  mkSlot DebtCollectorLog.isGenerating DebtCollectorLog.error
         DebtCollectorLog.ceaseAndDesist.

(** ** The explanation toggle *)

(** The slot holds a non-empty explanation text for the citation [sec]. *)
Definition HoldsTextFor (explanation : EndorsementModal.State)
           (sec : string) : Prop :=
  exists t l,
    explanation = Some (EndorsementModal.mkExplanation sec t l) /\ t <> "".

(** The request for an explanation of the citation [sec]. *)
Definition explainRequest (sec : string) : Request :=
  mkRequest "gemini-2.5-flash" [Text (EndorsementModal.explainPrompt sec)].

(** The slot while the request for [sec] is in flight. *)
Definition explaining (sec : string) : EndorsementModal.State :=
  Some (EndorsementModal.mkExplanation sec "" true).

(** Two clicks on "Explain with AI" of the citation [sec], the component
    being re-rendered in between and nothing else being clicked: the slot
    afterwards and the requests sent. *)
Definition explainTwice (env : Env EndorsementModal.State)
           (explanation : EndorsementModal.State) (sec : string)
  : EndorsementModal.State * list Request :=
  let r1 := run (EndorsementModal.handleExplainSection explanation sec)
                env explanation in
  let shown := finalState r1 in
  let r2 := run (EndorsementModal.handleExplainSection shown sec)
                env shown in
  (finalState r2, requests (events r1) ++ requests (events r2)).

(** The text put under the citation once the request has settled. *)
Definition explanationShown (env : Env EndorsementModal.State)
           (sec : string) : string :=
  match generate env (explainRequest sec) with
  | Resolved text => text
  | Rejected => EndorsementModal.explainFailedText
  end.

(** ** Citation extraction *)

(** A citation token: a bracketed UCC article-and-section reference,
    "[UCC §a-bcd]" with [a], [b], [c], [d] decimal digits. *)
Definition CitationToken (tok : string) : Prop :=
  exists a b c d : ascii,
    JS.isDigit a = true /\ JS.isDigit b = true
    /\ JS.isDigit c = true /\ JS.isDigit d = true
    /\ tok = ("[UCC " ++ JS.sectionSign
              ++ String a (String "-" (String b (String c (String d "]")))))%string.

(** A plain segment: no citation token occurs in it. *)
Definition Plain (seg : string) : Prop :=
  forall pre tok post,
    CitationToken tok -> seg <> (pre ++ tok ++ post)%string.

(** Plain segments and citation tokens in turn, a plain segment first and
    last. *)
Inductive Alternating : list string -> Prop :=
| alt_last seg : Plain seg -> Alternating [seg]
| alt_more seg tok rest :
    Plain seg -> CitationToken tok -> Alternating rest ->
    Alternating (seg :: tok :: rest).

(** No citation starts inside [seg] when [seg] is followed by [s]. *)
Definition NoneStartsIn (seg s : string) : Prop :=
  forall pre suf,
    seg = (pre ++ suf)%string -> suf <> "" ->
    EndorsementModal.matchCitation (suf ++ s) = None.

(** What a part is rendered as: a plain segment as a [span] with the same
    text, a citation token as a link built from its section. *)
Definition RendersAs (explanation : EndorsementModal.State)
           (part : string) (node : EndorsementModal.Node) : Prop :=
  (Plain part /\ node = EndorsementModal.Span part)
  \/ (exists a b c d : ascii,
        let sec := String a (String "-" (String b (String c (String d ""))))
        in
        part = ("[UCC " ++ JS.sectionSign ++ sec ++ "]")%string
        /\ node = EndorsementModal.CitationLink
                    ("https://www.law.cornell.edu/ucc/" ++ String a "/"
                     ++ sec)
                    ("UCC " ++ JS.sectionSign ++ sec) sec
                    (EndorsementModal.explanationBox explanation sec)).

(** ** The resource catalogue *)

(** [q] is a case-insensitive substring of [s]: some stretch of [s] equals
    [q] up to the case of the letters A to Z. *)
Definition CaseInsensitiveSubstring (q s : string) : Prop :=
  exists pre mid post,
    s = (pre ++ mid ++ post)%string
    /\ asciiLowerCase mid = asciiLowerCase q.

(** A resource whose three fields are in the ASCII range. *)
Definition asciiResource (r : LegalResources.Resource) : bool :=
  isAscii (LegalResources.name r) && isAscii (LegalResources.url r)
  && isAscii (LegalResources.category r).

(** The array stored under the own property [k], if any. *)
Fixpoint lookup (k : string) (o : LegalResources.Obj)
  : option (list LegalResources.Resource) :=
  match o with
  | [] => None
  | (k', items) :: rest => if String.eqb k' k then Some items else lookup k rest
  end.

(** The resources of [rs] filed under the heading [k], in order. *)
Definition membersOf (k : string) (rs : list LegalResources.Resource)
  : list LegalResources.Resource :=
  filter (fun r => String.eqb (LegalResources.categoryLabel r) k) rs.

(** A heading that collides with a property of [Object.prototype]. *)
Definition inheritedName (k : string) : Prop :=
  In k LegalResources.objectPrototypeKeys.

(** Two sections in collation order of their headings. *)
Definition inOrder (localeCompare : string -> string -> Z)
           (a b : string * list LegalResources.Resource) : Prop :=
  (localeCompare (fst a) (fst b) <= 0)%Z.

(** ** Sample screens and services *)

Definition textFile : File := mkFile "notes.txt" "text/plain".

(** A vehicle screen that shows an analysis and a letter drafted earlier. *)
Definition screenWithLetter : VehicleFinancingAnalysis.State :=
  VehicleFinancingAnalysis.mkState None "The finance charge is not disclosed."
    false None "Dear lender, please cure the defects listed below." false.

Definition failingService : Env VehicleFinancingAnalysis.State :=
  mkEnv (fun _ => Rejected) (fun _ => ReadError) (fun s => s).

(** A vehicle screen whose analysis request is in flight. *)
Definition contractFile : File := mkFile "contract.pdf" "application/pdf".

Definition analysisInFlight : VehicleFinancingAnalysis.State :=
  VehicleFinancingAnalysis.mkState (Some contractFile) "" true None "" false.

Definition workingService : Env VehicleFinancingAnalysis.State :=
  mkEnv (fun _ => Resolved "No violations found.")
        (fun _ => Loaded "data:application/pdf;base64,JVBERi0x")
        (fun s => s).

Definition explainingService : Env EndorsementModal.State :=
  mkEnv (fun _ => Resolved "A special indorsement names the next holder.")
        (fun _ => ReadError) (fun s => s).

Definition silentService : Env EndorsementModal.State :=
  mkEnv (fun _ => Resolved "") (fun _ => ReadError) (fun s => s).

(** ** Data URLs, events and requests *)

Definition notComma (c : ascii) : bool := negb (Ascii.eqb c ",").

Definition notSemicolon (c : ascii) : bool := negb (Ascii.eqb c ";").

(** A media type a data URL can carry as the handlers read it: no comma,
    no semicolon, no line terminator. *)
Definition mediaType (s : string) : bool :=
  allChars notComma s && allChars notSemicolon s && noLineTerminator s.

(** The data URL [readAsDataURL] produces for a media type and its base64
    payload. *)
Definition dataUrlOf (mimeType base64Data : string) : string :=
  "data:" ++ mimeType ++ ";base64," ++ base64Data.

(** An environment in which nothing else happens while a handler waits. *)
Definition atRest {St : Type} (service : Request -> Outcome)
           (reader : File -> ReadResult) : Env St :=
  mkEnv service reader (fun s => s).

(** What the user can do on the instrument screen, each action running to
    completion before the next. *)
Inductive InstrumentEvent :=
| InstrumentPick (files : option (list File))
| InstrumentAnalyze (service : Request -> Outcome)
                    (reader : File -> ReadResult).

Definition instrumentStep (s : InstrumentProcessor.State)
           (ev : InstrumentEvent) : InstrumentProcessor.State :=
  match ev with
  | InstrumentPick files => InstrumentProcessor.handleFileChange files s
  | InstrumentAnalyze service reader =>
      finalState (run (InstrumentProcessor.handleAnalyze s)
                      (atRest service reader) s)
  end.

(** What the user can do on the vehicle-financing screen. *)
Inductive VehicleEvent :=
| VehiclePick (files : option (list File))
| VehicleAnalyze (service : Request -> Outcome)
                 (reader : File -> ReadResult)
| VehicleRemedy (service : Request -> Outcome).

Definition vehicleStep (s : VehicleFinancingAnalysis.State)
           (ev : VehicleEvent) : VehicleFinancingAnalysis.State :=
  match ev with
  | VehiclePick files => VehicleFinancingAnalysis.handleFileChange files s
  | VehicleAnalyze service reader =>
      finalState (run (VehicleFinancingAnalysis.handleAnalyze s)
                      (atRest service reader) s)
  | VehicleRemedy service =>
      finalState (run (VehicleFinancingAnalysis.handleGenerateRemedy s)
                      (atRest service (fun _ => ReadError)) s)
  end.

(** The request the instrument screen sends for a file read as
    [mimeType], [base64Data]. *)
Definition instrumentRequest (mimeType base64Data : string) : Request :=
  mkRequest "gemini-2.5-pro"
    [Text InstrumentProcessor.prompt; InlineData mimeType base64Data].

Definition contractRequest (mimeType base64Data : string) : Request :=
  mkRequest "gemini-2.5-pro"
    [Text VehicleFinancingAnalysis.analyzePrompt;
     InlineData mimeType base64Data].

Definition remedyRequest (analysis : string) : Request :=
  mkRequest "gemini-2.5-pro"
    [Text VehicleFinancingAnalysis.remedyPrompt;
     Text ("CONTRACT ANALYSIS:" ++ VehicleFinancingAnalysis.newline ++ "---"
           ++ VehicleFinancingAnalysis.newline ++ analysis)].

(** The instrument screen at rest: nothing is loading, a stored file has
    an allowed type, and an analysis is shown only for a stored file and
    never beside an error. *)
Definition instrumentConsistent (s : InstrumentProcessor.State) : Prop :=
  InstrumentProcessor.isLoading s = false
  /\ (forall f, InstrumentProcessor.file s = Some f ->
                In (fileType f) mimeAllowList)
  /\ (InstrumentProcessor.analysis s <> "" ->
      InstrumentProcessor.file s <> None
      /\ InstrumentProcessor.error s = None).

(** The vehicle screen at rest: nothing is loading or generating, a stored
    file has an allowed type, an analysis is shown only for a stored file
    and a letter only beside an analysis. *)
Definition vehicleConsistent (s : VehicleFinancingAnalysis.State) : Prop :=
  VehicleFinancingAnalysis.isLoading s = false
  /\ VehicleFinancingAnalysis.isGenerating s = false
  /\ (forall f, VehicleFinancingAnalysis.file s = Some f ->
                In (fileType f) mimeAllowList)
  /\ (VehicleFinancingAnalysis.analysis s <> "" ->
      VehicleFinancingAnalysis.file s <> None)
  /\ (VehicleFinancingAnalysis.remedyLetter s <> "" ->
      VehicleFinancingAnalysis.analysis s <> "").

(** What the user can do on the debt-collector log screen, each action
    running to completion before the next. *)
Inductive LogEvent :=
| LogType (name value : string)
| LogSuggest (service : Request -> Outcome)
| LogSubmit (now : Z)
| LogLetter (service : Request -> Outcome).

Definition logStep (s : DebtCollectorLog.State) (ev : LogEvent)
  : DebtCollectorLog.State :=
  match ev with
  | LogType name value => DebtCollectorLog.handleInputChange name value s
  | LogSuggest service =>
      finalState (run (DebtCollectorLog.clickSuggestViolation s)
                      (atRest service (fun _ => ReadError)) s)
  | LogSubmit now => DebtCollectorLog.submitLogForm now s
  | LogLetter service =>
      finalState (run (DebtCollectorLog.clickGenerateCeaseAndDesist s)
                      (atRest service (fun _ => ReadError)) s)
  end.

(** An entry none of whose required fields is empty. *)
Definition completeEntry (e : DebtCollectorLog.LogEntry) : Prop :=
  DebtCollectorLog.date e <> "" /\ DebtCollectorLog.collectorName e <> ""
  /\ DebtCollectorLog.company e <> "" /\ DebtCollectorLog.description e <> "".

(** The field of the draft an input named [name] is bound to. *)
Definition draftField (name : string) (d : DebtCollectorLog.Draft)
  : option string :=
  if String.eqb name "date" then Some (DebtCollectorLog.draftDate d)
  else if String.eqb name "collectorName"
       then Some (DebtCollectorLog.draftCollectorName d)
  else if String.eqb name "company"
       then Some (DebtCollectorLog.draftCompany d)
  else if String.eqb name "description"
       then Some (DebtCollectorLog.draftDescription d)
  else None.

Definition suggestRequest (description : string) : Request :=
  mkRequest "gemini-2.5-flash"
    [Text (DebtCollectorLog.suggestPrompt description)].

(** [localeCompare] by code units: negative, zero or positive. *)
Definition codeUnitCompare (a b : string) : Z :=
  match String.compare a b with
  | Lt => (-1)%Z
  | Eq => 0%Z
  | Gt => 1%Z
  end.

(** ** Further samples *)

Definition scanFile : File := mkFile "scan.png" "image/png".

(** A service that answers every request with [text], and a reader that
    delivers a small PDF. *)
Definition answering (text : string) : Request -> Outcome :=
  fun _ => Resolved text.

Definition readingPdf : File -> ReadResult :=
  fun _ => Loaded "data:application/pdf;base64,JVBERi0x".

Definition instrumentOnScreen : InstrumentProcessor.State :=
  InstrumentProcessor.mkState (Some contractFile) "" false None.

Definition contractOnScreen : VehicleFinancingAnalysis.State :=
  VehicleFinancingAnalysis.mkState (Some contractFile) "" false None "" false.

(** A log screen with a complete draft, and one with an entry logged. *)
Definition draftedLog : DebtCollectorLog.State :=
  DebtCollectorLog.mkState []
    (DebtCollectorLog.mkDraft "2024-05-01" "J. Doe" "Acme Recovery"
       "Called at 6am.")
    "" false "" false None.

Definition loggedCall : DebtCollectorLog.LogEntry :=
  DebtCollectorLog.mkLogEntry 1700000000000 "2024-05-01" "J. Doe"
    "Acme Recovery" "Called at 6am." "".

Definition logWithCall : DebtCollectorLog.State :=
  DebtCollectorLog.mkState [loggedCall] DebtCollectorLog.emptyDraft
    "" false "" false None.

(* ===================================================================== *)
(** * Properties *)
(* ===================================================================== *)

(** Unfold the handler monad so that a run becomes a term to compute. *)
Ltac run_handler :=
  cbv [run bind ret throw set generateContent readAsDataURL
       tryCatchFinally tryCatch finalState events];
  cbn [fst snd app requests].

(** ** Strings *)

Lemma truthy_false_iff (s : string) : JS.truthy s = false <-> s = "".
Proof. destruct s; simpl; split; congruence. Qed.

Lemma truthy_true_iff (s : string) : JS.truthy s = true <-> s <> "".
Proof. destruct s; simpl; split; congruence. Qed.

Lemma arrayIncludes_In (xs : list string) (x : string) :
  JS.arrayIncludes xs x = true <-> In x xs.
Proof.
  induction xs as [|y ys IH]; simpl.
  - split; [discriminate | tauto].
  - rewrite orb_true_iff, IH, String.eqb_eq. tauto.
Qed.

Lemma arrayIncludes_not_In (xs : list string) (x : string) :
  ~ In x xs -> JS.arrayIncludes xs x = false.
Proof.
  intro H. destruct (JS.arrayIncludes xs x) eqn:E; [|reflexivity].
  apply arrayIncludes_In in E. contradiction.
Qed.

(** ** File ingestion *)


Lemma instrument_allowed_iff (t : string) :
  JS.arrayIncludes InstrumentProcessor.allowedTypes t = true
  <-> In t mimeAllowList.
Proof.
  rewrite arrayIncludes_In. unfold InstrumentProcessor.allowedTypes,
    mimeAllowList. simpl. tauto.
Qed.

Lemma vehicle_allowed_iff (t : string) :
  JS.arrayIncludes VehicleFinancingAnalysis.allowedTypes t = true
  <-> In t mimeAllowList.
Proof.
  rewrite arrayIncludes_In. unfold VehicleFinancingAnalysis.allowedTypes,
    mimeAllowList. simpl. tauto.
Qed.

(** C1. A selected file whose declared MIME type is outside the allow-list
    (application/pdf, image/jpeg, image/png) is rejected by both upload
    screens: the error message is set, the stored file and the previous
    analysis (and, on the vehicle screen, the previous letter) are
    cleared, and every handler that could send a request for it -- the
    analyze handler, the analyze button, the letter handler -- is then a
    no-op that sends nothing and leaves the state as it is, whatever the
    service and the file reader would answer. *)
Theorem disallowed_upload_is_rejected (f : File) (others : list File) :
  ~ In (fileType f) mimeAllowList ->
  (forall s env,
     let s' := InstrumentProcessor.handleFileChange (Some (f :: others)) s in
     InstrumentProcessor.error s'
       = Some InstrumentProcessor.unsupportedMessage
     /\ InstrumentProcessor.file s' = None
     /\ InstrumentProcessor.analysis s' = ""
     /\ run (InstrumentProcessor.handleAnalyze s') env s' = (Ok tt, s', [])
     /\ run (InstrumentProcessor.clickAnalyze s') env s' = (Ok tt, s', []))
  /\
  (forall s env,
     let s' :=
       VehicleFinancingAnalysis.handleFileChange (Some (f :: others)) s in
     VehicleFinancingAnalysis.error s'
       = Some VehicleFinancingAnalysis.unsupportedMessage
     /\ VehicleFinancingAnalysis.file s' = None
     /\ VehicleFinancingAnalysis.analysis s' = ""
     /\ VehicleFinancingAnalysis.remedyLetter s' = ""
     /\ run (VehicleFinancingAnalysis.handleAnalyze s') env s'
        = (Ok tt, s', [])
     /\ run (VehicleFinancingAnalysis.clickAnalyze s') env s'
        = (Ok tt, s', [])
     /\ run (VehicleFinancingAnalysis.handleGenerateRemedy s') env s'
        = (Ok tt, s', [])).
Proof.
  intro Hnot. split; intros s env s'.
  - assert (E : JS.arrayIncludes InstrumentProcessor.allowedTypes
                  (fileType f) = false).
    { destruct (JS.arrayIncludes _ _) eqn:E; [|reflexivity].
      apply instrument_allowed_iff in E. contradiction. }
    subst s'. unfold InstrumentProcessor.handleFileChange. rewrite E.
    repeat split.
  - assert (E : JS.arrayIncludes VehicleFinancingAnalysis.allowedTypes
                  (fileType f) = false).
    { destruct (JS.arrayIncludes _ _) eqn:E; [|reflexivity].
      apply vehicle_allowed_iff in E. contradiction. }
    subst s'. unfold VehicleFinancingAnalysis.handleFileChange. rewrite E.
    repeat split.
Qed.


Lemma disallowed_upload_is_rejected_witness :
  ~ In (fileType textFile) mimeAllowList
  /\ InstrumentProcessor.file
       (InstrumentProcessor.handleFileChange (Some [textFile])
          (InstrumentProcessor.mkState
             (Some (mkFile "note.pdf" "application/pdf")) "old analysis"
             false None))
     = None.
Proof.
  assert (H : ~ In (fileType textFile) mimeAllowList).
  { simpl. intros [H|[H|[H|[]]]]; discriminate H. }
  split; [exact H|].
  exact (proj1 (proj2 (proj1 (disallowed_upload_is_rejected textFile [] H)
                         (InstrumentProcessor.mkState
                            (Some (mkFile "note.pdf" "application/pdf"))
                            "old analysis" false None)
                         (mkEnv (fun _ => Rejected) (fun _ => ReadError)
                                (fun s => s))))).
Defined.

(** C10. A change event that carries no file ([files] is [null] or an
    empty list, as when the picker is cancelled) leaves the whole state of
    either upload screen as it was. *)
Theorem empty_selection_changes_nothing :
  (forall s, InstrumentProcessor.handleFileChange None s = s
             /\ InstrumentProcessor.handleFileChange (Some []) s = s)
  /\
  (forall s, VehicleFinancingAnalysis.handleFileChange None s = s
             /\ VehicleFinancingAnalysis.handleFileChange (Some []) s = s).
Proof. split; intro s; split; reflexivity. Qed.

(** ** The resource form *)

(** C8. [handleAddResource] adds the draft resource exactly when its three
    fields are all non-empty: the resource then goes to the end of the
    list, the entries already there keep their places, and the three form
    fields are reset to empty; with any field empty the state (the list
    included) is unchanged. *)
Theorem add_resource_requires_all_fields (s : LegalResources.State) :
  let r := LegalResources.newResource s in
  let s' := LegalResources.handleAddResource s in
  (LegalResources.name r <> "" /\ LegalResources.url r <> ""
   /\ LegalResources.category r <> "" ->
   LegalResources.resources s' = LegalResources.resources s ++ [r]
   /\ LegalResources.newResource s' = LegalResources.mkResource "" "" ""
   /\ LegalResources.searchTerm s' = LegalResources.searchTerm s)
  /\
  (LegalResources.name r = "" \/ LegalResources.url r = ""
   \/ LegalResources.category r = "" ->
   s' = s).
Proof.
  intros r s'. subst r s'. unfold LegalResources.handleAddResource.
  destruct (LegalResources.newResource s) as [n u c]; simpl.
  split.
  - intros (Hn & Hu & Hc).
    apply truthy_true_iff in Hn, Hu, Hc. rewrite Hn, Hu, Hc. simpl.
    repeat split.
  - intros [H|[H|H]]; subst; simpl.
    + reflexivity.
    + rewrite andb_false_r. reflexivity.
    + rewrite andb_false_r. reflexivity.
Qed.

Lemma add_resource_requires_all_fields_witness :
  LegalResources.resources
    (LegalResources.handleAddResource
       (LegalResources.mkState LegalResources.initialResources "ucc"
          (LegalResources.mkResource "Regulation Z" "https://example.org/z"
             "Regulations")))
  = LegalResources.initialResources
    ++ [LegalResources.mkResource "Regulation Z" "https://example.org/z"
          "Regulations"]
  /\
  LegalResources.handleAddResource
    (LegalResources.mkState LegalResources.initialResources ""
       (LegalResources.mkResource "Regulation Z" "" "Regulations"))
  = LegalResources.mkState LegalResources.initialResources ""
      (LegalResources.mkResource "Regulation Z" "" "Regulations").
Proof.
  split.
  - apply (proj1 (add_resource_requires_all_fields
                    (LegalResources.mkState LegalResources.initialResources
                       "ucc"
                       (LegalResources.mkResource "Regulation Z"
                          "https://example.org/z" "Regulations")))).
    simpl. repeat split; discriminate.
  - apply (proj2 (add_resource_requires_all_fields
                    (LegalResources.mkState LegalResources.initialResources
                       ""
                       (LegalResources.mkResource "Regulation Z" ""
                          "Regulations")))).
    simpl. right; left; reflexivity.
Defined.

(** ** The log form *)

(** [handleAddLog] itself checks nothing: whenever it is called it appends
    an entry.  The check of the four fields is the form's. *)
Remark handleAddLog_always_appends (now : Z) (s : DebtCollectorLog.State) :
  List.length (DebtCollectorLog.logs (DebtCollectorLog.handleAddLog now s))
  = S (List.length (DebtCollectorLog.logs s)).
Proof. simpl. rewrite length_app, Nat.add_comm. reflexivity. Qed.

(** C7. Pressing "Add to Log" with date, collector name, company and
    description all filled in appends exactly one entry to [logs]; its id
    is the current time, its fields are those of the draft and its
    suggestion is the draft suggestion shown at that moment; its card is
    the first of the rendered history, above the cards already there; the
    draft and the draft suggestion are then empty.  With one of the four
    fields empty the form is not submitted and the state keeps its
    entries. *)
Theorem submit_log_form_appends_one_entry (now : Z)
        (s : DebtCollectorLog.State) :
  let d := DebtCollectorLog.newLog s in
  let s' := DebtCollectorLog.submitLogForm now s in
  (DebtCollectorLog.draftDate d <> ""
   /\ DebtCollectorLog.draftCollectorName d <> ""
   /\ DebtCollectorLog.draftCompany d <> ""
   /\ DebtCollectorLog.draftDescription d <> "" ->
   let entry :=
     DebtCollectorLog.mkLogEntry now
       (DebtCollectorLog.draftDate d) (DebtCollectorLog.draftCollectorName d)
       (DebtCollectorLog.draftCompany d)
       (DebtCollectorLog.draftDescription d)
       (DebtCollectorLog.suggestion s) in
   DebtCollectorLog.logs s' = DebtCollectorLog.logs s ++ [entry]
   /\ DebtCollectorLog.renderHistory s'
      = DebtCollectorLog.Cards
          (DebtCollectorLog.renderLog entry
           :: rev (map DebtCollectorLog.renderLog (DebtCollectorLog.logs s)))
   /\ DebtCollectorLog.newLog s' = DebtCollectorLog.mkDraft "" "" "" ""
   /\ DebtCollectorLog.suggestion s' = "")
  /\
  (DebtCollectorLog.draftDate d = ""
   \/ DebtCollectorLog.draftCollectorName d = ""
   \/ DebtCollectorLog.draftCompany d = ""
   \/ DebtCollectorLog.draftDescription d = "" ->
   s' = s).
Proof.
  intros d s'. subst d s'. unfold DebtCollectorLog.submitLogForm,
    DebtCollectorLog.formValid.
  destruct s as [ls [dd dn dc ds] sg ? ? ? ?]; simpl.
  split.
  - intros (H1 & H2 & H3 & H4).
    apply truthy_true_iff in H1, H2, H3, H4. rewrite H1, H2, H3, H4. simpl.
    unfold DebtCollectorLog.renderHistory; simpl.
    rewrite length_app, Nat.add_comm; simpl.
    rewrite map_app, rev_app_distr; simpl.
    repeat split.
  - intros [H|[H|[H|H]]]; subst; simpl;
      rewrite ?andb_false_r; reflexivity.
Qed.

Lemma submit_log_form_appends_one_entry_witness :
  DebtCollectorLog.logs
    (DebtCollectorLog.submitLogForm 1700000000000
       (DebtCollectorLog.mkState []
          (DebtCollectorLog.mkDraft "2024-05-01" "J. Doe" "Acme Recovery"
             "Called at 6am.")
          "Possible violation of 1692c(a)(1)." false "" false None))
  = [DebtCollectorLog.mkLogEntry 1700000000000 "2024-05-01" "J. Doe"
       "Acme Recovery" "Called at 6am."
       "Possible violation of 1692c(a)(1)."]
  /\
  DebtCollectorLog.submitLogForm 1700000000000
    (DebtCollectorLog.mkState []
       (DebtCollectorLog.mkDraft "2024-05-01" "" "Acme Recovery"
          "Called at 6am.") "" false "" false None)
  = DebtCollectorLog.mkState []
      (DebtCollectorLog.mkDraft "2024-05-01" "" "Acme Recovery"
         "Called at 6am.") "" false "" false None.
Proof.
  split.
  - apply (proj1 (submit_log_form_appends_one_entry 1700000000000
                    (DebtCollectorLog.mkState []
                       (DebtCollectorLog.mkDraft "2024-05-01" "J. Doe"
                          "Acme Recovery" "Called at 6am.")
                       "Possible violation of 1692c(a)(1)." false "" false
                       None))).
    simpl. repeat split; discriminate.
  - apply (proj2 (submit_log_form_appends_one_entry 1700000000000
                    (DebtCollectorLog.mkState []
                       (DebtCollectorLog.mkDraft "2024-05-01" ""
                          "Acme Recovery" "Called at 6am.") "" false ""
                       false None))).
    simpl. right; left; reflexivity.
Defined.

(** ** The seeded catalogue *)

Lemma asciiLowerCase_law : LowerCasesAscii asciiLowerCase.
Proof. intros s _. reflexivity. Qed.

(** On text in the ASCII range the search is the one [asciiLowerCase]
    gives. *)
Lemma matchesSearch_ascii (toLowerCase : string -> string) (q : string)
      (r : LegalResources.Resource) :
  LowerCasesAscii toLowerCase ->
  isAscii q = true -> asciiResource r = true ->
  LegalResources.matchesSearch toLowerCase q r
  = LegalResources.matchesSearch asciiLowerCase q r.
Proof.
  intros Hlow Hq Hr. unfold asciiResource in Hr.
  apply andb_true_iff in Hr. destruct Hr as [Hr Hc].
  apply andb_true_iff in Hr. destruct Hr as [Hn Hu].
  unfold LegalResources.matchesSearch.
  now rewrite (Hlow _ Hq), (Hlow _ Hn), (Hlow _ Hu), (Hlow _ Hc).
Qed.

Lemma filteredResources_ascii (toLowerCase : string -> string)
      (rs : list LegalResources.Resource) (q : string) :
  LowerCasesAscii toLowerCase ->
  isAscii q = true -> forallb asciiResource rs = true ->
  LegalResources.filteredResources toLowerCase rs q
  = LegalResources.filteredResources asciiLowerCase rs q.
Proof.
  intros Hlow Hq. unfold LegalResources.filteredResources.
  induction rs as [|r rs IH]; [reflexivity|]. cbn [forallb filter].
  intro H. apply andb_true_iff in H. destruct H as [Hr Hrs].
  now rewrite (matchesSearch_ascii _ _ _ Hlow Hq Hr), (IH Hrs).
Qed.

Lemma render_ascii (toLowerCase : string -> string)
      (localeCompare : string -> string -> Z)
      (rs : list LegalResources.Resource) (q : string) :
  LowerCasesAscii toLowerCase ->
  isAscii q = true -> forallb asciiResource rs = true ->
  LegalResources.render toLowerCase localeCompare rs q
  = LegalResources.render asciiLowerCase localeCompare rs q.
Proof.
  intros Hlow Hq Hrs. unfold LegalResources.render.
  now rewrite (filteredResources_ascii _ _ _ Hlow Hq Hrs).
Qed.

(** C9. On the seeded list the search term "UCC" keeps exactly the two
    seeded UCC entries and the list area shows them under the single
    heading "UCC"; the search term "nonexistent-xyz" keeps nothing and the
    list area shows the empty-state message.  Both hold for any collation
    used by [localeCompare] and for any [toLowerCase] that lower-cases
    ASCII text as every engine does. *)
Theorem seeded_search_examples (toLowerCase : string -> string)
        (localeCompare : string -> string -> Z) :
  LowerCasesAscii toLowerCase ->
  let ucc3 := LegalResources.mkResource
                "UCC Article 3 - Negotiable Instruments"
                "https://www.law.cornell.edu/ucc/3" "UCC" in
  let ucc9 := LegalResources.mkResource
                "UCC Article 9 - Secured Transactions"
                "https://www.law.cornell.edu/ucc/9" "UCC" in
  LegalResources.filteredResources toLowerCase
    LegalResources.initialResources "UCC"
  = [ucc3; ucc9]
  /\ LegalResources.render toLowerCase localeCompare
       LegalResources.initialResources "UCC"
     = Ok (LegalResources.Groups [("UCC", [ucc3; ucc9])])
  /\ LegalResources.filteredResources toLowerCase
       LegalResources.initialResources "nonexistent-xyz" = []
  /\ LegalResources.render toLowerCase localeCompare
       LegalResources.initialResources "nonexistent-xyz"
     = Ok LegalResources.EmptyState.
Proof.
  intros Hlow ucc3 ucc9.
  rewrite !(filteredResources_ascii toLowerCase) by (exact Hlow || reflexivity).
  rewrite !(render_ascii toLowerCase) by (exact Hlow || reflexivity).
  repeat split.
Qed.

Lemma seeded_search_examples_witness :
  LegalResources.filteredResources asciiLowerCase
    LegalResources.initialResources "UCC"
  = [LegalResources.mkResource "UCC Article 3 - Negotiable Instruments"
       "https://www.law.cornell.edu/ucc/3" "UCC";
     LegalResources.mkResource "UCC Article 9 - Secured Transactions"
       "https://www.law.cornell.edu/ucc/9" "UCC"].
Proof.
  exact (proj1 (seeded_search_examples asciiLowerCase codeUnitCompare
                  asciiLowerCase_law)).
Defined.

(* ===================================================================== *)
(** ** The request/response lifecycle of an action slot *)
(* ===================================================================== *)


Ltac lifecycle_start :=
  unfold lifecycle, prepared, settled, failed; run_handler.

(** Close the goals a run leaves once its outcome is known. *)
Ltac lifecycle_finish :=
  repeat
    match goal with
    | |- _ /\ _ => split
    | |- exists e rest, _ = e :: rest /\ _ =>
        do 2 eexists; split; [reflexivity|]
    | |- exists m, _ /\ _ =>
        eexists; split; [|reflexivity]; simpl; auto
    | |- quiet _ -> _ =>
        let Hq := fresh "Hq" in
        intro Hq; unfold quiet in Hq; cbn; rewrite ?Hq; cbn
    | |- _ = _ => reflexivity
    end.

Lemma instrument_analyze_lifecycle env s f :
  InstrumentProcessor.file s = Some f ->
  lifecycle instrumentSlot ""
    [InstrumentProcessor.analyzeFailedMessage;
     InstrumentProcessor.readFailedMessage]
    (InstrumentProcessor.handleAnalyze s) env s.
Proof.
  intro Hf. unfold InstrumentProcessor.handleAnalyze. rewrite Hf.
  lifecycle_start.
  destruct (readFile env f) as [|dataUrl]; simpl; [lifecycle_finish|].
  destruct (DataUrl.parse dataUrl) as [[mime data]|]; simpl;
    [|lifecycle_finish].
  destruct (generate env _) eqn:G; simpl; rewrite ?G; lifecycle_finish.
Qed.

Lemma contract_analyze_lifecycle env s f :
  VehicleFinancingAnalysis.file s = Some f ->
  lifecycle contractSlot ""
    [VehicleFinancingAnalysis.analyzeFailedMessage]
    (VehicleFinancingAnalysis.handleAnalyze s) env s.
Proof.
  intro Hf. unfold VehicleFinancingAnalysis.handleAnalyze,
    VehicleFinancingAnalysis.fileToGenerativePart. rewrite Hf.
  lifecycle_start.
  destruct (readFile env f) as [|dataUrl]; simpl; [lifecycle_finish|].
  destruct (DataUrl.parse dataUrl) as [[mime data]|]; simpl;
    [|lifecycle_finish].
  destruct (generate env _) eqn:G; simpl; rewrite ?G; lifecycle_finish.
Qed.

(** A handler whose only suspension is the request itself. *)
Ltac single_request_lifecycle :=
  lifecycle_start;
  match goal with
  | |- context [generate ?env ?req] =>
      destruct (generate env req) eqn:G; simpl; rewrite ?G; lifecycle_finish
  end.

Lemma remedy_lifecycle env s :
  VehicleFinancingAnalysis.analysis s <> "" ->
  lifecycle remedySlot (VehicleFinancingAnalysis.remedyLetter s)
    [VehicleFinancingAnalysis.remedyFailedMessage]
    (VehicleFinancingAnalysis.handleGenerateRemedy s) env s.
Proof.
  intro Ha. apply truthy_true_iff in Ha.
  unfold VehicleFinancingAnalysis.handleGenerateRemedy. rewrite Ha; simpl.
  single_request_lifecycle.
Qed.

Lemma suggest_lifecycle env s :
  DebtCollectorLog.draftDescription (DebtCollectorLog.newLog s) <> "" ->
  lifecycle suggestSlot ""
    [DebtCollectorLog.suggestFailedMessage]
    (DebtCollectorLog.handleSuggestViolation s) env s.
Proof.
  intro Hd. apply truthy_true_iff in Hd.
  unfold DebtCollectorLog.handleSuggestViolation. rewrite Hd; simpl.
  single_request_lifecycle.
Qed.

Lemma letter_lifecycle env s :
  DebtCollectorLog.logs s <> [] ->
  lifecycle letterSlot (DebtCollectorLog.ceaseAndDesist s)
    [DebtCollectorLog.ceaseAndDesistFailedMessage]
    (DebtCollectorLog.handleGenerateCeaseAndDesist s) env s.
Proof.
  intro Hl. unfold DebtCollectorLog.handleGenerateCeaseAndDesist.
  destruct (DebtCollectorLog.logs s) as [|l ls] eqn:E; [congruence|]. simpl.
  single_request_lifecycle.
Qed.

(** The hide test of [handleExplainSection] holds exactly when the slot
    holds a non-empty text for the citation clicked. *)
Lemma sameSectionWithText_iff explanation sec :
  EndorsementModal.sameSectionWithText explanation sec = true
  <-> HoldsTextFor explanation sec.
Proof.
  unfold EndorsementModal.sameSectionWithText, HoldsTextFor.
  destruct explanation as [[sec' t l]|]; simpl.
  - rewrite andb_true_iff, String.eqb_eq, truthy_true_iff. split.
    + intros [-> Ht]. exists t, l. split; [reflexivity | exact Ht].
    + intros (t' & l' & H & Ht). inversion H; subst. split; [reflexivity|].
      exact Ht.
  - split; [discriminate | intros (t & l & H & _); discriminate].
Qed.

Lemma sameSectionWithText_false explanation sec :
  ~ HoldsTextFor explanation sec ->
  EndorsementModal.sameSectionWithText explanation sec = false.
Proof.
  intro H. destruct (EndorsementModal.sameSectionWithText explanation sec)
    eqn:E; [|reflexivity].
  apply sameSectionWithText_iff in E. contradiction.
Qed.

Lemma explain_lifecycle env explanation sec :
  ~ HoldsTextFor explanation sec ->
  let r := run (EndorsementModal.handleExplainSection explanation sec)
               env explanation in
  events r = [Sent (explaining sec) (explainRequest sec)]
  /\ finalState r
     = Some (EndorsementModal.mkExplanation sec
               match generate env (explainRequest sec) with
               | Resolved text => text
               | Rejected => EndorsementModal.explainFailedText
               end
               false).
Proof.
  intro Hg. apply sameSectionWithText_false in Hg.
  unfold EndorsementModal.handleExplainSection. rewrite Hg.
  unfold explainRequest, explaining.
  run_handler. destruct (generate env _); simpl; split; reflexivity.
Qed.




(* ===================================================================== *)
(** ** Guards *)
(* ===================================================================== *)

(** X30. A handler invoked without its required input (no stored file,
    no analysis, no description, no log entry) sends nothing and changes
    nothing.  The analyze, suggestion and letter handlers do not look at
    their loading flag; the button that triggers each of them is disabled
    while the flag is up (and absent or disabled while the input is
    missing), so a click then sends nothing and changes nothing. *)
Theorem guarded_actions_are_noops :
  (forall env s,
      InstrumentProcessor.file s = None ->
      run (InstrumentProcessor.handleAnalyze s) env s = (Ok tt, s, []))
  /\ (forall env s,
         VehicleFinancingAnalysis.file s = None ->
         run (VehicleFinancingAnalysis.handleAnalyze s) env s
         = (Ok tt, s, []))
  /\ (forall env s,
         VehicleFinancingAnalysis.analysis s = "" ->
         run (VehicleFinancingAnalysis.handleGenerateRemedy s) env s
         = (Ok tt, s, []))
  /\ (forall env s,
         DebtCollectorLog.draftDescription (DebtCollectorLog.newLog s) = "" ->
         run (DebtCollectorLog.handleSuggestViolation s) env s
         = (Ok tt, s, []))
  /\ (forall env s,
         DebtCollectorLog.logs s = [] ->
         run (DebtCollectorLog.handleGenerateCeaseAndDesist s) env s
         = (Ok tt, s, []))
  /\ (forall env s,
         InstrumentProcessor.file s = None
         \/ InstrumentProcessor.isLoading s = true ->
         run (InstrumentProcessor.clickAnalyze s) env s = (Ok tt, s, []))
  /\ (forall env s,
         VehicleFinancingAnalysis.file s = None
         \/ VehicleFinancingAnalysis.isLoading s = true ->
         run (VehicleFinancingAnalysis.clickAnalyze s) env s
         = (Ok tt, s, []))
  /\ (forall env s,
         VehicleFinancingAnalysis.analysis s = ""
         \/ VehicleFinancingAnalysis.isGenerating s = true ->
         run (VehicleFinancingAnalysis.clickGenerateRemedy s) env s
         = (Ok tt, s, []))
  /\ (forall env s,
         DebtCollectorLog.draftDescription (DebtCollectorLog.newLog s) = ""
         \/ DebtCollectorLog.isSuggesting s = true ->
         run (DebtCollectorLog.clickSuggestViolation s) env s
         = (Ok tt, s, []))
  /\ (forall env s,
         DebtCollectorLog.logs s = []
         \/ DebtCollectorLog.isGenerating s = true ->
         run (DebtCollectorLog.clickGenerateCeaseAndDesist s) env s
         = (Ok tt, s, [])).
Proof.
  repeat split.
  - intros env s H; unfold InstrumentProcessor.handleAnalyze;
      rewrite H; reflexivity.
  - intros env s H; unfold VehicleFinancingAnalysis.handleAnalyze;
      rewrite H; reflexivity.
  - intros env s H; unfold VehicleFinancingAnalysis.handleGenerateRemedy;
      rewrite H; reflexivity.
  - intros env s H; unfold DebtCollectorLog.handleSuggestViolation;
      rewrite H; reflexivity.
  - intros env s H; unfold DebtCollectorLog.handleGenerateCeaseAndDesist;
      rewrite H; reflexivity.
  - intros env s [H|H];
      unfold InstrumentProcessor.clickAnalyze,
        InstrumentProcessor.analyzeDisabled; rewrite H;
      rewrite ?orb_true_r; reflexivity.
  - intros env s [H|H];
      unfold VehicleFinancingAnalysis.clickAnalyze,
        VehicleFinancingAnalysis.analyzeDisabled; rewrite H;
      rewrite ?orb_true_r; reflexivity.
  - intros env s [H|H];
      unfold VehicleFinancingAnalysis.clickGenerateRemedy,
        VehicleFinancingAnalysis.remedyRendered,
        VehicleFinancingAnalysis.remedyDisabled; rewrite H;
      rewrite ?orb_true_r; reflexivity.
  - intros env s [H|H];
      unfold DebtCollectorLog.clickSuggestViolation,
        DebtCollectorLog.suggestDisabled; rewrite H;
      rewrite ?orb_true_r; reflexivity.
  - intros env s [H|H];
      unfold DebtCollectorLog.clickGenerateCeaseAndDesist,
        DebtCollectorLog.letterRendered,
        DebtCollectorLog.letterDisabled; rewrite H;
      rewrite ?orb_true_r; reflexivity.
Qed.


Lemma guarded_actions_are_noops_witness :
  run (VehicleFinancingAnalysis.clickAnalyze analysisInFlight)
      workingService analysisInFlight
  = (Ok tt, analysisInFlight, []).
Proof.
  apply (proj1 (proj2 (proj2 (proj2 (proj2 (proj2 (proj2
           guarded_actions_are_noops))))))
           workingService analysisInFlight).
  right. reflexivity.
Defined.

(** C3 at the input where the code departs from it.  The first click on
    "Explain with AI" of a citation stores the citation with an empty
    text and the loading flag up, and sends the request.  The button has
    no [disabled] attribute, and the only test of the handler asks for a
    non-empty text: a second click on the same citation while the request
    is in flight is not a no-op.  It finds the slot as the first click
    left it, stores it again and sends the request a second time. *)
Theorem explain_click_in_flight_sends_second_request
        (env : Env EndorsementModal.State) (sec : string) :
  let first :=
    run (EndorsementModal.handleExplainSection None sec) env None in
  let second :=
    run (EndorsementModal.handleExplainSection (explaining sec) sec)
        env (explaining sec) in
  events first = [Sent (explaining sec) (explainRequest sec)]
  /\ EndorsementModal.explanationBox (explaining sec) sec
     = Some EndorsementModal.SmallLoadingSpinner
  /\ events second = [Sent (explaining sec) (explainRequest sec)]
  /\ second <> (Ok tt, explaining sec, []).
Proof.
  intros first second. subst first second.
  unfold EndorsementModal.handleExplainSection, explaining, explainRequest.
  cbn [EndorsementModal.sameSectionWithText EndorsementModal.section
       EndorsementModal.text JS.truthy andb].
  rewrite andb_false_r. run_handler.
  split; [destruct (generate env _); reflexivity|].
  split; [simpl; now rewrite String.eqb_refl|].
  split; [destruct (generate env _); reflexivity|].
  destruct (generate env _); discriminate.
Qed.

(* ===================================================================== *)
(** ** The explanation toggle *)
(* ===================================================================== *)


(** C5, as the code has it.  A click on a citation's explain button hides
    the explanation when the slot holds a non-empty text for that same
    citation, and sends nothing.  Otherwise -- the slot is empty, holds
    another citation's explanation, or holds this citation with an empty
    text -- it sends one request and puts the returned text (or the
    failure text) under the citation, replacing what the slot held.  When
    that text is not empty a second click hides it: two clicks send one
    request and leave the slot empty, so a component whose slot was empty
    renders exactly as before the first click. *)
Theorem explanation_toggle (env : Env EndorsementModal.State)
        (explanation : EndorsementModal.State) (sec : string) :
  let click :=
    run (EndorsementModal.handleExplainSection explanation sec)
        env explanation in
  (HoldsTextFor explanation sec ->
   click = (Ok tt, None, []))
  /\
  (~ HoldsTextFor explanation sec ->
   requests (events click) = [explainRequest sec]
   /\ finalState click
      = Some (EndorsementModal.mkExplanation sec (explanationShown env sec)
                false)
   /\ EndorsementModal.explanationBox (finalState click) sec
      = Some (EndorsementModal.ExplanationText (explanationShown env sec))
   /\ (explanationShown env sec <> "" ->
       explainTwice env explanation sec = (None, [explainRequest sec])))
  /\
  (explanationShown env sec <> "" ->
   forall content,
     EndorsementModal.renderContentWithLinks
       (fst (explainTwice env None sec)) content
     = EndorsementModal.renderContentWithLinks None content).
Proof.
  intros click.
  assert (Hide : forall e, HoldsTextFor e sec ->
            run (EndorsementModal.handleExplainSection e sec) env e
            = (Ok tt, None, [])).
  { intros e He. apply sameSectionWithText_iff in He.
    unfold EndorsementModal.handleExplainSection. rewrite He. reflexivity. }
  assert (First : forall e,
            ~ HoldsTextFor e sec ->
            explanationShown env sec <> "" ->
            explainTwice env e sec = (None, [explainRequest sec])).
  { intros e Hg Ht. unfold explainTwice.
    destruct (explain_lifecycle env e sec Hg) as [Hev Hfin].
    fold (explanationShown env sec) in Hfin. rewrite Hfin, Hev.
    rewrite Hide; [reflexivity|].
    exists (explanationShown env sec), false. split; [reflexivity|exact Ht]. }
  assert (Hnone : ~ HoldsTextFor None sec).
  { intros (t & l & H & _). discriminate H. }
  split; [|split].
  - exact (Hide explanation).
  - intro Hg. subst click.
    destruct (explain_lifecycle env explanation sec Hg) as [Hev Hfin].
    rewrite Hev, Hfin. fold (explanationShown env sec).
    split; [reflexivity|]. split; [reflexivity|]. split.
    + simpl. rewrite String.eqb_refl. reflexivity.
    + exact (First explanation Hg).
  - intros Ht content. rewrite (First None Hnone Ht). reflexivity.
Qed.

(** A slot showing the text of another citation is replaced; a slot
    showing a text for this citation is emptied. *)
Lemma explanation_toggle_witness :
  requests
    (events
       (run (EndorsementModal.handleExplainSection
               (Some (EndorsementModal.mkExplanation "3-305"
                        "Defenses and claims in recoupment." false))
               "3-205")
            explainingService
            (Some (EndorsementModal.mkExplanation "3-305"
                     "Defenses and claims in recoupment." false))))
  = [explainRequest "3-205"]
  /\
  run (EndorsementModal.handleExplainSection
         (Some (EndorsementModal.mkExplanation "3-205"
                  "A special indorsement names the next holder." false))
         "3-205")
      explainingService
      (Some (EndorsementModal.mkExplanation "3-205"
               "A special indorsement names the next holder." false))
  = (Ok tt, None, []).
Proof.
  assert (Hother : ~ HoldsTextFor
                     (Some (EndorsementModal.mkExplanation "3-305"
                              "Defenses and claims in recoupment." false))
                     "3-205").
  { intros (t & l & H & _). discriminate H. }
  assert (Hsame : HoldsTextFor
                    (Some (EndorsementModal.mkExplanation "3-205"
                             "A special indorsement names the next holder."
                             false))
                    "3-205").
  { exists "A special indorsement names the next holder.", false.
    split; [reflexivity | discriminate]. }
  split.
  - exact (proj1 (proj1 (proj2
             (explanation_toggle explainingService
                (Some (EndorsementModal.mkExplanation "3-305"
                         "Defenses and claims in recoupment." false))
                "3-205"))
             Hother)).
  - exact (proj1
             (explanation_toggle explainingService
                (Some (EndorsementModal.mkExplanation "3-205"
                         "A special indorsement names the next holder."
                         false))
                "3-205")
             Hsame).
Defined.


(** C5, as stated, fails.  When the slot shows another citation's
    explanation, two clicks leave the slot empty, not as it was.  When the
    service returns an empty text, the second click sends a second request
    and the empty explanation box stays. *)
Lemma explanation_toggle_is_not_an_involution :
  (let open := Some (EndorsementModal.mkExplanation "3-305"
                       "Defenses and claims in recoupment." false) in
   fst (explainTwice explainingService open "3-205") = None
   /\ fst (explainTwice explainingService open "3-205") <> open)
  /\
  (explainTwice silentService None "3-205"
   = (Some (EndorsementModal.mkExplanation "3-205" "" false),
      [explainRequest "3-205"; explainRequest "3-205"])
   /\ fst (explainTwice silentService None "3-205") <> None
   /\ EndorsementModal.renderContentWithLinks
        (fst (explainTwice silentService None "3-205"))
        ("[UCC " ++ JS.sectionSign ++ "3-205]")
      <> EndorsementModal.renderContentWithLinks None
           ("[UCC " ++ JS.sectionSign ++ "3-205]")).
Proof.
  split; [split|split; [|split]].
  - reflexivity.
  - vm_compute. discriminate.
  - reflexivity.
  - vm_compute. discriminate.
  - vm_compute. discriminate.
Qed.

(* ===================================================================== *)
(** ** Citation extraction *)
(* ===================================================================== *)

Lemma append_assoc (a b c : string) : ((a ++ b) ++ c = a ++ (b ++ c))%string.
Proof. induction a as [|x a IH]; simpl; [reflexivity | now rewrite IH]. Qed.

Lemma append_nil_r (a : string) : (a ++ "")%string = a.
Proof. induction a as [|x a IH]; simpl; [reflexivity | now rewrite IH]. Qed.

Lemma append_eq_nil (a b : string) : (a ++ b)%string = "" -> a = "" /\ b = "".
Proof. destruct a; simpl; intro H; [auto | discriminate]. Qed.


Lemma citationPattern_eq :
  EndorsementModal.citationPattern
  = [EndorsementModal.Lit "["; EndorsementModal.Lit "U";
     EndorsementModal.Lit "C"; EndorsementModal.Lit "C";
     EndorsementModal.Lit " "; EndorsementModal.Lit (ascii_of_nat 194);
     EndorsementModal.Lit (ascii_of_nat 167); EndorsementModal.Digit;
     EndorsementModal.Lit "-"; EndorsementModal.Digit;
     EndorsementModal.Digit; EndorsementModal.Digit;
     EndorsementModal.Lit "]"].
Proof. reflexivity. Qed.

Lemma matchAtoms_cons a p c s :
  EndorsementModal.matchAtoms (a :: p) (String c s)
  = if EndorsementModal.atomMatches a c then
      match EndorsementModal.matchAtoms p s with
      | Some (m, rest) => Some (String c m, rest)
      | None => None
      end
    else None.
Proof. reflexivity. Qed.

Lemma matchAtoms_cons_inv a p s m rest :
  EndorsementModal.matchAtoms (a :: p) s = Some (m, rest) ->
  exists c s' m',
    s = String c s' /\ m = String c m'
    /\ EndorsementModal.atomMatches a c = true
    /\ EndorsementModal.matchAtoms p s' = Some (m', rest).
Proof.
  destruct s as [|c s']; [discriminate|]. rewrite matchAtoms_cons.
  destruct (EndorsementModal.atomMatches a c) eqn:Ha; [|discriminate].
  destruct (EndorsementModal.matchAtoms p s') as [[m' r']|] eqn:E;
    [|discriminate].
  intro H; inversion H; subst. exists c, s', m'. auto.
Qed.

Lemma matchCitation_token (tok rest : string) :
  CitationToken tok ->
  EndorsementModal.matchCitation (tok ++ rest) = Some (tok, rest).
Proof.
  intros (a & b & c & d & Ha & Hb & Hc & Hd & ->).
  unfold EndorsementModal.matchCitation. rewrite citationPattern_eq.
  cbn [append JS.sectionSign]. rewrite !matchAtoms_cons.
  cbn [EndorsementModal.atomMatches EndorsementModal.matchAtoms].
  rewrite Ha, Hb, Hc, Hd, !Ascii.eqb_refl. reflexivity.
Qed.

Lemma matchCitation_sound (s tok rest : string) :
  EndorsementModal.matchCitation s = Some (tok, rest) ->
  CitationToken tok /\ s = (tok ++ rest)%string.
Proof.
  unfold EndorsementModal.matchCitation. rewrite citationPattern_eq.
  intro H.
  repeat match type of H with
  | EndorsementModal.matchAtoms (_ :: _) _ = Some _ =>
      apply matchAtoms_cons_inv in H;
      destruct H as (? & ? & ? & -> & -> & ? & H)
  end.
  cbn in H. inversion H; subst; clear H.
  repeat match goal with
  | H : EndorsementModal.atomMatches (EndorsementModal.Lit _) _ = true |- _ =>
      cbn [EndorsementModal.atomMatches] in H; apply Ascii.eqb_eq in H;
      subst
  | H : EndorsementModal.atomMatches EndorsementModal.Digit _ = true |- _ =>
      cbn [EndorsementModal.atomMatches] in H
  end.
  split; [|reflexivity].
  do 4 eexists. repeat split; eassumption.
Qed.

Lemma join_empty_cons (x : string) (l : list string) :
  JS.join "" (x :: l) = (x ++ JS.join "" l)%string.
Proof. destruct l; simpl; [now rewrite append_nil_r | reflexivity]. Qed.

Lemma splitFrom_join (seg s : string) :
  JS.join "" (EndorsementModal.splitFrom seg s) = (seg ++ s)%string.
Proof.
  funelim (EndorsementModal.splitFrom seg s).
  - simpl. now rewrite append_nil_r.
  - rewrite !join_empty_cons.
    match goal with IH : JS.join _ _ = (_ ++ _)%string |- _ => rewrite IH end.
    destruct (matchCitation_sound _ _ _ e) as [_ Hs]. rewrite Hs.
    reflexivity.
  - match goal with IH : JS.join _ _ = (_ ++ _)%string |- _ => rewrite IH end.
    now rewrite append_assoc.
Qed.


Lemma NoneStartsIn_nil (s : string) : NoneStartsIn "" s.
Proof.
  intros pre suf H Hne. symmetry in H. apply append_eq_nil in H.
  destruct H; contradiction.
Qed.

Lemma NoneStartsIn_plain (seg s : string) : NoneStartsIn seg s -> Plain seg.
Proof.
  intros H pre tok post Htok ->.
  assert (Hne : (tok ++ post)%string <> "").
  { destruct Htok as (a & b & c & d & _ & _ & _ & _ & ->). discriminate. }
  specialize (H pre (tok ++ post)%string eq_refl Hne).
  rewrite append_assoc, (matchCitation_token _ _ Htok) in H. discriminate.
Qed.

Lemma snoc_split (seg : string) (c : ascii) :
  forall pre suf,
    (seg ++ String c "")%string = (pre ++ suf)%string -> suf <> "" ->
    exists suf', suf = (suf' ++ String c "")%string
                 /\ seg = (pre ++ suf')%string.
Proof.
  induction seg as [|x seg IH]; intros pre suf H Hne.
  - destruct pre as [|y pre]; simpl in H.
    + exists "". subst suf. split; reflexivity.
    + inversion H as [[Hxy Hrest]]. symmetry in Hrest.
      apply append_eq_nil in Hrest. destruct Hrest; contradiction.
  - destruct pre as [|y pre]; simpl in H.
    + exists (String x seg). subst suf. split; reflexivity.
    + inversion H as [[Hxy Hrest]]. subst y.
      destruct (IH pre suf Hrest Hne) as (suf' & -> & ->).
      exists suf'. split; reflexivity.
Qed.

Lemma NoneStartsIn_snoc (seg : string) (c : ascii) (r : string) :
  NoneStartsIn seg (String c r) ->
  EndorsementModal.matchCitation (String c r) = None ->
  NoneStartsIn (seg ++ String c "") r.
Proof.
  intros Hseg Hc pre suf H Hne.
  destruct (snoc_split seg c pre suf H Hne) as (suf' & -> & ->).
  rewrite append_assoc. simpl.
  destruct suf' as [|y suf'].
  - exact Hc.
  - apply (Hseg pre (String y suf') eq_refl). discriminate.
Qed.

Lemma splitFrom_alternating (seg s : string) :
  NoneStartsIn seg s -> Alternating (EndorsementModal.splitFrom seg s).
Proof.
  funelim (EndorsementModal.splitFrom seg s); intro Hinv.
  - apply alt_last. exact (NoneStartsIn_plain _ _ Hinv).
  - apply alt_more.
    + exact (NoneStartsIn_plain _ _ Hinv).
    + exact (proj1 (matchCitation_sound _ _ _ e)).
    + match goal with IH : _ -> Alternating _ |- _ => apply IH end.
      apply NoneStartsIn_nil.
  - match goal with IH : _ -> Alternating _ |- _ => apply IH end.
    apply NoneStartsIn_snoc; assumption.
Qed.

(** *** Rendering the parts *)

Lemma matchAtoms_app p1 p2 s :
  EndorsementModal.matchAtoms (p1 ++ p2) s
  = match EndorsementModal.matchAtoms p1 s with
    | Some (m1, r1) =>
        match EndorsementModal.matchAtoms p2 r1 with
        | Some (m2, r2) => Some ((m1 ++ m2)%string, r2)
        | None => None
        end
    | None => None
    end.
Proof.
  revert s. induction p1 as [|a p1 IH]; intro s.
  - simpl. destruct (EndorsementModal.matchAtoms p2 s) as [[m r]|];
      reflexivity.
  - destruct s as [|c s]; [reflexivity|].
    simpl. destruct (EndorsementModal.atomMatches a c); [|reflexivity].
    rewrite IH.
    destruct (EndorsementModal.matchAtoms p1 s) as [[m1 r1]|]; [|reflexivity].
    destruct (EndorsementModal.matchAtoms p2 r1) as [[m2 r2]|]; reflexivity.
Qed.

Lemma matchAtoms_literal (l s m r : string) :
  EndorsementModal.matchAtoms (EndorsementModal.literal l) s = Some (m, r) ->
  m = l.
Proof.
  revert s m. induction l as [|x l IH]; intros s m H.
  - cbn in H. inversion H; reflexivity.
  - change (EndorsementModal.literal (String x l))
      with (EndorsementModal.Lit x :: EndorsementModal.literal l) in H.
    apply matchAtoms_cons_inv in H.
    destruct H as (c & s' & m' & -> & -> & Hc & H).
    cbn [EndorsementModal.atomMatches] in Hc. apply Ascii.eqb_eq in Hc.
    subst c. f_equal. exact (IH _ _ H).
Qed.

Lemma append_cancel_char (a b : string) (c : ascii) :
  (a ++ String c "")%string = (b ++ String c "")%string -> a = b.
Proof.
  revert b. induction a as [|x a IH]; intros [|y b]; simpl; intro H.
  - reflexivity.
  - inversion H as [[Hx Hr]]. destruct b; discriminate.
  - inversion H as [[Hx Hr]]. destruct a; discriminate.
  - inversion H; subst. f_equal. auto.
Qed.

(** The second regular expression matches where the first does, and its
    capture is the token without "[UCC §" and "]". *)
Lemma matchSectionAt_matchCitation (s sec : string) :
  EndorsementModal.matchSectionAt s = Some sec <->
  exists rest,
    EndorsementModal.matchCitation s
    = Some (("[UCC " ++ JS.sectionSign ++ sec ++ "]")%string, rest).
Proof.
  unfold EndorsementModal.matchSectionAt, EndorsementModal.matchCitation,
    EndorsementModal.citationPattern.
  rewrite !matchAtoms_app.
  destruct (EndorsementModal.matchAtoms EndorsementModal.openPattern s)
    as [[m1 r1]|] eqn:E1.
  2:{ split; [discriminate | intros [rest H]; discriminate]. }
  apply matchAtoms_literal in E1. subst m1. rewrite matchAtoms_app.
  destruct (EndorsementModal.matchAtoms EndorsementModal.sectionPattern r1)
    as [[m2 r2]|] eqn:E2.
  2:{ split; [discriminate | intros [rest H]; discriminate]. }
  destruct (EndorsementModal.matchAtoms EndorsementModal.closePattern r2)
    as [[m3 r3]|] eqn:E3.
  2:{ split; [discriminate | intros [rest H]; discriminate]. }
  apply (matchAtoms_literal "]") in E3. subst m3. split.
  - intro H. inversion H; subst. exists r3.
    rewrite append_assoc. reflexivity.
  - intros [rest H]. inversion H as [[Hm Hr]].
    f_equal. exact (append_cancel_char _ _ _ Hm).
Qed.

Lemma matchSection_occurs (part sec : string) :
  EndorsementModal.matchSection part = Some sec ->
  exists pre tok post,
    CitationToken tok /\ part = (pre ++ tok ++ post)%string.
Proof.
  induction part as [|c part IH]; intro H.
  - cbn in H. discriminate.
  - cbn [EndorsementModal.matchSection] in H.
    destruct (EndorsementModal.matchSectionAt (String c part)) as [sec'|]
      eqn:E.
    + apply matchSectionAt_matchCitation in E. destruct E as [rest E].
      apply matchCitation_sound in E. destruct E as [Htok Hs].
      exists "", ("[UCC " ++ JS.sectionSign ++ sec' ++ "]")%string, rest.
      split; [exact Htok | exact Hs].
    + destruct (IH H) as (pre & tok & post & Htok & ->).
      exists (String c pre), tok, post. split; [exact Htok | reflexivity].
Qed.

Lemma renderPart_plain explanation (seg : string) :
  Plain seg ->
  EndorsementModal.renderPart explanation seg = EndorsementModal.Span seg.
Proof.
  intro Hplain. unfold EndorsementModal.renderPart.
  destruct (EndorsementModal.matchSection seg) as [sec|] eqn:E;
    [|reflexivity].
  destruct (matchSection_occurs _ _ E) as (pre & tok & post & Htok & Hs).
  exfalso. exact (Hplain pre tok post Htok Hs).
Qed.

Lemma digit_not_hyphen (a : ascii) :
  JS.isDigit a = true -> Ascii.eqb a "-" = false.
Proof.
  intro H. destruct (Ascii.eqb_spec a "-") as [->|]; [|reflexivity].
  discriminate H.
Qed.

Lemma renderPart_token explanation (a b c d : ascii) :
  JS.isDigit a = true -> JS.isDigit b = true ->
  JS.isDigit c = true -> JS.isDigit d = true ->
  let sec := String a (String "-" (String b (String c (String d "")))) in
  EndorsementModal.renderPart explanation
    ("[UCC " ++ JS.sectionSign ++ sec ++ "]")
  = EndorsementModal.CitationLink
      ("https://www.law.cornell.edu/ucc/" ++ String a "/" ++ sec)
      ("UCC " ++ JS.sectionSign ++ sec) sec
      (EndorsementModal.explanationBox explanation sec).
Proof.
  intros Ha Hb Hc Hd sec.
  assert (Htok : CitationToken ("[UCC " ++ JS.sectionSign ++ sec ++ "]")).
  { exists a, b, c, d. repeat split; assumption. }
  assert (E : EndorsementModal.matchSection
                ("[UCC " ++ JS.sectionSign ++ sec ++ "]") = Some sec).
  { assert (E1 : EndorsementModal.matchSectionAt
                   ("[UCC " ++ JS.sectionSign ++ sec ++ "]") = Some sec).
    { apply matchSectionAt_matchCitation. exists "".
      rewrite <- (append_nil_r ("[UCC " ++ JS.sectionSign ++ sec ++ "]"))
        at 1.
      apply matchCitation_token. exact Htok. }
    destruct ("[UCC " ++ JS.sectionSign ++ sec ++ "]")%string eqn:Es;
      cbn [EndorsementModal.matchSection]; rewrite E1; reflexivity. }
  unfold EndorsementModal.renderPart. rewrite E.
  subst sec. cbn [JS.splitChar]. rewrite (digit_not_hyphen a Ha).
  rewrite Ascii.eqb_refl. reflexivity.
Qed.


Lemma alternating_parts_render explanation (parts : list string) :
  Alternating parts ->
  Forall2 (RendersAs explanation) parts
          (map (EndorsementModal.renderPart explanation) parts).
Proof.
  induction 1 as [seg Hseg | seg tok rest Hseg Htok _ IH]; simpl.
  - constructor; [|constructor]. left. split; [exact Hseg|].
    apply renderPart_plain, Hseg.
  - constructor; [|constructor; [|exact IH]].
    + left. split; [exact Hseg|]. apply renderPart_plain, Hseg.
    + right. destruct Htok as (a & b & c & d & Ha & Hb & Hc & Hd & ->).
      exists a, b, c, d. split; [reflexivity|].
      exact (renderPart_token explanation a b c d Ha Hb Hc Hd).
Qed.

(** C4. For every text, [text.split(/(\[UCC §\d-\d{3}\])/g)] yields plain
    segments and citation tokens in turn -- a plain segment (possibly
    empty) first and last, each token a bracketed UCC article-and-section
    reference, no token left inside a plain segment -- and joining the
    parts in order gives back the text, character for character. *)
Theorem split_preserves_text (text : string) :
  JS.join "" (EndorsementModal.split text) = text
  /\ Alternating (EndorsementModal.split text).
Proof.
  unfold EndorsementModal.split. split.
  - apply splitFrom_join.
  - apply splitFrom_alternating, NoneStartsIn_nil.
Qed.


(* ===================================================================== *)
(** ** The resource catalogue *)
(* ===================================================================== *)


Lemma prefix_iff (q s : string) :
  String.prefix q s = true <-> exists post, s = (q ++ post)%string.
Proof.
  revert s. induction q as [|x q IH]; intros s.
  - destruct s; simpl; (split; [intros _; eexists; reflexivity | reflexivity]).
  - destruct s as [|y s]; simpl.
    + split; [discriminate | intros [post H]; discriminate].
    + destruct (ascii_dec x y) as [->|Hne].
      * rewrite IH. split; intros [post H]; exists post.
        -- now rewrite H.
        -- now inversion H.
      * split; [discriminate | intros [post H]; inversion H; congruence].
Qed.

Lemma includes_iff (s q : string) :
  JS.includes s q = true <-> exists pre post, s = (pre ++ q ++ post)%string.
Proof.
  induction s as [|c s IH]; cbn [JS.includes];
    rewrite orb_true_iff, prefix_iff.
  - split.
    + intros [[post H]|H]; [|discriminate]. exists "", post. exact H.
    + intros (pre & post & H). left. destruct pre; [|discriminate].
      exists post. exact H.
  - rewrite IH. split.
    + intros [[post H]|(pre & post & H)].
      * exists "", post. exact H.
      * exists (String c pre), post. simpl. now rewrite H.
    + intros (pre & post & H). destruct pre as [|x pre].
      * left. exists post. exact H.
      * right. exists pre, post. now inversion H.
Qed.

Lemma asciiLowerCase_app (a b : string) :
  asciiLowerCase (a ++ b) = (asciiLowerCase a ++ asciiLowerCase b)%string.
Proof. induction a as [|x a IH]; simpl; [reflexivity | now rewrite IH]. Qed.

Lemma asciiLowerCase_split (s a b : string) :
  asciiLowerCase s = (a ++ b)%string ->
  exists s1 s2, s = (s1 ++ s2)%string
                /\ asciiLowerCase s1 = a /\ asciiLowerCase s2 = b.
Proof.
  revert s. induction a as [|x a IH]; intros s H.
  - exists "", s. auto.
  - destruct s as [|y s]; [discriminate|]. simpl in H.
    inversion H as [[Hx Hr]].
    destruct (IH s Hr) as (s1 & s2 & -> & H1 & H2).
    exists (String y s1), s2. simpl. rewrite H1. auto.
Qed.

Lemma includes_lower_iff (s q : string) :
  JS.includes (asciiLowerCase s) (asciiLowerCase q) = true
  <-> CaseInsensitiveSubstring q s.
Proof.
  rewrite includes_iff. split.
  - intros (pre & post & H).
    apply asciiLowerCase_split in H. destruct H as (s1 & s23 & -> & _ & H).
    apply asciiLowerCase_split in H. destruct H as (s2 & s3 & -> & H & _).
    exists s1, s2, s3. auto.
  - intros (pre & mid & post & -> & H).
    exists (asciiLowerCase pre), (asciiLowerCase post).
    now rewrite !asciiLowerCase_app, H.
Qed.

(** X28. For a search term and a resource in the ASCII range, the filter
    keeps the resource exactly when its name, URL or category contains the
    search term up to the case of the letters. *)
Lemma filteredResources_spec (toLowerCase : string -> string)
      (rs : list LegalResources.Resource)
      (q : string) (r : LegalResources.Resource) :
  LowerCasesAscii toLowerCase ->
  isAscii q = true -> asciiResource r = true ->
  In r (LegalResources.filteredResources toLowerCase rs q)
  <-> In r rs
      /\ (CaseInsensitiveSubstring q (LegalResources.name r)
          \/ CaseInsensitiveSubstring q (LegalResources.url r)
          \/ CaseInsensitiveSubstring q (LegalResources.category r)).
Proof.
  intros Hlow Hq Hr.
  unfold LegalResources.filteredResources.
  rewrite filter_In, (matchesSearch_ascii _ _ _ Hlow Hq Hr).
  unfold LegalResources.matchesSearch.
  rewrite !orb_true_iff, !includes_lower_iff. tauto.
Qed.

Lemma filteredResources_spec_witness :
  In (LegalResources.mkResource "Black's Law Dictionary 4th Edition"
        "https://archive.org/details/blackslawdiction00blac" "Reference")
     (LegalResources.filteredResources asciiLowerCase
        LegalResources.initialResources "DICTION").
Proof.
  assert (Hsub : CaseInsensitiveSubstring "DICTION"
                   "Black's Law Dictionary 4th Edition").
  { exists "Black's Law ", "Diction", "ary 4th Edition".
    split; reflexivity. }
  assert (Hin : In (LegalResources.mkResource
                      "Black's Law Dictionary 4th Edition"
                      "https://archive.org/details/blackslawdiction00blac"
                      "Reference")
                   LegalResources.initialResources).
  { do 5 right. left. reflexivity. }
  exact (proj2 (filteredResources_spec asciiLowerCase
                  LegalResources.initialResources "DICTION"
                  (LegalResources.mkResource
                     "Black's Law Dictionary 4th Edition"
                     "https://archive.org/details/blackslawdiction00blac"
                     "Reference")
                  asciiLowerCase_law eq_refl eq_refl)
               (conj Hin (or_introl Hsub))).
Defined.

(** *** Grouping *)


Lemma hasOwn_lookup (k : string) (o : LegalResources.Obj) :
  LegalResources.hasOwn k o = true <-> lookup k o <> None.
Proof.
  induction o as [|[k' v] o IH]; simpl.
  - split; [discriminate | congruence].
  - destruct (String.eqb k' k); simpl; [split; [discriminate|reflexivity]|].
    exact IH.
Qed.

Lemma hasOwn_In (k : string) (o : LegalResources.Obj) :
  LegalResources.hasOwn k o = true <-> In k (map fst o).
Proof.
  induction o as [|[k' v] o IH]; simpl.
  - split; [discriminate | tauto].
  - rewrite orb_true_iff, String.eqb_eq, IH. tauto.
Qed.

Lemma pushOwn_keys (k : string) r (o : LegalResources.Obj) :
  map fst (LegalResources.pushOwn k r o) = map fst o.
Proof.
  induction o as [|[k' v] o IH]; simpl; [reflexivity|].
  destruct (String.eqb k' k); simpl; [reflexivity | now rewrite IH].
Qed.

Lemma lookup_pushOwn (k k0 : string) r (o : LegalResources.Obj) :
  lookup k0 (LegalResources.pushOwn k r o)
  = if String.eqb k k0
    then option_map (fun items => items ++ [r]) (lookup k0 o)
    else lookup k0 o.
Proof.
  induction o as [|[k' v] o IH]; simpl.
  - destruct (String.eqb k k0); reflexivity.
  - destruct (String.eqb_spec k' k) as [->|Hne]; simpl.
    + destruct (String.eqb_spec k k0) as [->|Hne0]; simpl;
        [reflexivity|].
      reflexivity.
    + destruct (String.eqb_spec k' k0) as [->|Hne0]; simpl.
      * destruct (String.eqb_spec k k0) as [->|]; [congruence|reflexivity].
      * exact IH.
Qed.

Lemma lookup_snoc (k k0 : string) items (o : LegalResources.Obj) :
  lookup k0 (o ++ [(k, items)])
  = match lookup k0 o with
    | Some found => Some found
    | None => if String.eqb k k0 then Some items else None
    end.
Proof.
  induction o as [|[k' v] o IH]; simpl; [reflexivity|].
  destruct (String.eqb k' k0); [reflexivity | exact IH].
Qed.

Lemma membersOf_cons (k : string) r rs :
  membersOf k (r :: rs)
  = if String.eqb (LegalResources.categoryLabel r) k
    then r :: membersOf k rs else membersOf k rs.
Proof. reflexivity. Qed.

(** A category made of white space only is filed under "Uncategorized";
    any other category under its trimmed text. *)
Lemma categoryLabel_spec (r : LegalResources.Resource) :
  (JS.trim (LegalResources.category r) = "" ->
   LegalResources.categoryLabel r = "Uncategorized")
  /\ (JS.trim (LegalResources.category r) <> "" ->
      LegalResources.categoryLabel r = JS.trim (LegalResources.category r)).
Proof.
  unfold LegalResources.categoryLabel, JS.orElse.
  destruct (JS.trim (LegalResources.category r)); simpl; split; congruence.
Qed.

(** What [reduce] computes from an accumulator none of whose keys is
    inherited. *)
Lemma reduce_spec (rs : list LegalResources.Resource) :
  forall acc : LegalResources.Obj,
    (forall r, In r rs -> ~ inheritedName (LegalResources.categoryLabel r)) ->
    NoDup (map fst acc) ->
    exists g,
      LegalResources.reduce rs acc = Ok g
      /\ NoDup (map fst g)
      /\ forall k,
           lookup k g
           = match lookup k acc with
             | Some items => Some (items ++ membersOf k rs)
             | None =>
                 match membersOf k rs with
                 | [] => None
                 | items => Some items
                 end
             end.
Proof.
  induction rs as [|r rs IH]; intros acc Hsafe Hnd.
  - exists acc. split; [reflexivity|]. split; [exact Hnd|].
    intro k. simpl. destruct (lookup k acc); [now rewrite app_nil_r|].
    reflexivity.
  - assert (Hr : JS.arrayIncludes LegalResources.objectPrototypeKeys
                   (LegalResources.categoryLabel r) = false).
    { apply arrayIncludes_not_In. apply Hsafe. left; reflexivity. }
    assert (Hrest : forall r', In r' rs ->
                      ~ inheritedName (LegalResources.categoryLabel r')).
    { intros r' Hin. apply Hsafe. right; exact Hin. }
    cbn [LegalResources.reduce]. unfold LegalResources.groupStep.
    destruct (LegalResources.hasOwn (LegalResources.categoryLabel r) acc)
      eqn:Hown.
    + destruct (IH (LegalResources.pushOwn (LegalResources.categoryLabel r)
                      r acc) Hrest) as (g & Hg & Hndg & Hlook).
      { rewrite pushOwn_keys. exact Hnd. }
      exists g. split; [exact Hg|]. split; [exact Hndg|].
      intro k. rewrite Hlook, lookup_pushOwn, membersOf_cons.
      destruct (String.eqb_spec (LegalResources.categoryLabel r) k)
        as [<-|Hne]; [|reflexivity].
      apply hasOwn_lookup in Hown.
      destruct (lookup (LegalResources.categoryLabel r) acc) as [items|];
        [|congruence].
      simpl. now rewrite <- app_assoc.
    + rewrite Hr.
      destruct (IH (acc ++ [(LegalResources.categoryLabel r, [r])]) Hrest)
        as (g & Hg & Hndg & Hlook).
      { rewrite map_app. simpl.
        apply NoDup_app; [exact Hnd | repeat constructor; simpl; tauto |].
        intros k Hin [<-|[]]. apply hasOwn_In in Hin. congruence. }
      exists g. split; [exact Hg|]. split; [exact Hndg|].
      intro k. rewrite Hlook, lookup_snoc, membersOf_cons.
      destruct (lookup k acc) as [items|] eqn:Hk.
      * destruct (String.eqb_spec (LegalResources.categoryLabel r) k)
          as [<-|Hne]; [|reflexivity].
        assert (Hn : LegalResources.hasOwn (LegalResources.categoryLabel r)
                       acc = true) by (apply hasOwn_lookup; congruence).
        congruence.
      * destruct (String.eqb (LegalResources.categoryLabel r) k);
          [reflexivity|].
        destruct (membersOf k rs); reflexivity.
Qed.

(** [reduce] throws as soon as one heading is an inherited name. *)
Lemma reduce_throws (rs : list LegalResources.Resource) :
  forall acc : LegalResources.Obj,
    (forall k, In k (map fst acc) -> ~ inheritedName k) ->
    Exists (fun r => inheritedName (LegalResources.categoryLabel r)) rs ->
    LegalResources.reduce rs acc = Thrown.
Proof.
  induction rs as [|r rs IH]; intros acc Hacc Hex; [inversion Hex|].
  cbn [LegalResources.reduce]. unfold LegalResources.groupStep.
  destruct (JS.arrayIncludes LegalResources.objectPrototypeKeys
              (LegalResources.categoryLabel r)) eqn:Hr.
  - apply arrayIncludes_In in Hr.
    destruct (LegalResources.hasOwn (LegalResources.categoryLabel r) acc)
      eqn:Hown; [|reflexivity].
    apply hasOwn_In in Hown. exfalso. exact (Hacc _ Hown Hr).
  - assert (Hrest : Exists (fun r => inheritedName
                                       (LegalResources.categoryLabel r)) rs).
    { inversion Hex as [? ? Hhd|? ? Htl]; subst; [|exact Htl].
      unfold inheritedName in Hhd. apply arrayIncludes_In in Hhd.
      rewrite Hr in Hhd. discriminate Hhd. }
    destruct (LegalResources.hasOwn (LegalResources.categoryLabel r) acc)
      eqn:Hown.
    + apply IH; [|exact Hrest]. rewrite pushOwn_keys. exact Hacc.
    + apply IH; [|exact Hrest]. intros k Hin.
      rewrite map_app in Hin. apply in_app_or in Hin.
      destruct Hin as [Hin|[Heq|[]]]; [exact (Hacc _ Hin)|].
      simpl in Heq. subst k.
      intro Hk. unfold inheritedName in Hk. apply arrayIncludes_In in Hk.
      rewrite Hr in Hk. discriminate Hk.
Qed.

(** *** Sorting *)

Section SortFacts.
Variable A : Type.
Variable le : A -> A -> bool.
Hypothesis le_total : forall a b, le a b = false -> le b a = true.

Lemma insert_perm (x : A) (l : list A) :
  Permutation (x :: l) (LegalResources.insert le x l).
Proof.
  induction l as [|y l IH]; simpl; [reflexivity|].
  destruct (le x y); [reflexivity|].
  rewrite perm_swap. now constructor.
Qed.

Lemma stableSort_perm (l : list A) :
  Permutation l (LegalResources.stableSort le l).
Proof.
  induction l as [|x l IH]; simpl; [reflexivity|].
  rewrite <- insert_perm. now constructor.
Qed.

Lemma insert_sorted (x : A) (l : list A) :
  Sorted (fun a b => le a b = true) l ->
  Sorted (fun a b => le a b = true) (LegalResources.insert le x l).
Proof.
  induction 1 as [|y l Hs IH Hhd]; simpl.
  - repeat constructor.
  - destruct (le x y) eqn:E.
    + constructor; [constructor; assumption|]. constructor. exact E.
    + constructor; [exact IH|].
      destruct l as [|z l]; simpl.
      * constructor. exact (le_total _ _ E).
      * destruct (le x z); constructor.
        -- exact (le_total _ _ E).
        -- inversion Hhd; assumption.
Qed.

Lemma stableSort_sorted (l : list A) :
  Sorted (fun a b => le a b = true) (LegalResources.stableSort le l).
Proof.
  induction l as [|x l IH]; simpl; [constructor|].
  apply insert_sorted, IH.
Qed.

End SortFacts.

(** *** The rendered list *)

Lemma filter_split_perm {A} (p : A -> bool) (l : list A) :
  Permutation l (filter p l ++ filter (fun x => negb (p x)) l).
Proof.
  induction l as [|x l IH]; simpl; [reflexivity|].
  destruct (p x); simpl.
  - now constructor.
  - apply Permutation_cons_app. exact IH.
Qed.

Lemma entries_perm (o : LegalResources.Obj) :
  Permutation o (LegalResources.entries o).
Proof.
  unfold LegalResources.entries.
  rewrite <- stableSort_perm. apply filter_split_perm.
Qed.

Lemma lookup_In (o : LegalResources.Obj) (k : string) items :
  NoDup (map fst o) -> (In (k, items) o <-> lookup k o = Some items).
Proof.
  induction o as [|[k' v] o IH]; simpl; intro Hnd.
  - split; [tauto | discriminate].
  - inversion Hnd as [|? ? Hnotin Hnd']; subst.
    destruct (String.eqb_spec k' k) as [->|Hne].
    + split.
      * intros [H|H]; [now inversion H|].
        exfalso. apply Hnotin. change k with (fst (k, items)).
        now apply in_map.
      * intro H. inversion H. now left.
    + rewrite <- (IH Hnd'). split.
      * intros [H|H]; [inversion H; congruence | exact H].
      * intro H. now right.
Qed.

Section RenderFacts.

Variable toLowerCase : string -> string.
Variable localeCompare : string -> string -> Z.

(** The collation is total: of two labels one does not come after the
    other. *)
Hypothesis localeCompare_total :
  forall a b, (localeCompare a b > 0 -> localeCompare b a <= 0)%Z.


Lemma sort_entries_sorted (l : list (string * list LegalResources.Resource)) :
  Sorted (inOrder localeCompare)
    (LegalResources.stableSort (LegalResources.compareEntries localeCompare)
       l).
Proof.
  assert (H : Sorted (fun a b => LegalResources.compareEntries
                                   localeCompare a b = true)
                (LegalResources.stableSort
                   (LegalResources.compareEntries localeCompare) l)).
  { apply stableSort_sorted. intros a b.
    unfold LegalResources.compareEntries. rewrite Z.leb_gt, Z.leb_le.
    intro Hab. apply localeCompare_total. lia. }
  induction H as [|x xs Hs IH Hhd]; constructor; [exact IH|].
  destruct Hhd as [|y ys Hxy]; constructor.
  unfold inOrder. unfold LegalResources.compareEntries in Hxy.
  now apply Z.leb_le.
Qed.

(** X29. The list area, for a search whose headings avoid the inherited
    names: the empty-state message when nothing matches; otherwise one
    section per heading, each holding the matching resources filed under
    it in their original order, the sections in collation order. *)
Lemma render_spec (rs : list LegalResources.Resource) (q : string) :
  let filtered := LegalResources.filteredResources toLowerCase rs q in
  (forall r, In r filtered ->
             ~ inheritedName (LegalResources.categoryLabel r)) ->
  (filtered = [] ->
   LegalResources.render toLowerCase localeCompare rs q = Ok LegalResources.EmptyState)
  /\
  (filtered <> [] ->
   exists sections,
     LegalResources.render toLowerCase localeCompare rs q
     = Ok (LegalResources.Groups sections)
     /\ Sorted (inOrder localeCompare) sections
     /\ NoDup (map fst sections)
     /\ forall k items,
          In (k, items) sections
          <-> items <> [] /\ items = membersOf k filtered).
Proof.
  intros filtered Hsafe. unfold LegalResources.render,
    LegalResources.groupedResources. fold filtered.
  split.
  - intros ->. reflexivity.
  - intro Hne.
    destruct (reduce_spec filtered [] Hsafe (NoDup_nil _))
      as (g & Hg & Hnd & Hlook).
    rewrite Hg. cbn [lookup] in Hlook.
    assert (Hin : forall k items,
               In (k, items) g
               <-> items <> [] /\ items = membersOf k filtered).
    { intros k items. rewrite (lookup_In g k items Hnd), Hlook.
      destruct (membersOf k filtered) as [|m ms].
      - split; [discriminate | intros [H1 H2]; congruence].
      - split.
        + intro H; inversion H; subst. split; [discriminate|reflexivity].
        + intros [_ ->]. reflexivity. }
    assert (Hg_ne : g <> []).
    { destruct filtered as [|r rest] eqn:Ef; [congruence|].
      intro Hnil.
      assert (Hr : In (LegalResources.categoryLabel r,
                       membersOf (LegalResources.categoryLabel r) (r :: rest))
                      g).
      { apply Hin. split; [|reflexivity].
        rewrite membersOf_cons, String.eqb_refl. discriminate. }
      rewrite Hnil in Hr. exact Hr. }
    pose proof (entries_perm g) as Hperm.
    exists (LegalResources.stableSort
              (LegalResources.compareEntries localeCompare)
              (LegalResources.entries g)).
    split.
    + unfold LegalResources.renderGroups.
      rewrite length_map, <- (Permutation_length Hperm).
      destruct g; [congruence | reflexivity].
    + pose proof (stableSort_perm _
                    (LegalResources.compareEntries localeCompare)
                    (LegalResources.entries g)) as Hperm2.
      split; [apply sort_entries_sorted|]. split.
      * apply (Permutation_NoDup (l := map fst g)); [|exact Hnd].
        apply Permutation_map. now rewrite <- Hperm2.
      * intros k items. rewrite <- Hin. split; intro H.
        -- apply (Permutation_in _ (Permutation_sym Hperm)).
           apply (Permutation_in _ (Permutation_sym Hperm2)). exact H.
        -- apply (Permutation_in _ Hperm2).
           apply (Permutation_in _ Hperm). exact H.
Qed.

(** A matching resource whose heading is an inherited name makes the
    rendering throw. *)
Lemma render_throws (rs : list LegalResources.Resource) (q : string) :
  Exists (fun r => inheritedName (LegalResources.categoryLabel r))
         (LegalResources.filteredResources toLowerCase rs q) ->
  LegalResources.render toLowerCase localeCompare rs q = Thrown.
Proof.
  intro Hex. unfold LegalResources.render, LegalResources.groupedResources.
  rewrite (reduce_throws _ [] (fun k H => match H with end) Hex).
  reflexivity.
Qed.

End RenderFacts.

(** C6 at the input where the code departs from it.  A resource filed
    under the category "constructor" is added through the form and matches
    the empty search term, so it belongs to the filtered result; but
    grouping reads [acc["constructor"]], finds the function inherited from
    [Object.prototype] instead of an array, and the call of [push] throws:
    nothing is rendered, neither the new resource's group nor the seeded
    ones.  This holds for any collation and for any [toLowerCase] that
    lower-cases ASCII text as every engine does. *)
Theorem inherited_category_breaks_rendering
        (toLowerCase : string -> string)
        (localeCompare : string -> string -> Z) :
  LowerCasesAscii toLowerCase ->
  let added := LegalResources.mkResource "Mechanics' liens"
                 "https://example.org/liens" "constructor" in
  let s := LegalResources.handleAddResource
             (LegalResources.mkState LegalResources.initialResources ""
                added) in
  LegalResources.resources s = LegalResources.initialResources ++ [added]
  /\ In added
        (LegalResources.filteredResources toLowerCase
           (LegalResources.resources s) (LegalResources.searchTerm s))
  /\ LegalResources.render toLowerCase localeCompare
       (LegalResources.resources s) (LegalResources.searchTerm s)
     = Thrown.
Proof.
  intros Hlow added s. split; [reflexivity|].
  rewrite (filteredResources_ascii toLowerCase)
    by (exact Hlow || reflexivity).
  rewrite (render_ascii toLowerCase) by (exact Hlow || reflexivity).
  split.
  - vm_compute. do 6 right. left. reflexivity.
  - reflexivity.
Qed.

Lemma inherited_category_breaks_rendering_witness :
  LegalResources.render asciiLowerCase codeUnitCompare
    (LegalResources.initialResources
     ++ [LegalResources.mkResource "Mechanics' liens"
           "https://example.org/liens" "constructor"])
    ""
  = Thrown.
Proof.
  exact (proj2 (proj2 (inherited_category_breaks_rendering asciiLowerCase
                         codeUnitCompare asciiLowerCase_law))).
Defined.

(* ===================================================================== *)
(** * Further properties *)
(* ===================================================================== *)

(** ** Data URLs *)

Lemma splitChar_no_separator (sep : ascii) (s : string) :
  allChars (fun c => negb (Ascii.eqb c sep)) s = true ->
  JS.splitChar sep s = [s].
Proof.
  induction s as [|c s IH]; simpl; intro H; [reflexivity|].
  apply andb_true_iff in H. destruct H as [Hc Hs].
  apply negb_true_iff in Hc. rewrite Hc, (IH Hs). reflexivity.
Qed.

Lemma splitChar_at_separator (sep : ascii) (a b : string) :
  allChars (fun c => negb (Ascii.eqb c sep)) a = true ->
  JS.splitChar sep (a ++ String sep b) = a :: JS.splitChar sep b.
Proof.
  induction a as [|c a IH]; simpl; intro H.
  - rewrite Ascii.eqb_refl. reflexivity.
  - apply andb_true_iff in H. destruct H as [Hc Ha].
    apply negb_true_iff in Hc. rewrite Hc, (IH Ha). reflexivity.
Qed.

Lemma splitChar_parts_clean (sep : ascii) (s : string) :
  Forall (fun part => allChars (fun c => negb (Ascii.eqb c sep)) part = true)
         (JS.splitChar sep s).
Proof.
  induction s as [|c s IH]; simpl.
  - repeat constructor.
  - destruct (Ascii.eqb c sep) eqn:E.
    + constructor; [reflexivity | exact IH].
    + destruct (JS.splitChar sep s) as [|h t].
      * repeat constructor. simpl. now rewrite E.
      * inversion IH; subst. constructor; [|assumption].
        simpl. rewrite E. simpl. assumption.
Qed.

Lemma allChars_app (p : ascii -> bool) (a b : string) :
  allChars p (a ++ b) = allChars p a && allChars p b.
Proof.
  induction a as [|c a IH]; simpl; [reflexivity|].
  now rewrite IH, andb_assoc.
Qed.

Lemma allChars_weaken (p q : ascii -> bool) (s : string) :
  (forall c, p c = true -> q c = true) ->
  allChars p s = true -> allChars q s = true.
Proof.
  intro Hpq. induction s as [|c s IH]; simpl; [reflexivity|].
  rewrite !andb_true_iff. intros [Hc Hs]. split; auto.
Qed.

(** *** Line terminators *)

Lemma prefix_before (x : ascii) (t a b : string) :
  allChars (fun c => negb (Ascii.eqb c x)) t = true ->
  String.prefix t (a ++ String x b) = String.prefix t a.
Proof.
  revert a. induction t as [|c t IH]; intros a H.
  - destruct a; reflexivity.
  - cbn in H. apply andb_true_iff in H. destruct H as [Hc Ht].
    apply negb_true_iff, Ascii.eqb_neq in Hc.
    destruct a as [|c' a]; cbn.
    + destruct (ascii_dec c x); [contradiction | reflexivity].
    + destruct (ascii_dec c c'); [exact (IH a Ht) | reflexivity].
Qed.

Lemma lineTerminators_no_semicolon :
  Forall (fun t => allChars notSemicolon t = true) JS.lineTerminators.
Proof. repeat constructor. Qed.

Lemma startsWithLineTerminator_before (a b : string) :
  JS.startsWithLineTerminator (a ++ String ";" b)
  = JS.startsWithLineTerminator a.
Proof.
  unfold JS.startsWithLineTerminator.
  induction lineTerminators_no_semicolon as [|t ts Ht _ IH];
    [reflexivity|].
  cbn [existsb]. now rewrite IH, (prefix_before ";" t a b Ht).
Qed.

Lemma noLineTerminator_cons (c : ascii) (r : string) :
  noLineTerminator (String c r)
  = negb (JS.startsWithLineTerminator (String c r)) && noLineTerminator r.
Proof.
  unfold noLineTerminator, JS.startsWithLineTerminator.
  induction JS.lineTerminators as [|t ts IH]; [reflexivity|].
  cbn [forallb existsb]. rewrite IH. cbn [JS.includes].
  destruct (String.prefix t (String c r)), (JS.includes r t),
    (existsb (fun t0 => String.prefix t0 (String c r)) ts); reflexivity.
Qed.

Lemma lazyUntilSemicolon_finds (m rest : string) :
  allChars notSemicolon m = true -> noLineTerminator m = true ->
  DataUrl.lazyUntilSemicolon (m ++ String ";" rest) = Some m.
Proof.
  induction m as [|c m IH]; intros Hs Hl; [reflexivity|].
  cbn in Hs. apply andb_true_iff in Hs. destruct Hs as [Hc Hs].
  apply negb_true_iff in Hc.
  rewrite noLineTerminator_cons in Hl. apply andb_true_iff in Hl.
  destruct Hl as [Hstart Hl]. apply negb_true_iff in Hstart.
  change (String c m ++ String ";" rest)%string
    with (String c (m ++ String ";" rest)).
  cbn [DataUrl.lazyUntilSemicolon]. rewrite Hc.
  change (String c (m ++ String ";" rest))
    with (String c m ++ String ";" rest)%string.
  rewrite startsWithLineTerminator_before, Hstart, (IH Hs Hl). reflexivity.
Qed.

(** What [.*?;] matches is followed by the semicolon and holds neither a
    semicolon nor a line terminator. *)
Lemma lazyUntilSemicolon_clean (s m : string) :
  DataUrl.lazyUntilSemicolon s = Some m ->
  allChars notSemicolon m = true /\ noLineTerminator m = true
  /\ exists rest, s = (m ++ String ";" rest)%string.
Proof.
  revert m. induction s as [|c s IH]; intros m H; [discriminate|].
  cbn [DataUrl.lazyUntilSemicolon] in H.
  destruct (Ascii.eqb c ";") eqn:Es.
  - inversion H; subst. apply Ascii.eqb_eq in Es. subst c.
    split; [reflexivity|]. split; [reflexivity|]. exists s. reflexivity.
  - destruct (JS.startsWithLineTerminator (String c s)) eqn:El;
      [discriminate|].
    destruct (DataUrl.lazyUntilSemicolon s) as [m'|]; [|discriminate].
    inversion H; subst.
    destruct (IH m' eq_refl) as (Hs & Hl & rest & ->).
    change (String c (m' ++ String ";" rest))
      with (String c m' ++ String ";" rest)%string in El.
    rewrite startsWithLineTerminator_before in El.
    split; [cbn; unfold notSemicolon at 1; now rewrite Es|].
    split; [now rewrite noLineTerminator_cons, El|].
    exists rest. reflexivity.
Qed.

(** The capture of [/:(.*?);/] stands between a colon and a semicolon of
    the header. *)
Lemma matchMimeType_clean (header m : string) :
  DataUrl.matchMimeType header = Some m ->
  allChars notSemicolon m = true /\ noLineTerminator m = true
  /\ exists pre rest,
       header = (pre ++ String ":" (m ++ String ";" rest))%string.
Proof.
  induction header as [|c h IH]; cbn [DataUrl.matchMimeType]; intro H;
    [discriminate|].
  assert (Later : DataUrl.matchMimeType h = Some m ->
            allChars notSemicolon m = true /\ noLineTerminator m = true
            /\ exists pre rest,
                 String c h = (pre ++ String ":" (m ++ String ";" rest))%string).
  { intro H'. destruct (IH H') as (Hs & Hl & pre & rest & ->).
    split; [exact Hs|]. split; [exact Hl|].
    exists (String c pre), rest. reflexivity. }
  destruct (Ascii.eqb c ":") eqn:Ec; [|exact (Later H)].
  destruct (DataUrl.lazyUntilSemicolon h) as [m'|] eqn:E; [|exact (Later H)].
  inversion H; subst. apply Ascii.eqb_eq in Ec. subst c.
  destruct (lazyUntilSemicolon_clean _ _ E) as (Hs & Hl & rest & ->).
  split; [exact Hs|]. split; [exact Hl|]. exists "", rest. reflexivity.
Qed.

(** X1. A data URL made of a media type and a base64 payload is read back
    as exactly that pair: [dataUrl.split(',')] and [header.match(/:(.*?);/)]
    recover the media type and the payload, provided both are non-empty,
    the media type holds no comma, semicolon or line terminator (LF, CR,
    U+2028, U+2029) and the payload holds no comma. *)
Theorem dataUrl_parse_roundtrip (mimeType base64Data : string) :
  mimeType <> "" -> base64Data <> "" ->
  mediaType mimeType = true ->
  allChars notComma base64Data = true ->
  DataUrl.parse (dataUrlOf mimeType base64Data)
  = Some (mimeType, base64Data).
Proof.
  intros Hm Hd Hmc Hdc. unfold mediaType in Hmc.
  apply andb_true_iff in Hmc. destruct Hmc as [Hmc Hlt].
  apply andb_true_iff in Hmc. destruct Hmc as [Hcomma Hsemi].
  assert (Hhead : allChars (fun c => negb (Ascii.eqb c ","))
                    ("data:" ++ mimeType ++ ";base64") = true).
  { rewrite !allChars_app, andb_true_iff. split; [reflexivity|].
    rewrite andb_true_iff. split; [exact Hcomma | reflexivity]. }
  assert (Hurl : dataUrlOf mimeType base64Data
                 = (("data:" ++ mimeType ++ ";base64")
                    ++ String "," base64Data)%string).
  { unfold dataUrlOf. rewrite !append_assoc. reflexivity. }
  assert (Hmime : DataUrl.matchMimeType ("data:" ++ mimeType ++ ";base64")
                  = Some mimeType).
  { cbn [append DataUrl.matchMimeType]. simpl Ascii.eqb. cbv iota.
    now rewrite (lazyUntilSemicolon_finds _ _ Hsemi Hlt). }
  unfold DataUrl.parse.
  replace (JS.truthy (dataUrlOf mimeType base64Data)) with true
    by reflexivity.
  cbv [negb]. rewrite Hurl, (splitChar_at_separator _ _ _ Hhead).
  rewrite (splitChar_no_separator _ _ Hdc).
  cbn [nth nth_error]. rewrite Hmime.
  apply truthy_true_iff in Hm, Hd. rewrite Hm, Hd. reflexivity.
Qed.

Lemma dataUrl_parse_roundtrip_witness :
  DataUrl.parse (dataUrlOf "image/png" "iVBORw0KGgo=")
  = Some ("image/png", "iVBORw0KGgo=").
Proof.
  exact (dataUrl_parse_roundtrip "image/png" "iVBORw0KGgo="
           ltac:(discriminate) ltac:(discriminate) eq_refl eq_refl).
Defined.

(** A media type that holds the line separator U+2028 is refused: the
    dot of [/:(.*?);/] does not match it. *)
Remark line_separator_in_media_type_is_refused :
  mediaType ("image/png" ++ JS.utf8 8232) = false
  /\ DataUrl.parse (dataUrlOf ("image/png" ++ JS.utf8 8232) "iVBORw0KGgo=")
     = None.
Proof. split; reflexivity. Qed.

(** X2. Whatever data URL the file reader delivers, a pair the handlers
    accept has a non-empty media type and a non-empty payload; the payload
    is the text between the first and the second comma (so it holds no
    comma), and the media type is the capture of [/:(.*?);/] in the text
    before the first comma: it stands there between a colon and a
    semicolon, and holds no comma, no semicolon and no line terminator
    (LF, CR, U+2028, U+2029). *)
Theorem dataUrl_parse_sound (dataUrl mimeType base64Data : string) :
  DataUrl.parse dataUrl = Some (mimeType, base64Data) ->
  mimeType <> "" /\ base64Data <> ""
  /\ allChars notComma base64Data = true
  /\ mediaType mimeType = true
  /\ exists header rest,
       JS.splitChar "," dataUrl = header :: base64Data :: rest
       /\ DataUrl.matchMimeType header = Some mimeType
       /\ exists before after,
            header
            = (before ++ String ":" (mimeType ++ String ";" after))%string.
Proof.
  unfold DataUrl.parse. intro H.
  destruct (JS.truthy dataUrl); [|discriminate]. cbv [negb] in H.
  pose proof (splitChar_parts_clean "," dataUrl) as Hclean.
  destruct (JS.splitChar "," dataUrl) as [|header [|d rest]];
    cbn [nth nth_error] in H.
  - destruct (DataUrl.matchMimeType ""); discriminate.
  - destruct (DataUrl.matchMimeType header); discriminate.
  - destruct (DataUrl.matchMimeType header) as [m|] eqn:Em; [|discriminate].
    destruct (JS.truthy m) eqn:Tm; [|discriminate].
    destruct (JS.truthy d) eqn:Td; [|discriminate].
    cbn in H. inversion H; subst.
    inversion Hclean as [|? ? Hheader Hrest]; subst.
    destruct (matchMimeType_clean _ _ Em) as (Hs & Hl & pre & post & Eh).
    split; [now apply truthy_true_iff|].
    split; [now apply truthy_true_iff|].
    split; [inversion Hrest; subst; assumption|].
    split.
    { unfold mediaType. rewrite Hs, Hl, !andb_true_r.
      rewrite Eh in Hheader.
      change (String ":" (mimeType ++ String ";" post))
        with (":" ++ mimeType ++ String ";" post)%string in Hheader.
      rewrite !allChars_app, !andb_true_iff in Hheader.
      exact (proj1 (proj2 (proj2 Hheader))). }
    exists header, rest. split; [reflexivity|]. split; [exact Em|].
    exists pre, post. exact Eh.
Qed.

Lemma dataUrl_parse_sound_witness :
  mediaType "application/pdf" = true.
Proof.
  exact (proj1 (proj2 (proj2 (proj2
           (dataUrl_parse_sound "data:application/pdf;base64,JVBERi0x"
              "application/pdf" "JVBERi0x" eq_refl))))).
Defined.

(** ** An accepted upload *)

(** X3. A selection whose first file has an allowed type is accepted on
    both upload screens whatever the other files are: that file is stored,
    the error and the previous analysis (and letter) are cleared, the
    loading flags keep their values, and the analyze button is enabled
    unless a request is in flight; on the vehicle screen the letter button
    is not rendered. *)
Theorem accepted_upload_is_stored (f : File) (others : list File) :
  In (fileType f) mimeAllowList ->
  (forall s,
      let s' := InstrumentProcessor.handleFileChange (Some (f :: others)) s in
      s' = InstrumentProcessor.mkState (Some f) ""
             (InstrumentProcessor.isLoading s) None
      /\ InstrumentProcessor.analyzeDisabled s'
         = InstrumentProcessor.isLoading s)
  /\
  (forall s,
      let s' :=
        VehicleFinancingAnalysis.handleFileChange (Some (f :: others)) s in
      s' = VehicleFinancingAnalysis.mkState (Some f) ""
             (VehicleFinancingAnalysis.isLoading s) None ""
             (VehicleFinancingAnalysis.isGenerating s)
      /\ VehicleFinancingAnalysis.analyzeDisabled s'
         = VehicleFinancingAnalysis.isLoading s
      /\ VehicleFinancingAnalysis.remedyRendered s' = false).
Proof.
  intro Hin. split; intros s s'; subst s'.
  - unfold InstrumentProcessor.handleFileChange.
    rewrite (proj2 (instrument_allowed_iff _) Hin). destruct s.
    repeat split.
  - unfold VehicleFinancingAnalysis.handleFileChange.
    rewrite (proj2 (vehicle_allowed_iff _) Hin). destruct s.
    repeat split.
Qed.

Lemma accepted_upload_is_stored_witness :
  InstrumentProcessor.handleFileChange (Some [contractFile; textFile])
    InstrumentProcessor.initialState
  = InstrumentProcessor.mkState (Some contractFile) "" false None.
Proof.
  exact (proj1 (proj1 (accepted_upload_is_stored contractFile [textFile]
                         (or_introl eq_refl))
                  InstrumentProcessor.initialState)).
Defined.

(** ** Analysis from upload to result *)

(** X4. With nothing else happening meanwhile, a stored file whose data
    URL parses and whose request resolves yields exactly one request -- the
    screen's prompt followed by the parsed media type and payload, to
    gemini-2.5-pro -- and a final state that keeps the file, shows the
    returned text, has no error and is no longer loading (the vehicle
    screen also ends with an empty letter). *)
Theorem analyze_success (service : Request -> Outcome)
        (reader : File -> ReadResult) (f : File)
        (dataUrl mimeType base64Data text : string) :
  reader f = Loaded dataUrl ->
  DataUrl.parse dataUrl = Some (mimeType, base64Data) ->
  (forall s,
      InstrumentProcessor.file s = Some f ->
      service (instrumentRequest mimeType base64Data) = Resolved text ->
      let r := run (InstrumentProcessor.handleAnalyze s)
                   (atRest service reader) s in
      requests (events r) = [instrumentRequest mimeType base64Data]
      /\ finalState r
         = InstrumentProcessor.mkState (Some f) text false None)
  /\
  (forall s,
      VehicleFinancingAnalysis.file s = Some f ->
      service (contractRequest mimeType base64Data) = Resolved text ->
      let r := run (VehicleFinancingAnalysis.handleAnalyze s)
                   (atRest service reader) s in
      requests (events r) = [contractRequest mimeType base64Data]
      /\ finalState r
         = VehicleFinancingAnalysis.mkState (Some f) text false None ""
             (VehicleFinancingAnalysis.isGenerating s)).
Proof.
  intros Hread Hparse. split; intros s Hf Hs r; subst r;
    destruct s; cbn in Hf; subst.
  - unfold InstrumentProcessor.handleAnalyze. run_handler.
    cbn [readFile atRest InstrumentProcessor.file]. rewrite Hread, Hparse.
    unfold instrumentRequest in Hs. cbn [generate atRest].
    rewrite Hs. split; reflexivity.
  - unfold VehicleFinancingAnalysis.handleAnalyze,
      VehicleFinancingAnalysis.fileToGenerativePart. run_handler.
    cbn [readFile atRest VehicleFinancingAnalysis.file].
    rewrite Hread, Hparse.
    unfold contractRequest in Hs. cbn [generate atRest].
    rewrite Hs. split; reflexivity.
Qed.

Lemma analyze_success_witness :
  finalState (run (InstrumentProcessor.handleAnalyze instrumentOnScreen)
                  (atRest (answering "A promissory note.") readingPdf)
                  instrumentOnScreen)
  = InstrumentProcessor.mkState (Some contractFile) "A promissory note."
      false None.
Proof.
  exact (proj2 (proj1 (analyze_success (answering "A promissory note.")
                         readingPdf contractFile
                         "data:application/pdf;base64,JVBERi0x"
                         "application/pdf" "JVBERi0x" "A promissory note."
                         eq_refl eq_refl)
                  instrumentOnScreen eq_refl eq_refl)).
Defined.

Ltac at_rest_cases service reader f :=
  cbv [atRest]; run_handler; cbn [readFile generate meanwhile];
  destruct (reader f) as [|?url] eqn:?; cbn;
  [| match goal with
     | |- context [DataUrl.parse ?u] =>
         destruct (DataUrl.parse u) as [[?mime ?data]|] eqn:?; cbn;
         [ match goal with
           | |- context [service ?req] =>
               destruct (service req) eqn:?; cbn
           end
         | ]
     end ].

(** X5. With nothing else happening meanwhile, an analysis that ends
    with an error shows no analysis text.  When the file cannot be read, or
    its data URL does not parse, no request is sent at all; the instrument
    screen then reports the read failure and the parse failure with
    different messages, the vehicle screen with the same one. *)
Theorem analyze_failure_keeps_no_result (service : Request -> Outcome)
        (reader : File -> ReadResult) (f : File) :
  (forall s,
      InstrumentProcessor.file s = Some f ->
      let r := run (InstrumentProcessor.handleAnalyze s)
                   (atRest service reader) s in
      (InstrumentProcessor.error (finalState r) <> None ->
       InstrumentProcessor.analysis (finalState r) = "")
      /\ (reader f = ReadError ->
          requests (events r) = []
          /\ InstrumentProcessor.error (finalState r)
             = Some InstrumentProcessor.readFailedMessage)
      /\ (forall dataUrl,
             reader f = Loaded dataUrl -> DataUrl.parse dataUrl = None ->
             requests (events r) = []
             /\ InstrumentProcessor.error (finalState r)
                = Some InstrumentProcessor.analyzeFailedMessage))
  /\
  (forall s,
      VehicleFinancingAnalysis.file s = Some f ->
      let r := run (VehicleFinancingAnalysis.handleAnalyze s)
                   (atRest service reader) s in
      (VehicleFinancingAnalysis.error (finalState r) <> None ->
       VehicleFinancingAnalysis.analysis (finalState r) = "")
      /\ ((reader f = ReadError
           \/ exists dataUrl, reader f = Loaded dataUrl
                              /\ DataUrl.parse dataUrl = None) ->
          requests (events r) = []
          /\ VehicleFinancingAnalysis.error (finalState r)
             = Some VehicleFinancingAnalysis.analyzeFailedMessage)).
Proof.
  split; intros s Hf r; subst r; destruct s; cbn in Hf; subst.
  - unfold InstrumentProcessor.handleAnalyze.
    cbn [InstrumentProcessor.file].
    at_rest_cases service reader f; repeat (split || intro);
      repeat match goal with
      | H : _ \/ _ |- _ => destruct H
      | H : exists _, _ |- _ => destruct H
      | H : _ /\ _ |- _ => destruct H
      end; congruence.
  - unfold VehicleFinancingAnalysis.handleAnalyze,
      VehicleFinancingAnalysis.fileToGenerativePart.
    cbn [VehicleFinancingAnalysis.file].
    at_rest_cases service reader f; repeat (split || intro);
      repeat match goal with
      | H : _ \/ _ |- _ => destruct H
      | H : exists _, _ |- _ => destruct H
      | H : _ /\ _ |- _ => destruct H
      end; congruence.
Qed.

(** ** What the upload screens never show *)

Ltac finish_consistent :=
  cbn; repeat (split || intro); cbn in *;
  try congruence;
  try (match goal with H : ?x <> ?x |- _ => exfalso; apply H; reflexivity end).

Lemma instrumentStep_consistent s ev :
  instrumentConsistent s -> instrumentConsistent (instrumentStep s ev).
Proof.
  destruct s as [file analysis isLoading error]. intro Hs.
  pose proof Hs as (Hl & Hf & Ha).
  cbn [InstrumentProcessor.file InstrumentProcessor.analysis
       InstrumentProcessor.isLoading InstrumentProcessor.error]
    in Hl, Hf, Ha.
  subst isLoading.
  destruct ev as [files | service reader]; cbn [instrumentStep].
  - unfold InstrumentProcessor.handleFileChange.
    destruct files as [[|g others]|]; try exact Hs.
    destruct (JS.arrayIncludes InstrumentProcessor.allowedTypes (fileType g))
      eqn:E; cbn.
    + apply instrument_allowed_iff in E.
      finish_consistent;
        try (match goal with
             | H : Some _ = Some _ |- _ => inversion H; subst
             end; exact E).
    + finish_consistent.
  - unfold InstrumentProcessor.handleAnalyze.
    cbn [InstrumentProcessor.file].
    destruct file as [f|]; [|exact Hs].
    at_rest_cases service reader f; finish_consistent;
      try (apply Hf; congruence).
Qed.

(** X6. After any sequence of file selections and completed analyses
    from the initial state, the instrument screen is not loading, a stored
    file has an allowed type, and an analysis is shown only while a file is
    stored and never beside an error. *)
Theorem instrument_screen_consistent (evs : list InstrumentEvent) :
  instrumentConsistent
    (fold_left instrumentStep evs InstrumentProcessor.initialState).
Proof.
  assert (H0 : instrumentConsistent InstrumentProcessor.initialState).
  { finish_consistent. }
  revert H0. generalize InstrumentProcessor.initialState.
  induction evs as [|ev evs IH]; intros s Hs; [exact Hs|].
  cbn [fold_left]. apply IH, instrumentStep_consistent, Hs.
Qed.

Lemma vehicleStep_consistent s ev :
  vehicleConsistent s -> vehicleConsistent (vehicleStep s ev).
Proof.
  destruct s as [file analysis isLoading error letter isGenerating].
  intro Hs. pose proof Hs as (Hl & Hg & Hf & Ha & Hr).
  cbn [VehicleFinancingAnalysis.file VehicleFinancingAnalysis.analysis
       VehicleFinancingAnalysis.isLoading VehicleFinancingAnalysis.error
       VehicleFinancingAnalysis.remedyLetter
       VehicleFinancingAnalysis.isGenerating] in Hl, Hg, Hf, Ha, Hr.
  subst isLoading isGenerating.
  destruct ev as [files | service reader | service]; cbn [vehicleStep].
  - unfold VehicleFinancingAnalysis.handleFileChange.
    destruct files as [[|g others]|]; try exact Hs.
    destruct (JS.arrayIncludes VehicleFinancingAnalysis.allowedTypes
                (fileType g)) eqn:E; cbn.
    + apply vehicle_allowed_iff in E.
      finish_consistent;
        try (match goal with
             | H : Some _ = Some _ |- _ => inversion H; subst
             end; exact E).
    + finish_consistent.
  - unfold VehicleFinancingAnalysis.handleAnalyze,
      VehicleFinancingAnalysis.fileToGenerativePart.
    cbn [VehicleFinancingAnalysis.file].
    destruct file as [f|]; [|exact Hs].
    at_rest_cases service reader f; finish_consistent;
      try (apply Hf; congruence).
  - unfold VehicleFinancingAnalysis.handleGenerateRemedy.
    cbn [VehicleFinancingAnalysis.analysis].
    destruct (JS.truthy analysis) eqn:Ta; cbn [negb];
      [|exact Hs].
    apply truthy_true_iff in Ta.
    cbv [atRest]; run_handler; cbn [generate meanwhile].
    match goal with
    | |- context [service ?req] => destruct (service req)
    end; finish_consistent; auto; try (eapply Ha; eassumption).
Qed.

(** X7. After any sequence of file selections, completed analyses and
    completed letter requests from the initial state, the vehicle screen is
    neither loading nor generating, a stored file has an allowed type, an
    analysis is shown only while a file is stored, and a letter is shown
    only beside an analysis. *)
Theorem vehicle_screen_consistent (evs : list VehicleEvent) :
  vehicleConsistent
    (fold_left vehicleStep evs VehicleFinancingAnalysis.initialState).
Proof.
  assert (H0 : vehicleConsistent VehicleFinancingAnalysis.initialState).
  { finish_consistent. }
  revert H0. generalize VehicleFinancingAnalysis.initialState.
  induction evs as [|ev evs IH]; intros s Hs; [exact Hs|].
  cbn [fold_left]. apply IH, vehicleStep_consistent, Hs.
Qed.

(** ** A response that arrives late *)

(** X8. Nothing ties a response to the file it was asked for.  When
    the user selects another allowed file while the analysis of the first
    is awaited, the request still carries the first file's data and its
    answer is stored: the screen ends with the second file and the analysis
    of the first, without an error. *)
Theorem late_analysis_lands_on_new_file (service : Request -> Outcome)
        (reader : File -> ReadResult) (f g : File)
        (dataUrl mimeType base64Data text : string)
        (s : VehicleFinancingAnalysis.State) :
  VehicleFinancingAnalysis.file s = Some f ->
  In (fileType g) mimeAllowList ->
  reader f = Loaded dataUrl ->
  DataUrl.parse dataUrl = Some (mimeType, base64Data) ->
  service (contractRequest mimeType base64Data) = Resolved text ->
  let env := mkEnv service reader
               (VehicleFinancingAnalysis.handleFileChange (Some [g])) in
  let r := run (VehicleFinancingAnalysis.handleAnalyze s) env s in
  requests (events r) = [contractRequest mimeType base64Data]
  /\ VehicleFinancingAnalysis.file (finalState r) = Some g
  /\ VehicleFinancingAnalysis.analysis (finalState r) = text
  /\ VehicleFinancingAnalysis.error (finalState r) = None.
Proof.
  intros Hf Hg Hread Hparse Hs env r. subst r env.
  apply vehicle_allowed_iff in Hg.
  destruct s; cbn in Hf; subst.
  unfold VehicleFinancingAnalysis.handleAnalyze,
    VehicleFinancingAnalysis.fileToGenerativePart.
  run_handler. cbn [readFile generate meanwhile VehicleFinancingAnalysis.file].
  rewrite Hread, Hparse. unfold contractRequest in Hs. rewrite Hs.
  unfold VehicleFinancingAnalysis.handleFileChange. rewrite Hg.
  cbn. repeat split.
Qed.

Lemma late_analysis_lands_on_new_file_witness :
  VehicleFinancingAnalysis.file
    (finalState
       (run (VehicleFinancingAnalysis.handleAnalyze contractOnScreen)
            (mkEnv (answering "No violations found.") readingPdf
               (VehicleFinancingAnalysis.handleFileChange (Some [scanFile])))
            contractOnScreen))
  = Some scanFile.
Proof.
  exact (proj1 (proj2
           (late_analysis_lands_on_new_file (answering "No violations found.")
              readingPdf contractFile scanFile
              "data:application/pdf;base64,JVBERi0x" "application/pdf"
              "JVBERi0x" "No violations found." contractOnScreen eq_refl
              (or_intror (or_intror (or_introl eq_refl))) eq_refl eq_refl
              eq_refl))).
Defined.

(** ** The remedy letter *)

(** X9. With nothing else happening meanwhile and an analysis on the
    screen, the letter handler sends one request whose second part is
    "CONTRACT ANALYSIS:\n---\n" followed by that analysis, and changes
    neither the file, the analysis nor the analysis loading flag; when the
    request resolves the letter is the returned text and the error is
    cleared, and when it is rejected the previous letter stays beside the
    error message. *)
Theorem remedy_letter_quotes_the_analysis (service : Request -> Outcome)
        (reader : File -> ReadResult) (s : VehicleFinancingAnalysis.State) :
  VehicleFinancingAnalysis.analysis s <> "" ->
  let r := run (VehicleFinancingAnalysis.handleGenerateRemedy s)
               (atRest service reader) s in
  let req := remedyRequest (VehicleFinancingAnalysis.analysis s) in
  requests (events r) = [req]
  /\ VehicleFinancingAnalysis.file (finalState r)
     = VehicleFinancingAnalysis.file s
  /\ VehicleFinancingAnalysis.analysis (finalState r)
     = VehicleFinancingAnalysis.analysis s
  /\ VehicleFinancingAnalysis.isLoading (finalState r)
     = VehicleFinancingAnalysis.isLoading s
  /\ match service req with
     | Resolved text =>
         VehicleFinancingAnalysis.remedyLetter (finalState r) = text
         /\ VehicleFinancingAnalysis.error (finalState r) = None
     | Rejected =>
         VehicleFinancingAnalysis.remedyLetter (finalState r)
         = VehicleFinancingAnalysis.remedyLetter s
         /\ VehicleFinancingAnalysis.error (finalState r)
            = Some VehicleFinancingAnalysis.remedyFailedMessage
     end.
Proof.
  intros Ha r req. subst r req. apply truthy_true_iff in Ha.
  unfold VehicleFinancingAnalysis.handleGenerateRemedy, remedyRequest.
  rewrite Ha. cbn [negb]. cbv [atRest]. run_handler.
  cbn [generate meanwhile].
  destruct (service _); cbn; repeat split.
Qed.

Lemma remedy_letter_quotes_the_analysis_witness :
  requests
    (events (run (VehicleFinancingAnalysis.handleGenerateRemedy
                    screenWithLetter)
                 (atRest (answering "Dear lender.") readingPdf)
                 screenWithLetter))
  = [remedyRequest "The finance charge is not disclosed."].
Proof.
  exact (proj1 (remedy_letter_quotes_the_analysis (answering "Dear lender.")
                  readingPdf screenWithLetter ltac:(discriminate))).
Defined.

(** ** The interaction history *)

Lemma logStep_extends (s : DebtCollectorLog.State) (ev : LogEvent) :
  exists added,
    DebtCollectorLog.logs (logStep s ev) = DebtCollectorLog.logs s ++ added
    /\ (Forall completeEntry (DebtCollectorLog.logs s) ->
        Forall completeEntry (DebtCollectorLog.logs (logStep s ev))).
Proof.
  destruct s as [ls [dd dn dc ds] sg sug cd gen err].
  destruct ev as [name value | service | now | service]; cbn [logStep].
  - exists []. rewrite app_nil_r. split; [reflexivity | auto].
  - exists []. rewrite app_nil_r.
    unfold DebtCollectorLog.clickSuggestViolation,
      DebtCollectorLog.suggestDisabled,
      DebtCollectorLog.handleSuggestViolation.
    cbn [DebtCollectorLog.isSuggesting DebtCollectorLog.newLog
         DebtCollectorLog.draftDescription].
    destruct sug; cbn [orb]; [split; [reflexivity | auto]|].
    destruct (JS.truthy ds); cbn [negb]; [|split; [reflexivity | auto]].
    cbv [atRest]; run_handler; cbn [generate meanwhile].
    destruct (service _); cbn; split; auto.
  - unfold DebtCollectorLog.submitLogForm, DebtCollectorLog.formValid.
    cbn [DebtCollectorLog.newLog DebtCollectorLog.draftDate
         DebtCollectorLog.draftCollectorName DebtCollectorLog.draftCompany
         DebtCollectorLog.draftDescription].
    destruct (JS.truthy dd) eqn:H1; cbn [andb];
      [|exists []; rewrite app_nil_r; split; [reflexivity | auto]].
    destruct (JS.truthy dn) eqn:H2; cbn [andb];
      [|exists []; rewrite app_nil_r; split; [reflexivity | auto]].
    destruct (JS.truthy dc) eqn:H3; cbn [andb];
      [|exists []; rewrite app_nil_r; split; [reflexivity | auto]].
    destruct (JS.truthy ds) eqn:H4; cbn [andb];
      [|exists []; rewrite app_nil_r; split; [reflexivity | auto]].
    eexists. split; [reflexivity|]. cbn. intro Hall.
    apply Forall_app. split; [exact Hall|]. constructor; [|constructor].
    apply truthy_true_iff in H1, H2, H3, H4. repeat split; assumption.
  - exists []. rewrite app_nil_r.
    unfold DebtCollectorLog.clickGenerateCeaseAndDesist,
      DebtCollectorLog.letterRendered, DebtCollectorLog.letterDisabled,
      DebtCollectorLog.handleGenerateCeaseAndDesist.
    cbn [DebtCollectorLog.logs DebtCollectorLog.isGenerating].
    destruct ls as [|l ls]; [split; [reflexivity | auto]|].
    cbn [List.length Nat.ltb Nat.leb negb orb Nat.eqb].
    destruct gen; [split; [reflexivity | auto]|].
    cbv [atRest]; run_handler; cbn [generate meanwhile].
    destruct (service _); cbn; split; auto.
Qed.

(** X10. Typing, asking for a suggestion, submitting the form and asking
    for a letter, in any order and from any state, only ever add entries at
    the end of the log: the entries present before are still there,
    unchanged and in the same order. *)
Theorem history_is_append_only (evs : list LogEvent)
        (s : DebtCollectorLog.State) :
  exists added,
    DebtCollectorLog.logs (fold_left logStep evs s)
    = DebtCollectorLog.logs s ++ added.
Proof.
  revert s. induction evs as [|ev evs IH]; intro s; cbn [fold_left].
  - exists []. now rewrite app_nil_r.
  - destruct (IH (logStep s ev)) as [later Hlater].
    destruct (logStep_extends s ev) as (added & Hadded & _).
    exists (added ++ later). rewrite Hlater, Hadded. now rewrite app_assoc.
Qed.

(** X11. From the initial state, every entry the log ever holds has a
    non-empty date, collector name, company and description. *)
Theorem logged_entries_are_complete (evs : list LogEvent) :
  Forall completeEntry
    (DebtCollectorLog.logs
       (fold_left logStep evs DebtCollectorLog.initialState)).
Proof.
  assert (H0 : Forall completeEntry
                 (DebtCollectorLog.logs DebtCollectorLog.initialState))
    by constructor.
  revert H0. generalize DebtCollectorLog.initialState.
  induction evs as [|ev evs IH]; intros s Hs; [exact Hs|].
  cbn [fold_left]. apply IH.
  destruct (logStep_extends s ev) as (added & _ & Hkeep). exact (Hkeep Hs).
Qed.

(** X12. When a suggestion is requested for a valid draft and the
    request resolves, the returned text becomes the draft suggestion;
    submitting the form next appends an entry with the draft's fields and
    that text, and leaves the draft and the draft suggestion empty. *)
Theorem suggestion_is_frozen_into_entry (service : Request -> Outcome)
        (now : Z) (text : string) (s : DebtCollectorLog.State) :
  DebtCollectorLog.formValid (DebtCollectorLog.newLog s) = true ->
  DebtCollectorLog.isSuggesting s = false ->
  service (suggestRequest
             (DebtCollectorLog.draftDescription (DebtCollectorLog.newLog s)))
  = Resolved text ->
  let d := DebtCollectorLog.newLog s in
  let suggested := logStep s (LogSuggest service) in
  let submitted := logStep suggested (LogSubmit now) in
  DebtCollectorLog.suggestion suggested = text
  /\ DebtCollectorLog.logs submitted
     = DebtCollectorLog.logs s
       ++ [DebtCollectorLog.mkLogEntry now
             (DebtCollectorLog.draftDate d)
             (DebtCollectorLog.draftCollectorName d)
             (DebtCollectorLog.draftCompany d)
             (DebtCollectorLog.draftDescription d) text]
  /\ DebtCollectorLog.suggestion submitted = ""
  /\ DebtCollectorLog.newLog submitted = DebtCollectorLog.emptyDraft.
Proof.
  destruct s as [ls [dd dn dc ds] sg sug cd gen err].
  intros Hvalid Hsug Hs d suggested submitted.
  cbn [DebtCollectorLog.newLog DebtCollectorLog.isSuggesting
       DebtCollectorLog.draftDescription] in Hvalid, Hsug, Hs.
  subst sug d. cbn [DebtCollectorLog.newLog DebtCollectorLog.draftDate
       DebtCollectorLog.draftCollectorName DebtCollectorLog.draftCompany
       DebtCollectorLog.draftDescription DebtCollectorLog.logs].
  assert (Hds : JS.truthy ds = true).
  { unfold DebtCollectorLog.formValid in Hvalid. cbn in Hvalid.
    rewrite !andb_true_iff in Hvalid. tauto. }
  assert (E : suggested
              = DebtCollectorLog.mkState ls (DebtCollectorLog.mkDraft dd dn dc ds)
                  text false cd gen None).
  { subst suggested. cbn [logStep].
    unfold DebtCollectorLog.clickSuggestViolation,
      DebtCollectorLog.suggestDisabled,
      DebtCollectorLog.handleSuggestViolation.
    cbn [DebtCollectorLog.isSuggesting DebtCollectorLog.newLog
         DebtCollectorLog.draftDescription orb].
    rewrite Hds. cbn [negb]. cbv [atRest]; run_handler.
    cbn [generate meanwhile]. unfold suggestRequest in Hs. rewrite Hs.
    reflexivity. }
  subst submitted. rewrite E. cbn [logStep].
  unfold DebtCollectorLog.submitLogForm.
  cbn [DebtCollectorLog.newLog]. rewrite Hvalid.
  repeat split.
Qed.

Lemma suggestion_is_frozen_into_entry_witness :
  DebtCollectorLog.suggestion
    (logStep draftedLog (LogSuggest (answering "Possible 1692c violation.")))
  = "Possible 1692c violation.".
Proof.
  exact (proj1 (suggestion_is_frozen_into_entry
                  (answering "Possible 1692c violation.") 1700000000000
                  "Possible 1692c violation." draftedLog eq_refl eq_refl
                  eq_refl)).
Defined.

(** X13. Typing into one of the four inputs of the log form sets the
    draft field of that name to the typed value, and changes no other draft
    field, no log entry, no suggestion, letter or error. *)
Theorem typing_changes_one_field (name value : string)
        (s : DebtCollectorLog.State) :
  In name ["date"; "collectorName"; "company"; "description"] ->
  let s' := DebtCollectorLog.handleInputChange name value s in
  draftField name (DebtCollectorLog.newLog s') = Some value
  /\ (forall other,
         other <> name ->
         draftField other (DebtCollectorLog.newLog s')
         = draftField other (DebtCollectorLog.newLog s))
  /\ DebtCollectorLog.logs s' = DebtCollectorLog.logs s
  /\ DebtCollectorLog.suggestion s' = DebtCollectorLog.suggestion s
  /\ DebtCollectorLog.ceaseAndDesist s' = DebtCollectorLog.ceaseAndDesist s
  /\ DebtCollectorLog.error s' = DebtCollectorLog.error s.
Proof.
  destruct s as [ls [dd dn dc ds] sg sug cd gen err].
  intros Hin s'. subst s'.
  assert (Hother : forall other k : string,
             other <> k -> String.eqb other k = false).
  { intros other k H. now apply String.eqb_neq. }
  simpl in Hin. destruct Hin as [<-|[<-|[<-|[<-|[]]]]];
    (split; [reflexivity|]); (split; [|repeat split]);
    intros other Hne; unfold draftField; cbn;
    rewrite (Hother _ _ Hne); reflexivity.
Qed.

Lemma typing_changes_one_field_witness :
  draftField "company"
    (DebtCollectorLog.newLog
       (DebtCollectorLog.handleInputChange "company" "Apex Collections"
          draftedLog))
  = Some "Apex Collections".
Proof.
  exact (proj1 (typing_changes_one_field "company" "Apex Collections"
                  draftedLog (or_intror (or_intror (or_introl eq_refl))))).
Defined.

(** ** The cease-and-desist letter *)

Lemma join_contains (sep x : string) (xs : list string) :
  In x xs -> exists pre post, JS.join sep xs = (pre ++ x ++ post)%string.
Proof.
  induction xs as [|y ys IH]; intro Hin; [contradiction|].
  destruct Hin as [->|Hin].
  - destruct ys as [|z zs].
    + exists "", "". cbn. now rewrite append_nil_r.
    + exists "", (sep ++ JS.join sep (z :: zs))%string. reflexivity.
  - destruct (IH Hin) as (pre & post & Hj).
    destruct ys as [|z zs]; [contradiction|].
    exists (y ++ sep ++ pre)%string, post.
    change (JS.join sep (y :: z :: zs))
      with (y ++ sep ++ JS.join sep (z :: zs))%string.
    rewrite Hj, !append_assoc. reflexivity.
Qed.

Lemma includes_refl (q : string) : JS.includes q q = true.
Proof. apply includes_iff. exists "", "". cbn. now rewrite append_nil_r. Qed.

Lemma includes_app_l (a b q : string) :
  JS.includes a q = true -> JS.includes (a ++ b) q = true.
Proof.
  rewrite !includes_iff. intros (pre & post & ->).
  exists pre, (post ++ b)%string. now rewrite !append_assoc.
Qed.

Lemma includes_app_r (a b q : string) :
  JS.includes b q = true -> JS.includes (a ++ b) q = true.
Proof.
  rewrite !includes_iff. intros (pre & post & ->).
  exists (a ++ pre)%string, post. now rewrite !append_assoc.
Qed.

(** X14. With at least one entry logged, the cease-and-desist handler
    sends one request to gemini-2.5-pro whose prompt contains the summary
    line of every logged entry, and each line contains the entry's date,
    collector name, company, description and its suggestion (or "N/A" when
    it has none); the log itself is unchanged. *)
Theorem letter_request_covers_every_entry (service : Request -> Outcome)
        (reader : File -> ReadResult) (s : DebtCollectorLog.State) :
  DebtCollectorLog.logs s <> [] ->
  let r := run (DebtCollectorLog.handleGenerateCeaseAndDesist s)
               (atRest service reader) s in
  let prompt := DebtCollectorLog.ceaseAndDesistPrompt
                  (DebtCollectorLog.logs s) in
  requests (events r) = [mkRequest "gemini-2.5-pro" [Text prompt]]
  /\ DebtCollectorLog.logs (finalState r) = DebtCollectorLog.logs s
  /\ forall log,
       In log (DebtCollectorLog.logs s) ->
       JS.includes prompt (DebtCollectorLog.logLine log) = true
       /\ JS.includes (DebtCollectorLog.logLine log)
            (DebtCollectorLog.date log) = true
       /\ JS.includes (DebtCollectorLog.logLine log)
            (DebtCollectorLog.collectorName log) = true
       /\ JS.includes (DebtCollectorLog.logLine log)
            (DebtCollectorLog.company log) = true
       /\ JS.includes (DebtCollectorLog.logLine log)
            (DebtCollectorLog.description log) = true
       /\ JS.includes (DebtCollectorLog.logLine log)
            (JS.orElse (DebtCollectorLog.violationSuggestion log) "N/A")
          = true.
Proof.
  intros Hne r prompt. subst r prompt. split; [|split].
  - unfold DebtCollectorLog.handleGenerateCeaseAndDesist.
    destruct (DebtCollectorLog.logs s) as [|l ls] eqn:E; [congruence|].
    cbn [List.length Nat.eqb]. cbv [atRest]; run_handler.
    cbn [generate meanwhile]. destruct (service _); reflexivity.
  - unfold DebtCollectorLog.handleGenerateCeaseAndDesist.
    destruct s as [ls d sg sug cd gen err].
    cbn [DebtCollectorLog.logs] in *.
    destruct ls as [|l ls]; [congruence|].
    cbn [List.length Nat.eqb]. cbv [atRest]; run_handler.
    cbn [generate meanwhile]. destruct (service _); reflexivity.
  - intros log Hin. split.
    + unfold DebtCollectorLog.ceaseAndDesistPrompt.
      do 10 apply includes_app_r.
      destruct (join_contains
                  (DebtCollectorLog.newline ++ DebtCollectorLog.newline)
                  (DebtCollectorLog.logLine log)
                  (map DebtCollectorLog.logLine (DebtCollectorLog.logs s))
                  (in_map _ _ _ Hin)) as (pre & post & Hj).
      apply includes_iff. exists pre, post. exact Hj.
    + unfold DebtCollectorLog.logLine. repeat split.
      * apply includes_app_r, includes_app_l, includes_refl.
      * do 3 apply includes_app_r. apply includes_app_l, includes_refl.
      * do 5 apply includes_app_r. apply includes_app_l, includes_refl.
      * do 7 apply includes_app_r. apply includes_app_l, includes_refl.
      * do 9 apply includes_app_r. apply includes_refl.
Qed.

Lemma letter_request_covers_every_entry_witness :
  JS.includes
    (DebtCollectorLog.ceaseAndDesistPrompt (DebtCollectorLog.logs logWithCall))
    (DebtCollectorLog.logLine loggedCall)
  = true.
Proof.
  exact (proj1 (proj2 (proj2 (letter_request_covers_every_entry
                                (answering "Cease all contact.") readingPdf
                                logWithCall ltac:(discriminate)))
                  loggedCall (or_introl eq_refl))).
Defined.

(** ** A suggestion that arrives late *)

(** X15. Nothing ties a suggestion to the draft it was asked for.  When
    the form is submitted while the suggestion is awaited, the new entry is
    logged without a suggestion and the returned text becomes the
    suggestion of the next, empty draft. *)
Theorem late_suggestion_lands_on_next_draft (service : Request -> Outcome)
        (reader : File -> ReadResult) (now : Z) (text : string)
        (s : DebtCollectorLog.State) :
  DebtCollectorLog.formValid (DebtCollectorLog.newLog s) = true ->
  service (suggestRequest
             (DebtCollectorLog.draftDescription (DebtCollectorLog.newLog s)))
  = Resolved text ->
  let d := DebtCollectorLog.newLog s in
  let env := mkEnv service reader (DebtCollectorLog.submitLogForm now) in
  let r := run (DebtCollectorLog.handleSuggestViolation s) env s in
  DebtCollectorLog.logs (finalState r)
  = DebtCollectorLog.logs s
    ++ [DebtCollectorLog.mkLogEntry now
          (DebtCollectorLog.draftDate d)
          (DebtCollectorLog.draftCollectorName d)
          (DebtCollectorLog.draftCompany d)
          (DebtCollectorLog.draftDescription d) ""]
  /\ DebtCollectorLog.newLog (finalState r) = DebtCollectorLog.emptyDraft
  /\ DebtCollectorLog.suggestion (finalState r) = text.
Proof.
  destruct s as [ls [dd dn dc ds] sg sug cd gen err].
  intros Hvalid Hs d env r. subst d env r.
  cbn [DebtCollectorLog.newLog DebtCollectorLog.draftDescription
       DebtCollectorLog.draftDate DebtCollectorLog.draftCollectorName
       DebtCollectorLog.draftCompany DebtCollectorLog.logs] in *.
  assert (Hds : JS.truthy ds = true).
  { unfold DebtCollectorLog.formValid in Hvalid. cbn in Hvalid.
    rewrite !andb_true_iff in Hvalid. tauto. }
  unfold DebtCollectorLog.handleSuggestViolation.
  cbn [DebtCollectorLog.newLog DebtCollectorLog.draftDescription].
  rewrite Hds. cbn [negb]. run_handler. cbn [generate meanwhile].
  unfold suggestRequest in Hs. rewrite Hs.
  unfold DebtCollectorLog.submitLogForm.
  cbn [DebtCollectorLog.newLog DebtCollectorLog.setViolationSuggestion
       DebtCollectorLog.setError DebtCollectorLog.setIsSuggesting
       DebtCollectorLog.logs DebtCollectorLog.suggestion
       DebtCollectorLog.isSuggesting DebtCollectorLog.ceaseAndDesist
       DebtCollectorLog.isGenerating DebtCollectorLog.error].
  rewrite Hvalid. repeat split.
Qed.

Lemma late_suggestion_lands_on_next_draft_witness :
  DebtCollectorLog.suggestion
    (finalState
       (run (DebtCollectorLog.handleSuggestViolation draftedLog)
            (mkEnv (answering "Possible 1692c violation.") readingPdf
               (DebtCollectorLog.submitLogForm 1700000000000))
            draftedLog))
  = "Possible 1692c violation.".
Proof.
  exact (proj2 (proj2 (late_suggestion_lands_on_next_draft
                         (answering "Possible 1692c violation.") readingPdf
                         1700000000000 "Possible 1692c violation."
                         draftedLog eq_refl eq_refl))).
Defined.

(** ** Searching the catalogue *)

Lemma includes_empty (s : string) : JS.includes s "" = true.
Proof. apply includes_iff. exists "", s. reflexivity. Qed.

(** X16. With an empty search term the filter keeps every resource, in
    order, whatever [toLowerCase] does to text outside the ASCII range. *)
Theorem empty_search_shows_everything (toLowerCase : string -> string)
        (rs : list LegalResources.Resource) :
  LowerCasesAscii toLowerCase ->
  LegalResources.filteredResources toLowerCase rs "" = rs.
Proof.
  intro Hlow. unfold LegalResources.filteredResources.
  induction rs as [|r rs IH]; [reflexivity|].
  cbn [filter]. unfold LegalResources.matchesSearch at 1.
  rewrite (Hlow "" eq_refl). change (asciiLowerCase "") with "".
  rewrite includes_empty. cbn [orb]. now rewrite IH.
Qed.

Lemma empty_search_shows_everything_witness :
  LegalResources.filteredResources asciiLowerCase
    LegalResources.initialResources ""
  = LegalResources.initialResources.
Proof.
  exact (empty_search_shows_everything asciiLowerCase
           LegalResources.initialResources asciiLowerCase_law).
Defined.

Lemma includes_trans (s m q : string) :
  JS.includes s m = true -> JS.includes m q = true ->
  JS.includes s q = true.
Proof.
  rewrite !includes_iff. intros (p1 & t1 & ->) (p2 & t2 & ->).
  exists (p1 ++ p2)%string, (t2 ++ t1)%string.
  now rewrite !append_assoc.
Qed.

Lemma matchesSearch_narrow (toLowerCase : string -> string)
      (q q' : string) (r : LegalResources.Resource) :
  LowerCasesAscii toLowerCase ->
  isAscii q = true -> isAscii q' = true ->
  CaseInsensitiveSubstring q q' ->
  LegalResources.matchesSearch toLowerCase q' r = true ->
  LegalResources.matchesSearch toLowerCase q r = true.
Proof.
  intros Hlow Ha Ha' Hq. apply includes_lower_iff in Hq.
  rewrite <- (Hlow _ Ha), <- (Hlow _ Ha') in Hq.
  unfold LegalResources.matchesSearch. rewrite !orb_true_iff.
  intros [[H|H]|H]; [left; left | left; right | right];
    exact (includes_trans _ _ _ H Hq).
Qed.

Lemma filter_filter_narrow {A} (p p' : A -> bool) (l : list A) :
  (forall x, p' x = true -> p x = true) ->
  filter p' (filter p l) = filter p' l.
Proof.
  intro H. induction l as [|x l IH]; [reflexivity|]. cbn [filter].
  destruct (p x) eqn:Px; cbn [filter].
  - now rewrite IH.
  - destruct (p' x) eqn:P'x; [|exact IH].
    rewrite (H x P'x) in Px. discriminate.
Qed.

(** X17. When a search term in the ASCII range contains another one up
    to the case of the letters, every resource it keeps is also kept by
    the contained term, whatever the resources hold; filtering the results
    of the contained term by the longer one gives the same list as
    filtering the whole catalogue by the longer one. *)
Theorem longer_search_term_narrows (toLowerCase : string -> string)
        (rs : list LegalResources.Resource) (q q' : string) :
  LowerCasesAscii toLowerCase ->
  isAscii q = true -> isAscii q' = true ->
  CaseInsensitiveSubstring q q' ->
  LegalResources.filteredResources toLowerCase
    (LegalResources.filteredResources toLowerCase rs q) q'
  = LegalResources.filteredResources toLowerCase rs q'
  /\ incl (LegalResources.filteredResources toLowerCase rs q')
          (LegalResources.filteredResources toLowerCase rs q).
Proof.
  intros Hlow Ha Ha' Hq. unfold LegalResources.filteredResources.
  assert (E : filter (LegalResources.matchesSearch toLowerCase q')
                (filter (LegalResources.matchesSearch toLowerCase q) rs)
              = filter (LegalResources.matchesSearch toLowerCase q') rs).
  { apply filter_filter_narrow. intros r.
    exact (matchesSearch_narrow toLowerCase q q' r Hlow Ha Ha' Hq). }
  split; [exact E|]. rewrite <- E. apply incl_filter.
Qed.

Lemma longer_search_term_narrows_witness :
  incl (LegalResources.filteredResources asciiLowerCase
          LegalResources.initialResources "ucc article 9")
       (LegalResources.filteredResources asciiLowerCase
          LegalResources.initialResources "UCC").
Proof.
  assert (Hsub : CaseInsensitiveSubstring "UCC" "ucc article 9").
  { exists "", "ucc", " article 9". split; reflexivity. }
  exact (proj2 (longer_search_term_narrows asciiLowerCase
                  LegalResources.initialResources "UCC" "ucc article 9"
                  asciiLowerCase_law eq_refl eq_refl Hsub)).
Defined.

(** X18. Adding a resource with its three fields filled leaves every
    search result as it was, with the new resource put last when it matches
    the term; searching for its exact name or its exact category finds
    it.  This holds whatever [toLowerCase] computes. *)
Theorem added_resource_is_searchable (toLowerCase : string -> string)
        (s : LegalResources.State) (q : string) :
  let r := LegalResources.newResource s in
  let s' := LegalResources.handleAddResource s in
  LegalResources.name r <> "" -> LegalResources.url r <> "" ->
  LegalResources.category r <> "" ->
  LegalResources.filteredResources toLowerCase
    (LegalResources.resources s') q
  = LegalResources.filteredResources toLowerCase
      (LegalResources.resources s) q
    ++ (if LegalResources.matchesSearch toLowerCase q r then [r] else [])
  /\ In r (LegalResources.filteredResources toLowerCase
             (LegalResources.resources s') (LegalResources.name r))
  /\ In r (LegalResources.filteredResources toLowerCase
             (LegalResources.resources s') (LegalResources.category r)).
Proof.
  intros r s' Hn Hu Hc. subst s'. unfold LegalResources.handleAddResource.
  fold r. apply truthy_true_iff in Hn, Hu, Hc. rewrite Hn, Hu, Hc.
  cbn [andb LegalResources.resources].
  unfold LegalResources.filteredResources. rewrite !filter_app.
  cbn [filter]. split; [reflexivity|].
  split; apply in_or_app; right.
  - assert (E : LegalResources.matchesSearch toLowerCase
                  (LegalResources.name r) r = true).
    { unfold LegalResources.matchesSearch. rewrite includes_refl.
      reflexivity. }
    rewrite E. now left.
  - assert (E : LegalResources.matchesSearch toLowerCase
                  (LegalResources.category r) r = true).
    { unfold LegalResources.matchesSearch. rewrite includes_refl.
      now rewrite !orb_true_r. }
    rewrite E. now left.
Qed.

Lemma added_resource_is_searchable_witness :
  In (LegalResources.mkResource "Regulation Z" "https://example.org/z"
        "Regulations")
     (LegalResources.filteredResources asciiLowerCase
        (LegalResources.resources
           (LegalResources.handleAddResource
              (LegalResources.mkState LegalResources.initialResources ""
                 (LegalResources.mkResource "Regulation Z"
                    "https://example.org/z" "Regulations"))))
        "Regulation Z").
Proof.
  exact (proj1 (proj2
           (added_resource_is_searchable asciiLowerCase
              (LegalResources.mkState LegalResources.initialResources ""
                 (LegalResources.mkResource "Regulation Z"
                    "https://example.org/z" "Regulations"))
              "" ltac:(discriminate) ltac:(discriminate)
              ltac:(discriminate)))).
Defined.

(** X19. Typing a non-empty name, URL and category into the form and
    submitting it appends exactly the resource with these three values to
    the catalogue, empties the form and leaves the search term alone,
    whatever the form held before. *)
Theorem filling_the_form_adds_that_resource (s : LegalResources.State)
        (n u c : string) :
  n <> "" -> u <> "" -> c <> "" ->
  let typed := LegalResources.handleNewResourceChange "category" c
                 (LegalResources.handleNewResourceChange "url" u
                    (LegalResources.handleNewResourceChange "name" n s)) in
  LegalResources.newResource typed = LegalResources.mkResource n u c
  /\ LegalResources.resources (LegalResources.handleAddResource typed)
     = LegalResources.resources s ++ [LegalResources.mkResource n u c]
  /\ LegalResources.newResource (LegalResources.handleAddResource typed)
     = LegalResources.emptyResource
  /\ LegalResources.searchTerm (LegalResources.handleAddResource typed)
     = LegalResources.searchTerm s.
Proof.
  intros Hn Hu Hc typed. subst typed.
  apply truthy_true_iff in Hn, Hu, Hc.
  destruct s as [rs q [n0 u0 c0]].
  unfold LegalResources.handleAddResource,
    LegalResources.handleNewResourceChange. cbn. rewrite Hn, Hu, Hc.
  repeat split.
Qed.

Lemma filling_the_form_adds_that_resource_witness :
  LegalResources.resources
    (LegalResources.handleAddResource
       (LegalResources.handleNewResourceChange "category" "Regulations"
          (LegalResources.handleNewResourceChange "url"
             "https://example.org/z"
             (LegalResources.handleNewResourceChange "name" "Regulation Z"
                LegalResources.initialState))))
  = LegalResources.resources LegalResources.initialState
    ++ [LegalResources.mkResource "Regulation Z" "https://example.org/z"
          "Regulations"].
Proof.
  exact (proj1 (proj2
           (filling_the_form_adds_that_resource LegalResources.initialState
              "Regulation Z" "https://example.org/z" "Regulations"
              ltac:(discriminate) ltac:(discriminate)
              ltac:(discriminate)))).
Defined.

(** ** Grouping the results *)

(** X20. Rendering the list area throws exactly when some resource
    kept by the filter is filed under a heading that is a property name of
    [Object.prototype]; otherwise it yields a view. *)
Theorem rendering_throws_iff_inherited_heading
        (toLowerCase : string -> string)
        (localeCompare : string -> string -> Z)
        (rs : list LegalResources.Resource) (q : string) :
  LegalResources.render toLowerCase localeCompare rs q = Thrown
  <-> Exists (fun r => inheritedName (LegalResources.categoryLabel r))
             (LegalResources.filteredResources toLowerCase rs q).
Proof.
  split.
  - intro H.
    destruct (Exists_dec
                (fun r => inheritedName (LegalResources.categoryLabel r))
                (LegalResources.filteredResources toLowerCase rs q)) as [Hex|Hno].
    + intro r. unfold inheritedName.
      apply (in_dec String.string_dec).
    + exact Hex.
    + exfalso. rewrite Exists_exists in Hno.
      destruct (reduce_spec (LegalResources.filteredResources toLowerCase rs q) [])
        as (g & Hg & _).
      * intros r Hin Hr. apply Hno. exists r. split; assumption.
      * constructor.
      * unfold LegalResources.render, LegalResources.groupedResources in H.
        rewrite Hg in H. discriminate H.
  - intro Hex. unfold LegalResources.render,
      LegalResources.groupedResources.
    rewrite (reduce_throws _ [] (fun k H => match H with end) Hex).
    reflexivity.
Qed.

Lemma pushOwn_perm (k : string) (r : LegalResources.Resource)
      (o : LegalResources.Obj) :
  LegalResources.hasOwn k o = true ->
  Permutation (concat (map snd (LegalResources.pushOwn k r o)))
              (concat (map snd o) ++ [r]).
Proof.
  induction o as [|[k' items] o IH]; cbn; intro H; [discriminate|].
  destruct (String.eqb k' k) eqn:E; cbn.
  - rewrite <- !app_assoc. apply Permutation_app_head.
    apply Permutation_app_comm.
  - cbn in H. rewrite <- app_assoc. apply Permutation_app_head.
    exact (IH H).
Qed.

Lemma reduce_perm (rs : list LegalResources.Resource) :
  forall acc g,
    LegalResources.reduce rs acc = Ok g ->
    Permutation (concat (map snd g)) (concat (map snd acc) ++ rs).
Proof.
  induction rs as [|r rs IH]; intros acc g H; cbn in H.
  - inversion H; subst. now rewrite app_nil_r.
  - unfold LegalResources.groupStep in H.
    destruct (LegalResources.hasOwn (LegalResources.categoryLabel r) acc)
      eqn:Hown.
    + rewrite (IH _ _ H), (pushOwn_perm _ _ _ Hown), <- app_assoc.
      reflexivity.
    + destruct (JS.arrayIncludes LegalResources.objectPrototypeKeys
                  (LegalResources.categoryLabel r)); [discriminate|].
      rewrite (IH _ _ H), map_app, concat_app. cbn.
      rewrite <- app_assoc. reflexivity.
Qed.

Lemma pushOwn_nonempty (k : string) (r : LegalResources.Resource)
      (o : LegalResources.Obj) :
  Forall (fun section => snd section <> []) o ->
  Forall (fun section => snd section <> [])
         (LegalResources.pushOwn k r o).
Proof.
  induction 1 as [|[k' items] o Hx Ho IH]; cbn; [constructor|].
  destruct (String.eqb k' k); constructor; try assumption.
  cbn. intro E. apply app_eq_nil in E. destruct E; discriminate.
Qed.

Lemma reduce_nonempty (rs : list LegalResources.Resource) :
  forall acc g,
    Forall (fun section => snd section <> []) acc ->
    LegalResources.reduce rs acc = Ok g ->
    Forall (fun section => snd section <> []) g.
Proof.
  induction rs as [|r rs IH]; intros acc g Hacc H; cbn in H.
  - inversion H; subst. exact Hacc.
  - unfold LegalResources.groupStep in H.
    destruct (LegalResources.hasOwn (LegalResources.categoryLabel r) acc).
    + apply (IH _ _ (pushOwn_nonempty _ r _ Hacc) H).
    + destruct (JS.arrayIncludes LegalResources.objectPrototypeKeys
                  (LegalResources.categoryLabel r)); [discriminate|].
      apply (IH _ g) in H; [exact H|].
      apply Forall_app. split; [exact Hacc|].
      constructor; [discriminate | constructor].
Qed.

Lemma concat_snd_perm (l l' : list (string * list LegalResources.Resource)) :
  Permutation l l' ->
  Permutation (concat (map snd l)) (concat (map snd l')).
Proof.
  induction 1 as [|x l l' _ IH|x y l|l l' l'' _ IH1 _ IH2]; cbn.
  - reflexivity.
  - now apply Permutation_app_head.
  - rewrite !app_assoc. apply Permutation_app_tail, Permutation_app_comm.
  - now rewrite IH1.
Qed.

(** X21. Whenever the list area renders, the empty-state message is
    shown only for an empty result; otherwise the sections together hold
    every resource kept by the filter exactly once (as many copies as the
    filter kept) and no section is empty. *)
Theorem sections_hold_every_result_once
        (toLowerCase : string -> string)
        (localeCompare : string -> string -> Z)
        (rs : list LegalResources.Resource) (q : string)
        (view : LegalResources.View) :
  LegalResources.render toLowerCase localeCompare rs q = Ok view ->
  match view with
  | LegalResources.EmptyState => LegalResources.filteredResources toLowerCase rs q = []
  | LegalResources.Groups sections =>
      Permutation (concat (map snd sections))
                  (LegalResources.filteredResources toLowerCase rs q)
      /\ Forall (fun section => snd section <> []) sections
  end.
Proof.
  unfold LegalResources.render, LegalResources.groupedResources.
  destruct (LegalResources.reduce (LegalResources.filteredResources toLowerCase rs q) [])
    as [g|] eqn:Hg; [|discriminate].
  intro H. inversion H; subst view; clear H.
  pose proof (reduce_perm _ _ _ Hg) as Hperm. cbn in Hperm.
  pose proof (entries_perm g) as He.
  unfold LegalResources.renderGroups.
  rewrite length_map, <- (Permutation_length He).
  destruct g as [|e g].
  - cbn. cbn in Hperm. apply Permutation_nil. exact Hperm.
  - cbn [List.length Nat.ltb Nat.leb].
    pose proof (stableSort_perm _
                  (LegalResources.compareEntries localeCompare)
                  (LegalResources.entries (e :: g))) as Hs.
    split.
    + rewrite <- Hperm. apply concat_snd_perm.
      rewrite <- Hs. symmetry. exact He.
    + eapply Permutation_Forall.
      * rewrite <- Hs. exact He.
      * exact (reduce_nonempty _ _ _ (Forall_nil _) Hg).
Qed.

Lemma sections_hold_every_result_once_witness :
  Permutation
    (concat (map snd
       [("UCC",
         [LegalResources.mkResource "UCC Article 3 - Negotiable Instruments"
            "https://www.law.cornell.edu/ucc/3" "UCC";
          LegalResources.mkResource "UCC Article 9 - Secured Transactions"
            "https://www.law.cornell.edu/ucc/9" "UCC"])]))
    (LegalResources.filteredResources asciiLowerCase
       LegalResources.initialResources "UCC").
Proof.
  exact (proj1 (sections_hold_every_result_once asciiLowerCase
           codeUnitCompare
           LegalResources.initialResources "UCC"
           (LegalResources.Groups
              [("UCC",
                [LegalResources.mkResource
                   "UCC Article 3 - Negotiable Instruments"
                   "https://www.law.cornell.edu/ucc/3" "UCC";
                 LegalResources.mkResource
                   "UCC Article 9 - Secured Transactions"
                   "https://www.law.cornell.edu/ucc/9" "UCC"])])
           eq_refl)).
Defined.

Lemma codeUnitCompare_total (a b : string) :
  (codeUnitCompare a b > 0 -> codeUnitCompare b a <= 0)%Z.
Proof.
  unfold codeUnitCompare. rewrite (String.compare_antisym a b).
  destruct (String.compare b a); cbn; lia.
Qed.

Lemma render_spec_witness :
  exists sections,
    LegalResources.render asciiLowerCase codeUnitCompare
      LegalResources.initialResources "UCC"
    = Ok (LegalResources.Groups sections)
    /\ Sorted (inOrder codeUnitCompare) sections.
Proof.
  assert (Hsafe : forall r,
             In r (LegalResources.filteredResources asciiLowerCase
                     LegalResources.initialResources "UCC") ->
             ~ inheritedName (LegalResources.categoryLabel r)).
  { intros r Hin. vm_compute in Hin.
    destruct Hin as [<-|[<-|[]]]; vm_compute; intuition discriminate. }
  destruct (proj2 (render_spec asciiLowerCase codeUnitCompare
                     codeUnitCompare_total
                     LegalResources.initialResources "UCC" Hsafe))
    as (sections & Hrender & Hsorted & _).
  - vm_compute. discriminate.
  - exists sections. split; assumption.
Defined.

(** ** Headings *)

(** *** White space *)

Lemma length_append (a b : string) :
  String.length (a ++ b) = (String.length a + String.length b)%nat.
Proof. induction a as [|c a IH]; simpl; [reflexivity | now rewrite IH]. Qed.

Lemma append_cancel_l (a b c : string) :
  (a ++ b)%string = (a ++ c)%string -> b = c.
Proof.
  induction a as [|x a IH]; simpl; intro H; [exact H|].
  inversion H. auto.
Qed.

(** Two prefixes of one string: one is a prefix of the other. *)
Lemma append_comparable (a x b y : string) :
  (a ++ x)%string = (b ++ y)%string ->
  (exists z, b = (a ++ z)%string /\ x = (z ++ y)%string)
  \/ (exists z, a = (b ++ z)%string /\ y = (z ++ x)%string).
Proof.
  revert b. induction a as [|c a IH]; intros b H.
  - left. exists b. auto.
  - destruct b as [|d b].
    + right. exists (String c a). auto.
    + inversion H as [[Hc Hr]]. subst d.
      destruct (IH b Hr) as [(z & -> & ->)|(z & -> & ->)].
      * left. exists z. auto.
      * right. exists z. auto.
Qed.

Lemma stripPrefix_iff (w s r : string) :
  JS.stripPrefix w s = Some r <-> s = (w ++ r)%string.
Proof.
  revert s. induction w as [|a w IH]; intros s; simpl.
  - split; [intro H; inversion H; reflexivity | intros ->; reflexivity].
  - destruct s as [|b s]; [split; discriminate|].
    destruct (Ascii.eqb_spec a b) as [->|Hne].
    + rewrite IH. split; [intros ->; reflexivity | intro H; now inversion H].
    + split; [discriminate | intro H; inversion H; congruence].
Qed.

Lemma stripOne_some (ws : list string) (s r : string) :
  JS.stripOne ws s = Some r -> exists w, In w ws /\ s = (w ++ r)%string.
Proof.
  induction ws as [|w ws IH]; simpl; [discriminate|].
  destruct (JS.stripPrefix w s) as [r'|] eqn:E.
  - intro H; inversion H; subst. apply stripPrefix_iff in E.
    exists w. auto.
  - intro H. destruct (IH H) as (w' & Hin & Hs). exists w'. auto.
Qed.

Lemma stripOne_none (ws : list string) (s : string) :
  JS.stripOne ws s = None ->
  forall w r, In w ws -> s <> (w ++ r)%string.
Proof.
  induction ws as [|w ws IH]; simpl; intros H w' r Hin; [contradiction|].
  destruct (JS.stripPrefix w s) as [r'|] eqn:E; [discriminate|].
  destruct Hin as [<-|Hin].
  - intro Hs. apply stripPrefix_iff in Hs. congruence.
  - exact (IH H w' r Hin).
Qed.

(** Three facts about the table of white space, checked entry by entry:
    no entry is empty; no entry starts another one; and the bytes that
    follow the first byte of an entry neither start nor are started by an
    entry. *)

Lemma whiteSpace_nonempty (w : string) : In w JS.whiteSpace -> w <> "".
Proof.
  intros Hin ->.
  assert (H : forallb JS.truthy JS.whiteSpace = true) by reflexivity.
  rewrite forallb_forall in H. specialize (H _ Hin). discriminate H.
Qed.

Lemma whiteSpace_prefix_free (e w z : string) :
  In e JS.whiteSpace -> In w JS.whiteSpace -> w = (e ++ z)%string -> z = "".
Proof.
  intros He Hw Hz.
  assert (H : forallb (fun e =>
                forallb (fun w =>
                  match JS.stripPrefix e w with
                  | Some z => negb (JS.truthy z)
                  | None => true
                  end) JS.whiteSpace) JS.whiteSpace = true) by reflexivity.
  rewrite forallb_forall in H. specialize (H _ He).
  rewrite forallb_forall in H. specialize (H _ Hw).
  apply stripPrefix_iff in Hz. rewrite Hz in H.
  apply negb_true_iff, truthy_false_iff in H. exact H.
Qed.

Lemma properTails_In (x z : string) :
  x <> "" -> z <> "" -> In z (properTails (x ++ z)).
Proof.
  induction x as [|c x IH]; intros Hx Hz; [congruence|].
  cbn [append properTails].
  assert (T : JS.truthy (x ++ z) = true).
  { apply truthy_true_iff. intro E. apply append_eq_nil in E. tauto. }
  rewrite T. destruct x as [|d x]; [left; reflexivity|].
  right. apply IH; [discriminate | exact Hz].
Qed.

Lemma whiteSpace_no_straddle (e w x z : string) :
  In e JS.whiteSpace -> In w JS.whiteSpace ->
  x <> "" -> z <> "" -> e = (x ++ z)%string ->
  (forall y, w <> (z ++ y)%string) /\ (forall y, z <> (w ++ y)%string).
Proof.
  intros He Hw Hx Hz ->.
  assert (H : forallb (fun e =>
                forallb (fun z => forallb (apart z) JS.whiteSpace)
                        (properTails e)) JS.whiteSpace = true)
    by reflexivity.
  rewrite forallb_forall in H. specialize (H _ He).
  rewrite forallb_forall in H. specialize (H _ (properTails_In x z Hx Hz)).
  rewrite forallb_forall in H. specialize (H _ Hw).
  unfold apart in H.
  destruct (JS.stripPrefix z w) eqn:E1; [discriminate|].
  destruct (JS.stripPrefix w z) eqn:E2; [discriminate|].
  split; intros y Hy; apply stripPrefix_iff in Hy; congruence.
Qed.

Lemma stripOne_whiteSpace (w s : string) :
  In w JS.whiteSpace -> JS.stripOne JS.whiteSpace (w ++ s) = Some s.
Proof.
  intro Hw. destruct (JS.stripOne JS.whiteSpace (w ++ s)) as [r|] eqn:E.
  - destruct (stripOne_some _ _ _ E) as (e & He & Hs).
    destruct (append_comparable _ _ _ _ Hs) as [(z & Hz & _)|(z & Hz & _)].
    + pose proof (whiteSpace_prefix_free _ _ _ Hw He Hz) as ->.
      rewrite append_nil_r in Hz. subst e.
      now rewrite (append_cancel_l _ _ _ Hs).
    + pose proof (whiteSpace_prefix_free _ _ _ He Hw Hz) as ->.
      rewrite append_nil_r in Hz. subst e.
      now rewrite (append_cancel_l _ _ _ Hs).
  - exfalso. exact (stripOne_none _ _ E w s Hw eq_refl).
Qed.

Lemma stripOne_shorter (s r : string) :
  JS.stripOne JS.whiteSpace s = Some r -> String.length r < String.length s.
Proof.
  intro H. destruct (stripOne_some _ _ _ H) as (w & Hw & ->).
  rewrite length_append. pose proof (whiteSpace_nonempty w Hw).
  destruct w; [congruence | simpl; lia].
Qed.

(** The fuel of [trimStart] is enough: more does not change the result. *)
Lemma stripAll_fuel (n m : nat) (s : string) :
  String.length s <= n -> String.length s <= m ->
  JS.stripAll n JS.whiteSpace s = JS.stripAll m JS.whiteSpace s.
Proof.
  revert m s. induction n as [|n IH]; intros m s Hn Hm.
  - destruct s; [|simpl in Hn; lia]. destruct m; reflexivity.
  - destruct m as [|m].
    + destruct s; [reflexivity | simpl in Hm; lia].
    + cbn [JS.stripAll].
      destruct (JS.stripOne JS.whiteSpace s) as [r|] eqn:E; [|reflexivity].
      apply stripOne_shorter in E. apply IH; lia.
Qed.

Lemma trimStart_step (s : string) :
  JS.trimStart s
  = match JS.stripOne JS.whiteSpace s with
    | Some r => JS.trimStart r
    | None => s
    end.
Proof.
  unfold JS.trimStart. destruct s as [|c s]; [reflexivity|].
  cbn [String.length JS.stripAll].
  destruct (JS.stripOne JS.whiteSpace (String c s)) as [r|] eqn:E;
    [|reflexivity].
  apply stripOne_shorter in E. apply stripAll_fuel; simpl in E; lia.
Qed.

Lemma trimStart_blank_prefix (w s : string) :
  WhiteSpaceOnly w -> JS.trimStart (w ++ s) = JS.trimStart s.
Proof.
  induction 1 as [|w w' Hw _ IH]; [reflexivity|].
  rewrite append_assoc, trimStart_step, (stripOne_whiteSpace _ _ Hw).
  exact IH.
Qed.

Lemma trimStart_blank (w : string) : WhiteSpaceOnly w -> JS.trimStart w = "".
Proof.
  intro H. rewrite <- (append_nil_r w).
  now rewrite (trimStart_blank_prefix _ _ H).
Qed.

(** [trimStart] takes white space off, and what is left starts with
    none. *)
Lemma trimStart_spec (s : string) :
  exists w, WhiteSpaceOnly w /\ s = (w ++ JS.trimStart s)%string
            /\ JS.stripOne JS.whiteSpace (JS.trimStart s) = None.
Proof.
  remember (String.length s) as n eqn:Hn. revert s Hn.
  induction n as [n IH] using lt_wf_ind. intros s Hn.
  rewrite trimStart_step.
  destruct (JS.stripOne JS.whiteSpace s) as [r|] eqn:E.
  - pose proof (stripOne_shorter _ _ E) as Hlt.
    destruct (stripOne_some _ _ _ E) as (w & Hw & ->).
    destruct (IH (String.length r) ltac:(lia) r eq_refl)
      as (w' & Hw' & Hr & Hnone).
    exists (w ++ w')%string. split; [now constructor|].
    split; [|exact Hnone]. rewrite append_assoc. now rewrite <- Hr.
  - exists "". split; [constructor|]. auto.
Qed.

Lemma WhiteSpaceOnly_app (a b : string) :
  WhiteSpaceOnly a -> WhiteSpaceOnly b -> WhiteSpaceOnly (a ++ b).
Proof.
  induction 1 as [|w a Hw _ IH]; intro Hb; [exact Hb|].
  rewrite append_assoc. constructor; auto.
Qed.

Lemma trimStart_empty_blank (s : string) :
  JS.trimStart s = "" -> WhiteSpaceOnly s.
Proof.
  intro H. destruct (trimStart_spec s) as (w & Hw & Hs & _).
  rewrite H, append_nil_r in Hs. now subst.
Qed.

(** Text that starts with no white space does not start with any when
    white space follows it. *)
Lemma stripOne_before_blank (x a : string) :
  x <> "" -> JS.stripOne JS.whiteSpace x = None -> WhiteSpaceOnly a ->
  JS.stripOne JS.whiteSpace (x ++ a) = None.
Proof.
  intros Hx Hnone Ha.
  destruct (JS.stripOne JS.whiteSpace (x ++ a)) as [r|] eqn:E;
    [|reflexivity].
  exfalso. destruct (stripOne_some _ _ _ E) as (e & He & Hs).
  destruct (append_comparable _ _ _ _ Hs) as [(z & Hz & Hza)|(z & Hz & _)].
  - destruct z as [|c z].
    + rewrite append_nil_r in Hz. subst e.
      apply (stripOne_none _ _ Hnone x "" He). now rewrite append_nil_r.
    + destruct Ha as [|w a' Hw _]; [discriminate Hza|].
      destruct (whiteSpace_no_straddle e w x (String c z) He Hw Hx
                  ltac:(discriminate) Hz) as [H1 H2].
      destruct (append_comparable _ _ _ _ Hza) as [(y & Hy & _)|(y & Hy & _)].
      * exact (H2 y Hy).
      * exact (H1 y Hy).
  - exact (stripOne_none _ _ Hnone e z He Hz).
Qed.

Lemma trimStart_app (s a : string) :
  WhiteSpaceOnly a -> JS.trimStart s <> "" ->
  JS.trimStart (s ++ a) = (JS.trimStart s ++ a)%string.
Proof.
  intros Ha Hne. destruct (trimStart_spec s) as (w & Hw & Hs & Hnone).
  rewrite Hs at 1. rewrite append_assoc, (trimStart_blank_prefix _ _ Hw).
  rewrite trimStart_step.
  now rewrite (stripOne_before_blank _ _ Hne Hnone Ha).
Qed.

Lemma truthy_trimStart_app (s a : string) :
  WhiteSpaceOnly a ->
  JS.truthy (JS.trimStart (s ++ a)) = JS.truthy (JS.trimStart s).
Proof.
  intro Ha. destruct (JS.trimStart s) as [|c t] eqn:E.
  - apply trimStart_empty_blank in E.
    now rewrite (trimStart_blank _ (WhiteSpaceOnly_app _ _ E Ha)).
  - rewrite (trimStart_app _ _ Ha) by (rewrite E; discriminate).
    rewrite E. reflexivity.
Qed.

Lemma trimEnd_blank (w : string) : WhiteSpaceOnly w -> JS.trimEnd w = "".
Proof.
  intro Hw. destruct w as [|c w]; [reflexivity|].
  cbn [JS.trimEnd]. now rewrite (trimStart_blank _ Hw).
Qed.

Lemma trimEnd_blank_suffix (s w : string) :
  WhiteSpaceOnly w -> JS.trimEnd (s ++ w) = JS.trimEnd s.
Proof.
  intro Hw. induction s as [|c s IH].
  - exact (trimEnd_blank w Hw).
  - change (String c s ++ w)%string with (String c (s ++ w)).
    cbn [JS.trimEnd].
    change (String c (s ++ w)) with (String c s ++ w)%string.
    now rewrite (truthy_trimStart_app _ _ Hw), IH.
Qed.

Lemma trim_ignores_surrounding_blanks (before s after : string) :
  WhiteSpaceOnly before -> WhiteSpaceOnly after ->
  JS.trim (before ++ s ++ after) = JS.trim s.
Proof.
  intros Hb Ha. unfold JS.trim. rewrite (trimStart_blank_prefix _ _ Hb).
  destruct (JS.trimStart s) as [|c t] eqn:E.
  - apply trimStart_empty_blank in E.
    now rewrite (trimStart_blank _ (WhiteSpaceOnly_app _ _ E Ha)).
  - rewrite (trimStart_app _ _ Ha) by (rewrite E; discriminate).
    rewrite E. exact (trimEnd_blank_suffix _ _ Ha).
Qed.

Lemma trimEnd_spec (s : string) :
  (exists after, WhiteSpaceOnly after /\ s = (JS.trimEnd s ++ after)%string)
  /\ forall p w, In w JS.whiteSpace -> JS.trimEnd s <> (p ++ w)%string.
Proof.
  induction s as [|c s [(a & Ha & Hs) Hend]].
  - split; [exists ""; split; [constructor | reflexivity]|].
    intros p w Hw H. symmetry in H. apply append_eq_nil in H.
    exact (whiteSpace_nonempty w Hw (proj2 H)).
  - cbn [JS.trimEnd].
    destruct (JS.trimStart (String c s)) as [|d t] eqn:E; cbn [JS.truthy].
    + split; [exists (String c s); split;
                [exact (trimStart_empty_blank _ E) | reflexivity]|].
      intros p w Hw H. symmetry in H. apply append_eq_nil in H.
      exact (whiteSpace_nonempty w Hw (proj2 H)).
    + split; [exists a; split; [exact Ha | simpl; now rewrite <- Hs]|].
      intros [|c' p] w Hw H.
      * assert (Hall : String c s = (w ++ a)%string).
        { simpl in H. rewrite <- H. simpl. now rewrite <- Hs. }
        rewrite Hall, trimStart_blank in E; [discriminate|].
        constructor; assumption.
      * inversion H as [[Hc Hr]]. exact (Hend p w Hw Hr).
Qed.

(** [trim] takes white space off both ends, and all of it: the string is
    what [trim] returns with white space around it, and the result
    neither starts nor ends with white space. *)
Lemma trim_spec (s : string) :
  (exists before after,
     WhiteSpaceOnly before /\ WhiteSpaceOnly after
     /\ s = (before ++ JS.trim s ++ after)%string)
  /\ forall w rest, In w JS.whiteSpace ->
       JS.trim s <> (w ++ rest)%string /\ JS.trim s <> (rest ++ w)%string.
Proof.
  unfold JS.trim.
  destruct (trimStart_spec s) as (b & Hb & Hs & Hnone).
  destruct (trimEnd_spec (JS.trimStart s)) as [(a & Ha & Ht) Hend].
  split.
  - exists b, a. split; [exact Hb|]. split; [exact Ha|].
    now rewrite <- Ht.
  - intros w rest Hw. split; [|exact (Hend rest w Hw)].
    intro H.
    apply (stripOne_none _ _ Hnone w (rest ++ a)%string Hw).
    rewrite Ht at 1. rewrite H. now rewrite append_assoc.
Qed.

Lemma space_is_blank : WhiteSpaceOnly " ".
Proof.
  apply (blank_more " " ""); [|constructor]. do 4 right. left. reflexivity.
Qed.

Lemma no_break_space_is_blank : WhiteSpaceOnly (JS.utf8 160).
Proof.
  rewrite <- (append_nil_r (JS.utf8 160)).
  apply blank_more; [|constructor]. do 5 right. left. reflexivity.
Qed.

(** X22. Two categories that differ only by white space around them --
    spaces, tabs, no-break spaces, line terminators or any other white
    space [trim] strips -- are filed under the same heading, so the two
    resources appear in the same section. *)
Theorem blanks_around_category_share_heading
        (r r' : LegalResources.Resource) (before after : string) :
  WhiteSpaceOnly before ->
  WhiteSpaceOnly after ->
  LegalResources.category r'
  = (before ++ LegalResources.category r ++ after)%string ->
  LegalResources.categoryLabel r' = LegalResources.categoryLabel r
  /\ forall k rs,
       In r (membersOf k rs) -> In r' rs -> In r' (membersOf k rs).
Proof.
  intros Hb Ha Hc.
  assert (E : LegalResources.categoryLabel r'
              = LegalResources.categoryLabel r).
  { unfold LegalResources.categoryLabel.
    now rewrite Hc, trim_ignores_surrounding_blanks. }
  split; [exact E|]. intros k rs Hin Hin'.
  unfold membersOf in *. rewrite filter_In in *.
  rewrite E. tauto.
Qed.

Lemma blanks_around_category_share_heading_witness :
  LegalResources.categoryLabel
    (LegalResources.mkResource "Article 4" "https://example.org/4"
       (JS.utf8 160 ++ "UCC" ++ " "))
  = LegalResources.categoryLabel
      (LegalResources.mkResource "Article 3" "https://example.org/3" "UCC").
Proof.
  exact (proj1 (blanks_around_category_share_heading
                  (LegalResources.mkResource "Article 3"
                     "https://example.org/3" "UCC")
                  (LegalResources.mkResource "Article 4"
                     "https://example.org/4"
                     (JS.utf8 160 ++ "UCC" ++ " "))
                  (JS.utf8 160) " " no_break_space_is_blank space_is_blank
                  eq_refl)).
Defined.

Lemma matchesSearch_empty_term (toLowerCase : string -> string)
      (r : LegalResources.Resource) :
  LowerCasesAscii toLowerCase ->
  LegalResources.matchesSearch toLowerCase "" r = true.
Proof.
  intro Hlow. unfold LegalResources.matchesSearch.
  rewrite (Hlow "" eq_refl). change (asciiLowerCase "") with "".
  now rewrite includes_empty.
Qed.

(** No-break spaces around a category are trimmed like any white space:
    a category that is "constructor" between two of them is filed under
    the inherited name, and rendering throws. *)
Remark no_break_spaces_around_inherited_heading
       (toLowerCase : string -> string)
       (localeCompare : string -> string -> Z) :
  LowerCasesAscii toLowerCase ->
  let r := LegalResources.mkResource "Mechanics' liens"
             "https://example.org/liens"
             (JS.utf8 160 ++ "constructor" ++ JS.utf8 160) in
  LegalResources.categoryLabel r = "constructor"
  /\ LegalResources.render toLowerCase localeCompare [r] "" = Thrown.
Proof.
  intros Hlow r. split; [reflexivity|].
  unfold LegalResources.render, LegalResources.filteredResources.
  cbn [filter]. rewrite (matchesSearch_empty_term _ _ Hlow). reflexivity.
Qed.

(** ** The tab container *)

(** X23. For every active tab the tab bar has five buttons with distinct
    keys, exactly one of them -- the active tab's -- marked
    [aria-current="page"]; [renderContent] mounts a screen (never [null]),
    and two tabs never mount the same screen. *)
Theorem one_tab_is_current (activeTab : FinanceCockpit.Tab) :
  NoDup (map FinanceCockpit.key (FinanceCockpit.renderTabs activeTab))
  /\ filter FinanceCockpit.ariaCurrent (FinanceCockpit.renderTabs activeTab)
     = [FinanceCockpit.mkTabButton (FinanceCockpit.label activeTab) true
          activeTab]
  /\ FinanceCockpit.renderContent activeTab <> None
  /\ forall button other,
       In button (FinanceCockpit.renderTabs activeTab) ->
       FinanceCockpit.renderContent (FinanceCockpit.onClick button)
       = FinanceCockpit.renderContent other ->
       FinanceCockpit.onClick button = other.
Proof.
  split; [|split; [|split]].
  - destruct activeTab; cbn;
      repeat (constructor; [cbn; intuition discriminate|]); constructor.
  - destruct activeTab; reflexivity.
  - destruct activeTab; discriminate.
  - intros button other _. destruct (FinanceCockpit.onClick button), other;
      cbn; intro H; try reflexivity; discriminate H.
Qed.

(** ** Rendering the modal content *)


Lemma matchSection_finds (pre tok post : string) :
  CitationToken tok ->
  exists sec, EndorsementModal.matchSection (pre ++ tok ++ post) = Some sec.
Proof.
  intro Htok.
  assert (Hat : exists sec,
             EndorsementModal.matchSectionAt (tok ++ post) = Some sec).
  { pose proof (matchCitation_token tok post Htok) as Hm.
    destruct Htok as (a & b & c & d & _ & _ & _ & _ & Htok).
    exists (String a (String "-" (String b (String c (String d ""))))).
    apply matchSectionAt_matchCitation. exists post.
    rewrite Hm. subst tok. reflexivity. }
  induction pre as [|x pre IH].
  - destruct Hat as [sec Hsec]. exists sec. cbn [append].
    destruct (tok ++ post)%string; cbn [EndorsementModal.matchSection];
      rewrite Hsec; reflexivity.
  - destruct IH as [sec Hsec]. cbn [append EndorsementModal.matchSection].
    destruct (EndorsementModal.matchSectionAt
                (String x (pre ++ tok ++ post))) as [sec'|].
    + exists sec'. reflexivity.
    + exists sec. exact Hsec.
Qed.

Lemma no_match_is_plain (part : string) :
  EndorsementModal.matchSection part = None -> Plain part.
Proof.
  intros Hnone pre tok post Htok ->.
  destruct (matchSection_finds pre tok post Htok) as [sec Hsec].
  congruence.
Qed.

(** X27. [part.match(/\[UCC §(\d-\d{3})\]/)] fails exactly on the parts
    that hold no citation token, so a part is rendered as a [span] if and
    only if no token occurs in it. *)
Theorem part_matches_iff_it_holds_a_citation (part : string) :
  EndorsementModal.matchSection part = None <-> Plain part.
Proof.
  split.
  - apply no_match_is_plain.
  - intro Hplain.
    destruct (EndorsementModal.matchSection part) as [sec|] eqn:E;
      [|reflexivity].
    destruct (matchSection_occurs _ _ E) as (pre & tok & post & Htok & Hs).
    exfalso. exact (Hplain pre tok post Htok Hs).
Qed.

Lemma plain_text_splits_into_itself (text : string) :
  Plain text -> EndorsementModal.split text = [text].
Proof.
  intro Hplain. unfold EndorsementModal.split.
  pose proof (splitFrom_join "" text) as Hjoin.
  pose proof (splitFrom_alternating "" text (NoneStartsIn_nil text)) as Halt.
  cbn [append] in Hjoin.
  destruct Halt as [seg Hseg | seg tok rest Hseg Htok Hrest].
  - cbn in Hjoin. now subst.
  - exfalso. rewrite !join_empty_cons in Hjoin.
    exact (Hplain seg tok (JS.join "" rest) Htok (eq_sym Hjoin)).
Qed.

(** X25. A non-empty text that holds no citation token is rendered as a
    single [span] holding the whole text, so the modal with links shows the
    text the plain modal shows in its paragraph. *)
Theorem text_without_citation_is_one_span
        (explanation : EndorsementModal.State) (title content : string) :
  Plain content -> content <> "" ->
  EndorsementModal.renderContentWithLinks explanation content
  = Some [EndorsementModal.Span content]
  /\ ModalView.renderLinked explanation true title content false
     = Some (ModalView.mkDialog title
               (ModalView.Linked (Some [EndorsementModal.Span content])))
  /\ ModalView.renderPlain true title content false
     = Some (ModalView.mkDialog title (ModalView.Paragraph content)).
Proof.
  intros Hplain Hne.
  assert (E : EndorsementModal.renderContentWithLinks explanation content
              = Some [EndorsementModal.Span content]).
  { unfold EndorsementModal.renderContentWithLinks.
    apply truthy_true_iff in Hne. rewrite Hne. cbn [negb].
    rewrite (plain_text_splits_into_itself _ Hplain). cbn [map].
    now rewrite (renderPart_plain _ _ Hplain). }
  split; [exact E|]. split; [|reflexivity].
  unfold ModalView.renderLinked. cbn. now rewrite E.
Qed.

Lemma text_without_citation_is_one_span_witness :
  EndorsementModal.renderContentWithLinks None "A blank indorsement."
  = Some [EndorsementModal.Span "A blank indorsement."].
Proof.
  exact (proj1 (text_without_citation_is_one_span None "Endorsement"
                  "A blank indorsement."
                  (no_match_is_plain "A blank indorsement." eq_refl)
                  ltac:(discriminate))).
Defined.


